(** * A-Patricia: product matching and validation engine

    A shallow embedding of the Python services under [src/app/services]
    ([vision.py], [price_validator.py], [qdrant_service.py],
    [embedding_service.py], [slack_handler.py]) and the properties of the
    specification that were checked against it.

    Conventions of the embedding:
    - a Python [str] is a list of Unicode code points ([pystr]); literals are
      written as UTF-8 source text and decoded by [py];
    - a Python [float] is a primitive binary64 float;
    - a raised exception is the [Raise] branch of [res];
    - [re], [json] and the [str] methods are CPython library code: they are
      modelled here as far as the services use them. Case mapping and the
      word class are exact on ASCII and Latin-1, the digit class holds the
      ASCII digits, integers are unbounded, and the depth of nested JSON is
      not limited. *)

From Stdlib Require Import ZArith NArith List String Ascii Floats Lia.
From Stdlib Require Import DecimalString Sorted.
From stdpp Require Import base option list gmap.

#[local] Set Warnings "-register-all,-inexact-float".

Local Open Scope N_scope.

(** ** Python strings *)

Abbreviation pystr := (list N).

(** Decoding of a UTF-8 byte sequence into code points (source literals). *)
Fixpoint utf8_decode (bs : list N) : pystr :=
  match bs with
  | [] => []
  | b :: r =>
    if b <? 128 then b :: utf8_decode r
    else if b <? 224 then
      match r with
      | b1 :: r1 => ((b - 192) * 64 + (b1 - 128)) :: utf8_decode r1
      | _ => []
      end
    else if b <? 240 then
      match r with
      | b1 :: b2 :: r2 =>
          ((b - 224) * 4096 + (b1 - 128) * 64 + (b2 - 128)) :: utf8_decode r2
      | _ => []
      end
    else
      match r with
      | b1 :: b2 :: b3 :: r3 =>
          ((b - 240) * 262144 + (b1 - 128) * 4096 + (b2 - 128) * 64 + (b3 - 128))
            :: utf8_decode r3
      | _ => []
      end
  end.

Definition py (s : string) : pystr :=
  utf8_decode (map N_of_ascii (list_ascii_of_string s)).

(** A literal in which the apostrophe stands for the double quote. *)
Definition pyq (s : string) : pystr :=
  map (fun c => if c =? 39 then 34 else c) (py s).

Definition str_eqb (a b : pystr) : bool := bool_decide (a = b).

Definition in_range (lo hi c : N) : bool := (lo <=? c) && (c <=? hi).

(** [str.isspace] on one code point, which is also what [\s] matches. *)
Definition isspace (c : N) : bool :=
  in_range 9 13 c || in_range 28 32 c || (c =? 133) || (c =? 160)
  || (c =? 5760) || in_range 8192 8202 c || (c =? 8232) || (c =? 8233)
  || (c =? 8239) || (c =? 8287) || (c =? 12288).

(** [\d]: the ASCII digits (the other decimal digits of Unicode are left out). *)
Definition isdigit (c : N) : bool := in_range 48 57 c.

(** [\w] on ASCII and Latin-1: letters, digits, numeric signs, underscore. *)
Definition isword (c : N) : bool :=
  in_range 48 57 c || in_range 65 90 c || in_range 97 122 c || (c =? 95)
  || (c =? 170) || (c =? 178) || (c =? 179) || (c =? 181) || (c =? 185)
  || (c =? 186) || in_range 188 190 c
  || in_range 192 214 c || in_range 216 246 c || in_range 248 255 c.

(** Case mapping of one code point, exact on ASCII and Latin-1; the code
    points above U+00FF are left unchanged. *)
Definition lower_cp (c : N) : N :=
  if in_range 65 90 c then c + 32
  else if in_range 192 222 c && negb (c =? 215) then c + 32
  else c.

Definition upper_cp (c : N) : pystr :=
  if in_range 97 122 c then [c - 32]
  else if in_range 224 254 c && negb (c =? 247) then [c - 32]
  else if c =? 255 then [376]
  else if c =? 181 then [924]
  else if c =? 223 then [83; 83]
  else [c].

Definition lower (s : pystr) : pystr := map lower_cp s.
Definition upper (s : pystr) : pystr := concat (map upper_cp s).

Fixpoint lstrip (s : pystr) : pystr :=
  match s with
  | c :: r => if isspace c then lstrip r else s
  | [] => []
  end.

Definition rstrip (s : pystr) : pystr := rev (lstrip (rev s)).
Definition strip (s : pystr) : pystr := rstrip (lstrip s).

(** [s.rstrip(chars)] *)
Fixpoint lstrip_chars (chars s : pystr) : pystr :=
  match s with
  | c :: r => if existsb (N.eqb c) chars then lstrip_chars chars r else s
  | [] => []
  end.

Definition rstrip_chars (chars s : pystr) : pystr :=
  rev (lstrip_chars chars (rev s)).

Fixpoint starts_with (p s : pystr) : bool :=
  match p, s with
  | [], _ => true
  | a :: p', b :: s' => (a =? b) && starts_with p' s'
  | _ :: _, [] => false
  end.

(** [sub in s] *)
Fixpoint contains (sub s : pystr) : bool :=
  starts_with sub s || match s with [] => false | _ :: r => contains sub r end.

(** [s.count(sub)]: occurrences that do not overlap, for a non-empty [sub]. *)
Fixpoint count_from (skip : nat) (sub s : pystr) : Z :=
  match s with
  | [] => 0%Z
  | _ :: r =>
    match skip with
    | S k => count_from k sub r
    | O => if starts_with sub s
           then (1 + count_from (length sub - 1) sub r)%Z
           else count_from 0 sub r
    end
  end.

Definition count (sub s : pystr) : Z := count_from 0 sub s.

(** [s.rfind(sub)]: the highest index where [sub] starts, or -1. *)
Fixpoint rfind_from (i : Z) (sub s : pystr) : Z :=
  match s with
  | [] => if starts_with sub [] then i else (-1)%Z
  | _ :: r =>
    let later := rfind_from (i + 1) sub r in
    if (0 <=? later)%Z then later
    else if starts_with sub s then i else (-1)%Z
  end.

Definition rfind (sub s : pystr) : Z := rfind_from 0 sub s.

(** [s * n]: empty when [n] is negative. *)
Definition str_repeat (s : pystr) (n : Z) : pystr :=
  concat (replicate (Z.to_nat n) s).

(** [str(n)] and [int(s)] for decimal integers. *)
Definition str_of_int (z : Z) : pystr :=
  py (NilZero.string_of_int (Z.to_int z)).

Definition int_of_digits (s : pystr) : Z :=
  fold_left (fun acc c => (acc * 10 + Z.of_N (c - 48))%Z) s 0%Z.

(** ** Exceptions *)

Inductive exn : Type :=
| TypeError
| OverflowError
| CapabilityError (msg : pystr).

Inductive res (A : Type) : Type :=
| Ok (a : A)
| Raise (e : exn).
Arguments Ok {A} a.
Arguments Raise {A} e.

#[global] Instance res_ret : MRet res := fun A a => Ok a.

#[global] Instance res_bind : MBind res := fun A B f m =>
  match m with
  | Ok a => f a
  | Raise e => Raise e
  end.

(** ** Regular expressions ([re])

    A backtracking matcher with the priorities of CPython's engine: the
    alternatives of [|] from left to right, a greedy repetition the longest
    count first, a lazy one the shortest first, the leftmost start wins. *)

Inductive cls_item : Type :=
| CChar (c : N)
| CRange (lo hi : N)
| CSpace
| CDigit.

Inductive regex : Type :=
| Eps
| Chr (c : N)
| Cls (neg : bool) (items : list cls_item)
| Seq (r1 r2 : regex)
| Alt (r1 r2 : regex)
| Star (greedy : bool) (r : regex)
| Group (i : nat) (r : regex)
| Bol
| Eol
| WordB.

Definition Seqs (rs : list regex) : regex := foldr Seq Eps rs.
Definition Alts (rs : list regex) : regex := foldr Alt (Cls false []) rs.
Definition Str (s : string) : regex := Seqs (map Chr (py s)).
Definition Plus (r : regex) : regex := Seq r (Star true r).
Definition Opt (r : regex) : regex := Alt r Eps.
Definition Space : regex := Cls false [CSpace].
Definition Digit : regex := Cls false [CDigit].

(** The position of the matcher in the subject, and the groups captured. *)
Record mstate : Type := MState {
  before : pystr;   (* the text to the left of the position, reversed *)
  after : pystr;    (* the text to the right of the position *)
  groups : list (nat * pystr)
}.

Definition upper1_cp (c : N) : N :=
  match upper_cp c with
  | [u] => u
  | _ => c
  end.

Definition item_match (x : N) (it : cls_item) : bool :=
  match it with
  | CChar c => x =? c
  | CRange lo hi => in_range lo hi x
  | CSpace => isspace x
  | CDigit => isdigit x
  end.

Definition chr_match (ic : bool) (c x : N) : bool :=
  if ic then lower_cp x =? lower_cp c else x =? c.

Definition cls_match (ic neg : bool) (items : list cls_item) (x : N) : bool :=
  let hit := existsb (item_match x) items
             || (ic && (existsb (item_match (lower_cp x)) items
                        || existsb (item_match (upper1_cp x)) items)) in
  if neg then negb hit else hit.

Definition step (c : N) (rest : pystr) (s : mstate) : mstate :=
  MState (c :: before s) rest (groups s).

Definition capture (i : nat) (s0 s1 : mstate) : mstate :=
  let text := take (length (after s0) - length (after s1))%nat (after s0) in
  MState (before s1) (after s1) ((i, text) :: groups s1).

Definition at_word_boundary (s : mstate) : bool :=
  let l := match before s with c :: _ => isword c | [] => false end in
  let r := match after s with c :: _ => isword c | [] => false end in
  xorb l r.

Definition or_else {A} (a b : option A) : option A :=
  match a with
  | Some _ => a
  | None => b
  end.

Fixpoint rmatch (ic : bool) (r : regex) (s : mstate)
    (k : mstate -> option mstate) {struct r} : option mstate :=
  match r with
  | Eps => k s
  | Chr c =>
    match after s with
    | x :: rest => if chr_match ic c x then k (step x rest s) else None
    | [] => None
    end
  | Cls neg items =>
    match after s with
    | x :: rest => if cls_match ic neg items x then k (step x rest s) else None
    | [] => None
    end
  | Seq r1 r2 => rmatch ic r1 s (fun s1 => rmatch ic r2 s1 k)
  | Alt r1 r2 => or_else (rmatch ic r1 s k) (rmatch ic r2 s k)
  | Star greedy r1 =>
    (fix loop (n : nat) (s0 : mstate) {struct n} : option mstate :=
       match n with
       | O => k s0
       | S n' =>
         let again :=
           rmatch ic r1 s0 (fun s1 =>
             if (length (after s1) <? length (after s0))%nat
             then loop n' s1 else None) in
         if greedy then or_else again (k s0) else or_else (k s0) again
       end) (S (length (after s))) s
  | Group i r1 => rmatch ic r1 s (fun s1 => k (capture i s s1))
  | Bol => match before s with [] => k s | _ => None end
  | Eol => match after s with [] | [10] => k s | _ => None end
  | WordB => if at_word_boundary s then k s else None
  end.

(** A match: the subject left of its start (reversed), the subject from its
    start on, and the matcher's state at its end. *)
Record rmatch_t : Type := Match {
  m_before : pystr;
  m_from : pystr;
  m_final : mstate
}.

Fixpoint search_from (ic : bool) (r : regex) (bef aft : pystr)
    : option rmatch_t :=
  match rmatch ic r (MState bef aft []) Some with
  | Some m => Some (Match bef aft m)
  | None =>
    match aft with
    | [] => None
    | c :: rest => search_from ic r (c :: bef) rest
    end
  end.

(** [re.search(pattern, text)], [match.group(i)] *)
Definition re_search (ic : bool) (r : regex) (text : pystr) : option rmatch_t :=
  search_from ic r [] text.

Definition group (i : nat) (m : rmatch_t) : pystr :=
  match find (fun g => Nat.eqb (fst g) i) (groups (m_final m)) with
  | Some g => snd g
  | None => []
  end.

(** [re.sub(pattern, repl, text)] for a literal replacement. No pattern of
    the services matches the empty string; after an empty match the loop
    copies one character. *)
Fixpoint sub_loop (n : nat) (ic : bool) (r : regex) (repl bef aft : pystr)
    : pystr :=
  match n with
  | O => aft
  | S n' =>
    match search_from ic r bef aft with
    | None => aft
    | Some m =>
      let skipped := take (length aft - length (m_from m))%nat aft in
      let fin := m_final m in
      skipped ++ repl ++
        (if (length (after fin) <? length (m_from m))%nat
         then sub_loop n' ic r repl (before fin) (after fin)
         else match m_from m with
              | [] => []
              | c :: rest => c :: sub_loop n' ic r repl (c :: m_before m) rest
              end)
    end
  end.

Definition re_sub (ic : bool) (r : regex) (repl text : pystr) : pystr :=
  sub_loop (S (length text)) ic r repl [] text.

(** [re.findall(pattern, text)] for a pattern with groups 1 and 2. *)
Fixpoint findall_loop (n : nat) (ic : bool) (r : regex) (bef aft : pystr)
    : list (pystr * pystr) :=
  match n with
  | O => []
  | S n' =>
    match search_from ic r bef aft with
    | None => []
    | Some m =>
      let fin := m_final m in
      (group 1 m, group 2 m) ::
        (if (length (after fin) <? length (m_from m))%nat
         then findall_loop n' ic r (before fin) (after fin)
         else match m_from m with
              | [] => []
              | c :: rest => findall_loop n' ic r (c :: m_before m) rest
              end)
    end
  end.

Definition re_findall2 (ic : bool) (r : regex) (text : pystr)
    : list (pystr * pystr) :=
  findall_loop (S (length text)) ic r [] text.

(** ** Numbers: [float(...)] *)

(** The binary64 value nearest to [n / d] (ties to even), for [0 < n], [0 < d]:
    a quotient of at least 64 bits with a sticky last bit is rounded. *)
Definition float_of_ratio (neg : bool) (n d : Z) : float :=
  let sh := (64 - (Z.log2 n - Z.log2 d))%Z in
  let '(q, r) := if (0 <=? sh)%Z
                 then Z.div_eucl (n * 2 ^ sh) d
                 else Z.div_eucl n (d * 2 ^ (- sh)) in
  let m := (2 * q + (if (r =? 0)%Z then 0 else 1))%Z in
  SF2Prim (binary_normalize prec emax (if neg then - m else m) (- sh - 1) false).

(** The value of the decimal [m * 10 ^ e], for [0 <= m] with [digits] digits. *)
Definition float_of_decimal (neg : bool) (m : Z) (digits : nat) (e : Z) : float :=
  if (m =? 0)%Z then (if neg then (-0)%float else 0%float)
  else if (400 <? e + Z.of_nat digits)%Z
       then (if neg then neg_infinity else infinity)
  else if (e + Z.of_nat digits <? -400)%Z
       then (if neg then (-0)%float else 0%float)
  else if (0 <=? e)%Z then float_of_ratio neg (m * 10 ^ e) 1
  else float_of_ratio neg m (10 ^ (- e)).

(** [float(n)] of an [int]: OverflowError beyond the range of binary64. *)
Definition float_of_int (z : Z) : res float :=
  let f := SF2Prim (binary_normalize prec emax z 0 false) in
  if is_infinity f then Raise OverflowError else Ok f.

Fixpoint span_digits (s : pystr) : pystr * pystr :=
  match s with
  | c :: r => if isdigit c
              then let '(ds, rest) := span_digits r in (c :: ds, rest)
              else ([], s)
  | [] => ([], [])
  end.

(** [float(s)] for a text made of digits and dots: digits, an optional dot,
    digits, with a digit somewhere; [None] stands for [ValueError]. *)
Definition float_of_str (s : pystr) : option float :=
  let '(ip, r) := span_digits s in
  let '(fp, r') := match r with
                   | 46 :: r1 => span_digits r1
                   | _ => ([], r)
                   end in
  match ip ++ fp, r' with
  | _ :: _, [] =>
    Some (float_of_decimal false (int_of_digits (ip ++ fp))
            (length (ip ++ fp)) (- Z.of_nat (length fp)))
  | _, _ => None
  end.

(** ** JSON values and [json.loads] *)

Inductive json : Type :=
| JNull
| JBool (b : bool)
| JInt (z : Z)
| JFloat (f : float)
| JStr (s : pystr)
| JList (l : list json)
| JDict (d : list (pystr * json)).

(** A [dict] keeps its keys in insertion order; a later value replaces the
    earlier one in place. *)
Fixpoint dict_set (k : pystr) (v : json) (d : list (pystr * json))
    : list (pystr * json) :=
  match d with
  | [] => [(k, v)]
  | (k', v') :: r => if str_eqb k k' then (k, v) :: r else (k', v') :: dict_set k v r
  end.

Fixpoint dict_get (k : pystr) (d : list (pystr * json)) : option json :=
  match d with
  | [] => None
  | (k', v) :: r => if str_eqb k k' then Some v else dict_get k r
  end.

Definition json_ws (c : N) : bool :=
  (c =? 32) || (c =? 9) || (c =? 10) || (c =? 13).

Fixpoint skip_ws (s : pystr) : pystr :=
  match s with
  | c :: r => if json_ws c then skip_ws r else s
  | [] => []
  end.

Definition hex_val (c : N) : option N :=
  if in_range 48 57 c then Some (c - 48)
  else if in_range 97 102 c then Some (c - 87)
  else if in_range 65 70 c then Some (c - 55)
  else None.

Definition hex4 (s : pystr) : option (N * pystr) :=
  match s with
  | a :: b :: c :: d :: r =>
    a' ← hex_val a; b' ← hex_val b; c' ← hex_val c; d' ← hex_val d;
    Some (((a' * 16 + b') * 16 + c') * 16 + d', r)
  | _ => None
  end.

Definition json_escape (c : N) : option N :=
  if c =? 34 then Some 34 else if c =? 92 then Some 92
  else if c =? 47 then Some 47 else if c =? 98 then Some 8
  else if c =? 102 then Some 12 else if c =? 110 then Some 10
  else if c =? 114 then Some 13 else if c =? 116 then Some 9
  else None.

(** [scanstring] in strict mode, from the character after the opening quote:
    the decoded string and the text after the closing quote. *)
Fixpoint scanstring (fuel : nat) (s acc : pystr) : option (pystr * pystr) :=
  match fuel with
  | O => None
  | S f =>
    match s with
    | [] => None
    | 34 :: r => Some (rev acc, r)
    | 92 :: 117 :: r =>
      '(u, r1) ← hex4 r;
      if in_range 55296 56319 u then
        match r1 with
        | 92 :: 117 :: r2 =>
          '(u2, r3) ← hex4 r2;
          if in_range 56320 57343 u2
          then scanstring f r3
                 ((65536 + (u - 55296) * 1024 + (u2 - 56320)) :: acc)
          else scanstring f r1 (u :: acc)
        | _ => scanstring f r1 (u :: acc)
        end
      else scanstring f r1 (u :: acc)
    | 92 :: c :: r => x ← json_escape c; scanstring f r (x :: acc)
    | 92 :: [] => None
    | c :: r => if c <? 32 then None else scanstring f r (c :: acc)
    end
  end.

(** The number pattern of the scanner: an optional minus sign, then a zero or
    a digit run without a leading zero; an optional fraction (a dot and
    digits); an optional exponent (e or E, an optional sign, digits). *)
Definition scan_int_part (s : pystr) : option (pystr * pystr) :=
  match s with
  | 48 :: r => Some ([48], r)
  | c :: _ => if in_range 49 57 c then Some (span_digits s) else None
  | [] => None
  end.

Definition scan_frac (s : pystr) : option (pystr * pystr) :=
  match s with
  | 46 :: r =>
    match span_digits r with
    | ([], _) => None
    | (ds, rest) => Some (ds, rest)
    end
  | _ => None
  end.

Definition scan_exp (s : pystr) : option (Z * pystr) :=
  match s with
  | c :: r =>
    if (c =? 101) || (c =? 69) then
      let '(sign, r1) :=
        match r with
        | 45 :: r' => ((-1)%Z, r')
        | 43 :: r' => (1%Z, r')
        | _ => (1%Z, r)
        end in
      match span_digits r1 with
      | ([], _) => None
      | (ds, rest) => Some ((sign * int_of_digits ds)%Z, rest)
      end
    else None
  | [] => None
  end.

Definition scan_number (s : pystr) : option (json * pystr) :=
  let '(neg, s1) := match s with 45 :: r => (true, r) | _ => (false, s) end in
  '(ip, s2) ← scan_int_part s1;
  let fr := scan_frac s2 in
  let s3 := match fr with Some (_, r) => r | None => s2 end in
  let ex := scan_exp s3 in
  let s4 := match ex with Some (_, r) => r | None => s3 end in
  match fr, ex with
  | None, None =>
    Some (JInt (if neg then - int_of_digits ip else int_of_digits ip), s4)
  | _, _ =>
    let fp := match fr with Some (ds, _) => ds | None => [] end in
    let e := match ex with Some (e, _) => e | None => 0%Z end in
    Some (JFloat (float_of_decimal neg (int_of_digits (ip ++ fp))
                    (length (ip ++ fp)) (e - Z.of_nat (length fp))), s4)
  end.

Definition scan_literal (s : pystr) : option (json * pystr) :=
  let lit (w : string) (v : json) :=
    if starts_with (py w) s then Some (v, drop (length (py w)) s) else None in
  match s with
  | 110 :: _ => lit "null"%string JNull
  | 116 :: _ => lit "true"%string (JBool true)
  | 102 :: _ => lit "false"%string (JBool false)
  | _ =>
    match scan_number s with
    | Some v => Some v
    | None =>
      match s with
      | 78 :: _ => lit "NaN"%string (JFloat nan)
      | 73 :: _ => lit "Infinity"%string (JFloat infinity)
      | 45 :: _ => lit "-Infinity"%string (JFloat neg_infinity)
      | _ => None
      end
    end
  end.

(** [scan_once], [JSONArray] and [JSONObject] of [json.decoder]. Every call
    consumes fuel; twice the length of the text is enough for any text. *)
Fixpoint scan_once (fuel : nat) (s : pystr) : option (json * pystr) :=
  match fuel with
  | O => None
  | S f =>
    match s with
    | 34 :: r => '(str, r') ← scanstring (length r) r []; Some (JStr str, r')
    | 123 :: r =>
      match skip_ws r with
      | 125 :: r' => Some (JDict [], r')
      | 34 :: r' => json_members f r' []
      | _ => None
      end
    | 91 :: r =>
      match skip_ws r with
      | 93 :: r' => Some (JList [], r')
      | r' => json_items f r' []
      end
    | _ => scan_literal s
    end
  end
with json_items (fuel : nat) (s : pystr) (acc : list json)
    : option (json * pystr) :=
  match fuel with
  | O => None
  | S f =>
    '(v, r) ← scan_once f s;
    match skip_ws r with
    | 93 :: r' => Some (JList (acc ++ [v]), r')
    | 44 :: r' => json_items f (skip_ws r') (acc ++ [v])
    | _ => None
    end
  end
with json_members (fuel : nat) (s : pystr) (acc : list (pystr * json))
    : option (json * pystr) :=
  match fuel with
  | O => None
  | S f =>
    '(key, r) ← scanstring (length s) s [];
    match skip_ws r with
    | 58 :: r1 =>
      '(v, r2) ← scan_once f (skip_ws r1);
      match skip_ws r2 with
      | 125 :: r' => Some (JDict (dict_set key v acc), r')
      | 44 :: r3 =>
        match skip_ws r3 with
        | 34 :: r' => json_members f r' (dict_set key v acc)
        | _ => None
        end
      | _ => None
      end
    | _ => None
    end
  end.

(** [json.loads(s)]: [None] stands for [JSONDecodeError]. *)
Definition json_loads (s : pystr) : option json :=
  '(v, r) ← scan_once (2 * length s + 2) (skip_ws s);
  match skip_ws r with
  | [] => Some v
  | _ => None
  end.

(** Truth value of a JSON value, and iteration over it with [for]. *)
Definition py_truthy (v : json) : bool :=
  match v with
  | JNull => false
  | JBool b => b
  | JInt z => negb (z =? 0)%Z
  | JFloat f => negb (f =? 0)%float
  | JStr s => negb (bool_decide (s = []))
  | JList l => negb (bool_decide (length l = 0%nat))
  | JDict d => negb (bool_decide (length d = 0%nat))
  end.

Definition py_iter (v : json) : res (list json) :=
  match v with
  | JList l => Ok l
  | JStr s => Ok (map (fun c => JStr [c]) s)
  | JDict d => Ok (map (fun kv => JStr (fst kv)) d)
  | _ => Raise TypeError
  end.

(** ** vision.py *)

(** The product dictionaries that the vision service builds and the price
    validator reads; [nombre] is [None] when the key is missing. *)
Module Producto.
Record t : Type := mk {
  nombre : option pystr;
  precio : option float;
  presentacion : json;
  categoria : json;
  observaciones : json
}.
End Producto.

(** The pattern of [_extract_products_regex], with an apostrophe written for
    each double quote: ['nombre'\s*:\s*'([^']+)'[^}]*?'precio'\s*:\s*(\d+(?:\.\d+)?)] *)
Definition product_pattern : regex :=
  Seqs [Chr 34; Str "nombre"; Chr 34; Star true Space; Chr 58; Star true Space;
        Chr 34; Group 1 (Plus (Cls true [CChar 34])); Chr 34;
        Star false (Cls true [CChar 125]);
        Chr 34; Str "precio"; Chr 34; Star true Space; Chr 58; Star true Space;
        Group 2 (Seq (Plus Digit) (Opt (Seq (Chr 46) (Plus Digit))))].

Definition _extract_products_regex (text : pystr) : list Producto.t :=
  let matches := re_findall2 true product_pattern text in
  foldl (fun productos '(nombre, precio) =>
           match float_of_str precio with
           | Some f =>
             productos ++ [Producto.mk (Some (strip (upper nombre))) (Some f)
                             (JStr []) (JStr (py "General")) JNull]
           | None => productos
           end) [] matches.

(** The result is the parsed data, [JNull] standing for Python's [None]. *)
Definition _repair_truncated_json (text : pystr) : json :=
  let open_brackets := (count (py "[") text - count (py "]") text)%Z in
  let open_braces := (count (py "{") text - count (py "}") text)%Z in
  let repaired := rstrip_chars (py ",") (rstrip text) in
  let repaired := repaired ++ str_repeat (py "}") open_braces in
  let repaired := repaired ++ str_repeat (py "]") open_brackets in
  match json_loads repaired with
  | Some data => data
  | None =>
    let last_complete := rfind (py "},") text in
    if (0 <? last_complete)%Z then
      let truncated := take (Z.to_nat (last_complete + 1)) text in
      let open_brackets :=
        (count (py "[") truncated - count (py "]") truncated)%Z in
      let open_braces :=
        (count (py "{") truncated - count (py "}") truncated)%Z in
      let truncated := truncated ++ str_repeat (py "}") (Z.max 0 open_braces) in
      let truncated := truncated ++ str_repeat (py "]") (Z.max 0 open_brackets) in
      match json_loads truncated with
      | Some data => data
      | None => JNull
      end
    else JNull
  end.

Section Vision.

(** [repr] of a float, a list or a dict, which [str] returns for them. *)
Variable py_repr : json -> pystr.

Definition py_str (v : json) : pystr :=
  match v with
  | JStr s => s
  | JNull => py "None"
  | JBool b => if b then py "True" else py "False"
  | JInt z => str_of_int z
  | _ => py_repr v
  end.

Definition _parse_price (price : json) : res (option float) :=
  match price with
  | JNull => Ok None
  | JBool b => Ok (Some (if b then 1%float else 0%float))
  | JInt z => f ← float_of_int z; Ok (Some f)
  | JFloat f => Ok (Some f)
  | JStr s =>
    if str_eqb s (py "No visible") || str_eqb s (py "null") then Ok None
    else
      let cleaned := re_sub false (Cls true [CDigit; CChar 46]) [] s in
      match cleaned with
      | [] => Ok None
      | _ => Ok (float_of_str cleaned)
      end
  | _ => Ok None
  end.

(** The inner loop of the flattening: [for producto in productos]. *)
Fixpoint flatten_productos (categoria : json) (productos : list json)
    : res (list Producto.t) :=
  match productos with
  | [] => Ok []
  | JDict producto :: rest =>
    let nombre :=
      strip (upper (py_str (default (JStr []) (dict_get (py "nombre") producto)))) in
    if negb (bool_decide (nombre = [])) && negb (str_eqb nombre (py "NULL"))
    then
      precio ← _parse_price (default JNull (dict_get (py "precio") producto));
      flat ← flatten_productos categoria rest;
      Ok (Producto.mk (Some nombre) precio
            (default (JStr []) (dict_get (py "presentacion") producto))
            categoria
            (default JNull (dict_get (py "observaciones") producto)) :: flat)
    else flatten_productos categoria rest
  | _ :: rest => flatten_productos categoria rest
  end.

(** The outer loop: [for seccion in data]. *)
Fixpoint flatten_secciones (data : list json) : res (list Producto.t) :=
  match data with
  | [] => Ok []
  | JDict seccion :: rest =>
    let categoria := default (JStr (py "General")) (dict_get (py "categoria") seccion) in
    let productos := default (JList []) (dict_get (py "productos") seccion) in
    let productos :=
      if negb (py_truthy productos) && bool_decide (is_Some (dict_get (py "nombre") seccion))
      then JList [JDict seccion] else productos in
    items ← py_iter productos;
    flat ← flatten_productos categoria items;
    more ← flatten_secciones rest;
    Ok (flat ++ more)
  | _ :: rest => flatten_secciones rest
  end.

Definition _parse_gemini_response (text : pystr) : res (list Producto.t) :=
  let text := re_sub false (Seqs [Bol; Str "```json"; Star true Space]) [] text in
  let text := re_sub false (Seqs [Star true Space; Str "```"; Eol]) [] text in
  let text := strip text in
  let flatten (data : json) :=
    match data with
    | JNull => Ok []
    | JList l => flatten_secciones l
    | _ => flatten_secciones [data]
    end in
  match json_loads text with
  | Some data => flatten data
  | None =>
    match _repair_truncated_json text with
    | JNull => Ok (_extract_products_regex text)
    | data => flatten data
    end
  end.

End Vision.

Definition invalid_names : list pystr :=
  [py "NULL"; py "NONE"; py "NO VISIBLE"; py "NO LEGIBLE"].

(** The name a product is tested by, and the key it is deduplicated by. *)
Definition product_name (p : Producto.t) : pystr :=
  strip (upper (default [] (Producto.nombre p))).

Definition product_key (p : Producto.t) : pystr :=
  re_sub false (Plus Space) (py " ") (product_name p).

Definition dedup_products_step (st : gset pystr * list Producto.t)
    (p : Producto.t) : gset pystr * list Producto.t :=
  let nombre := product_name p in
  if bool_decide (nombre = []) || existsb (str_eqb nombre) invalid_names
  then st
  else
    let key := re_sub false (Plus Space) (py " ") nombre in
    if bool_decide (key ∈ st.1) then st
    else ({[key]} ∪ st.1, st.2 ++ [p]).

Definition _deduplicate_products (products : list Producto.t)
    : list Producto.t :=
  (foldl dedup_products_step (∅, []) products).2.

(** ** embedding_service.py and qdrant_service.py *)

(** [EmbeddingService._normalize_text]: upper case, trimmed, the fields
    between white space joined by one space. *)
Fixpoint split_ws_loop (cur : pystr) (s : pystr) : list pystr :=
  match s with
  | [] => match cur with [] => [] | _ => [rev cur] end
  | c :: r =>
    if isspace c
    then match cur with
         | [] => split_ws_loop [] r
         | _ => rev cur :: split_ws_loop [] r
         end
    else split_ws_loop (c :: cur) r
  end.

Definition split_ws (s : pystr) : list pystr := split_ws_loop [] s.

Fixpoint join (sep : pystr) (parts : list pystr) : pystr :=
  match parts with
  | [] => []
  | [p] => p
  | p :: rest => p ++ sep ++ join sep rest
  end.

Definition _normalize_text (text : pystr) : pystr :=
  match text with
  | [] => []
  | _ => join (py " ") (split_ws (strip (upper text)))
  end.

(** The payload of a stored point, with the keys that [add_products] writes;
    a field is [None] when its key is missing. *)
Module Payload.
Record t : Type := mk {
  nombre : option pystr;
  precio : option float;
  tienda_id : option pystr;
  codigo : option pystr;
  categoria : option pystr;
  presentacion : option pystr
}.
Definition empty : t := mk None None None None None None.
End Payload.

(** A scored point returned by the vector index. *)
Module Hit.
Record t : Type := mk {
  id : pystr;
  payload : option Payload.t;
  score : float
}.
End Hit.

Module ProductMatch.
Record t : Type := mk {
  id : pystr;
  nombre : pystr;
  precio : float;
  tienda_id : pystr;
  codigo : option pystr;
  categoria : option pystr;
  presentacion : option pystr;
  score : float;
  metadata : Payload.t
}.
End ProductMatch.

Definition match_of_hit (hit : Hit.t) : ProductMatch.t :=
  let payload := default Payload.empty (Hit.payload hit) in
  ProductMatch.mk (Hit.id hit)
    (default [] (Payload.nombre payload))
    (default 0%float (Payload.precio payload))
    (default [] (Payload.tienda_id payload))
    (Payload.codigo payload) (Payload.categoria payload)
    (Payload.presentacion payload) (Hit.score hit) payload.

(** A [for] loop whose body may raise. *)
Fixpoint foldlM {A B} (f : B -> A -> res B) (b : B) (l : list A) : res B :=
  match l with
  | [] => Ok b
  | a :: r => b' ← f b a; foldlM f b' r
  end.

Section Qdrant.

(** The two external capabilities: the embedding model, which encodes each
    text of a batch on its own, and the search of the vector index (query
    vector, store filter, limit, score threshold), which may fail. *)
Context {Embedding : Type}.
Variable encode : pystr -> Embedding.
Variable client_search :
  Embedding -> option pystr -> Z -> float -> res (list Hit.t).

Definition generate_embeddings_batch (texts : list pystr) : list Embedding :=
  match texts with
  | [] => []
  | _ => map encode (map _normalize_text texts)
  end.

(** The store filter of a search: none for [None] or an empty id. *)
Definition search_filter (tienda_id : option pystr) : option pystr :=
  match tienda_id with
  | Some (c :: t) => Some (c :: t)
  | _ => None
  end.

(** The body of the loop of [search_products_batch] for one query. *)
Definition search_one (tienda_id : option pystr) (limit : Z)
    (score_threshold : float) (results : gmap pystr (list ProductMatch.t))
    (qe : pystr * Embedding) : res (gmap pystr (list ProductMatch.t)) :=
  hits ← client_search qe.2 (search_filter tienda_id) limit score_threshold;
  let matches := foldl (fun ms hit => ms ++ [match_of_hit hit]) [] hits in
  Ok (<[qe.1 := matches]> results).

Definition search_products_batch (queries : list pystr)
    (tienda_id : option pystr) (limit : Z) (score_threshold : float)
    : res (gmap pystr (list ProductMatch.t)) :=
  let embeddings := generate_embeddings_batch queries in
  foldlM (search_one tienda_id limit score_threshold)
         ∅ (zip queries embeddings).

End Qdrant.

(** ** price_validator.py *)

Definition PRICE_TOLERANCE_PERCENT : float := 5.0%float.
Definition SEARCH_LIMIT : Z := 5%Z.
Definition SIMILARITY_THRESHOLD : float := 0.7%float.

Definition MATCH : pystr := py "MATCH".
Definition PRICE_DIFF : pystr := py "PRICE_DIFF".
Definition NOT_FOUND : pystr := py "NOT_FOUND".
Definition NO_PRICE : pystr := py "NO_PRICE".
Definition CHECK_MARK : pystr := py "✅".
Definition CROSS_MARK : pystr := py "❌".
Definition WARNING_SIGN : pystr := py "⚠️".

Record ValidationResult : Type := mkValidationResult {
  producto_imagen : pystr;
  precio_imagen : option float;
  producto_sistema : option pystr;
  precio_sistema : option float;
  validacion : pystr;
  diferencia : option float;
  status : pystr;
  match_score : option float
}.

(** The dictionary that [_compare_prices] returns. *)
Module Comparison.
Record t : Type := mk {
  validacion : pystr;
  diferencia : option float;
  status : pystr
}.
End Comparison.

Section PriceValidator.

(** [self.tolerance], [self.search_limit], [self.similarity_threshold] *)
Variable tolerance : float.
Variable search_limit : Z.
Variable similarity_threshold : float.

Context {Embedding : Type}.
Variable encode : pystr -> Embedding.
Variable client_search :
  Embedding -> option pystr -> Z -> float -> res (list Hit.t).

Definition _prices_match (precio_imagen precio_sistema : float) : bool :=
  if (precio_sistema =? 0)%float then (precio_imagen =? 0)%float
  else
    let diff_percent :=
      (PrimFloat.abs (precio_imagen - precio_sistema) / precio_sistema)%float in
    (diff_percent <=? tolerance)%float.

Definition _compare_prices (precio_imagen precio_sistema : option float)
    : Comparison.t :=
  match precio_imagen, precio_sistema with
  | Some precio_imagen, Some precio_sistema =>
    let diferencia := (precio_sistema - precio_imagen)%float in
    if _prices_match precio_imagen precio_sistema
    then Comparison.mk CHECK_MARK (Some diferencia) MATCH
    else Comparison.mk CROSS_MARK (Some diferencia) PRICE_DIFF
  | _, _ => Comparison.mk WARNING_SIGN None NO_PRICE
  end.

(** The body of the loop of [validate_products] for one product. *)
Definition validate_product
    (search_results : gmap pystr (list ProductMatch.t))
    (producto : Producto.t) : ValidationResult :=
  let nombre_imagen := default (py "DESCONOCIDO") (Producto.nombre producto) in
  let precio_imagen := Producto.precio producto in
  let matches := default [] (search_results !! nombre_imagen) in
  match matches with
  | [] =>
    mkValidationResult nombre_imagen precio_imagen None None
      WARNING_SIGN None NOT_FOUND None
  | best_match :: _ =>
    let precio_sistema := ProductMatch.precio best_match in
    let nombre_sistema := ProductMatch.nombre best_match in
    let match_score := ProductMatch.score best_match in
    let validation_result := _compare_prices precio_imagen (Some precio_sistema) in
    mkValidationResult nombre_imagen precio_imagen
      (Some nombre_sistema) (Some precio_sistema)
      (Comparison.validacion validation_result)
      (Comparison.diferencia validation_result)
      (Comparison.status validation_result)
      (Some match_score)
  end.

Definition validate_products (productos_imagen : list Producto.t)
    (tienda_id : Z) : res (list ValidationResult) :=
  let queries := map (fun p => default [] (Producto.nombre p)) productos_imagen in
  search_results ←
    search_products_batch encode client_search queries
      (Some (str_of_int tienda_id)) search_limit similarity_threshold;
  Ok (foldl (fun validaciones producto =>
               validaciones ++ [validate_product search_results producto])
            [] productos_imagen).

End PriceValidator.

(** The key of [_deduplicate_results]: the catalog name when there is one,
    else the name read from the image; upper case, trimmed. *)
Definition result_key (v : ValidationResult) : pystr :=
  let key := match producto_sistema v with
             | Some (c :: s) => c :: s
             | _ => producto_imagen v
             end in
  match key with
  | [] => []
  | _ => strip (upper key)
  end.

Definition dedup_results_step (st : gset pystr * list ValidationResult)
    (v : ValidationResult) : gset pystr * list ValidationResult :=
  let key := result_key v in
  if bool_decide (key = []) || str_eqb key (py "NULL") || str_eqb key (py "NONE")
  then st
  else if bool_decide (key ∈ st.1) then st
  else ({[key]} ∪ st.1, st.2 ++ [v]).

Definition _deduplicate_results (validaciones : list ValidationResult)
    : list ValidationResult :=
  (foldl dedup_results_step (∅, []) validaciones).2.

(** ** slack_handler.py: the intent parser *)

(** [\s*], [\s+], [[#:]?], [\d{3,4}] *)
Definition Sp0 : regex := Star true Space.
Definition Sp1 : regex := Plus Space.
Definition HashColon : regex := Opt (Cls false [CChar 35; CChar 58]).
Definition Digits34 : regex := Seqs [Digit; Digit; Digit; Opt Digit].

(** The patterns of [_extract_tienda_id], in the order they are tried:
    [tienda\s*[#:]?\s*(\d+)], the same for [store] and [sucursal],
    [#(\d{3,4})\b] and [\b(\d{3,4})\b]. *)
Definition tienda_patterns : list regex :=
  [ Seqs [Str "tienda"; Sp0; HashColon; Sp0; Group 1 (Plus Digit)];
    Seqs [Str "store"; Sp0; HashColon; Sp0; Group 1 (Plus Digit)];
    Seqs [Str "sucursal"; Sp0; HashColon; Sp0; Group 1 (Plus Digit)];
    Seqs [Chr 35; Group 1 Digits34; WordB];
    Seqs [WordB; Group 1 Digits34; WordB] ].

(** The loop over the patterns: the first match whose number is in range. *)
Fixpoint first_tienda (patterns : list regex) (text_lower : pystr) : option Z :=
  match patterns with
  | [] => None
  | pattern :: rest =>
    match re_search false pattern text_lower with
    | Some m =>
      let tienda_id := int_of_digits (group 1 m) in
      if (1 <=? tienda_id)%Z && (tienda_id <=? 9999)%Z then Some tienda_id
      else first_tienda rest text_lower
    | None => first_tienda rest text_lower
    end
  end.

Definition _extract_tienda_id (text : pystr) : option Z :=
  match text with
  | [] => None
  | _ => first_tienda tienda_patterns (lower text)
  end.

(** [(la|el|los|las)?] and [(el|la|los|las)?] *)
Definition ArtLa : regex := Opt (Group 9 (Alts [Str "la"; Str "el"; Str "los"; Str "las"])).
Definition ArtEl : regex := Opt (Group 9 (Alts [Str "el"; Str "la"; Str "los"; Str "las"])).
(** [tr[aá]eme] and [cu[aá]l] *)
Definition Traeme : regex := Seqs [Str "tr"; Cls false [CChar 97; CChar 225]; Str "eme"].
Definition Cual : regex := Seqs [Str "cu"; Cls false [CChar 97; CChar 225]; Str "l"].
(** [precio\s+de\s+] *)
Definition PrecioDe : regex := Seqs [Str "precio"; Sp1; Str "de"; Sp1].

(** [(de\s+la\s+)?KEYWORD\s*[#:]?\s*\d+] *)
Definition store_reference (keyword : string) : regex :=
  Seqs [Opt (Group 1 (Seqs [Str "de"; Sp1; Str "la"; Sp1]));
        Str keyword; Sp0; HashColon; Sp0; Plus Digit].

(** The request phrases of [_extract_search_term], the most specific first. *)
Definition frases_remover : list regex :=
  [ Seqs [Traeme; Sp1; Str "el"; Sp1; PrecioDe; ArtLa; Sp0];
    Seqs [Cual; Sp1; Str "es"; Sp1; Str "el"; Sp1; PrecioDe; ArtLa; Sp0];
    Seqs [Str "dame"; Sp1; Str "el"; Sp1; PrecioDe; ArtLa; Sp0];
    Seqs [Str "quiero"; Sp1; Opt (Group 1 (Seqs [Str "saber"; Sp1]));
          Opt (Group 2 (Seqs [Str "el"; Sp1])); PrecioDe; ArtLa; Sp0];
    Seqs [Str "consulta"; Sp1; Opt (Group 1 (Seqs [Str "el"; Sp1]));
          PrecioDe; ArtLa; Sp0];
    Seqs [Str "busca"; Opt (Group 1 (Str "r")); Sp1;
          Opt (Group 2 (Seqs [Str "el"; Sp1])); PrecioDe; ArtLa; Sp0];
    Seqs [PrecioDe; ArtLa; Sp0];
    Seqs [Traeme; Sp1; ArtEl; Sp0];
    Seqs [Cual; Sp1; Str "es"; Sp1; Opt (Group 1 (Alts [Str "el"; Str "la"])); Sp0];
    Seqs [Str "dame"; Sp1; ArtEl; Sp0];
    Seqs [Str "busca"; Opt (Group 1 (Str "r")); Sp0];
    Seqs [Str "precio"; Sp1; Str "de"; Opt (Group 1 (Str "l")); Sp0];
    Seqs [WordB; Str "precio"; WordB];
    Seqs [WordB; Str "cuanto"; Sp1; Str "cuesta"; WordB];
    Seqs [WordB; Str "cuánto"; Sp1; Str "cuesta"; WordB] ].

(** The text of [_extract_search_term] before the final test on its length. *)
Definition search_term_residue (text : pystr) : pystr :=
  let cleaned := text in
  let cleaned :=
    re_sub false
      (Seqs [Str "<@"; Plus (Cls false [CRange 65 90; CRange 48 57]); Chr 62])
      [] cleaned in
  let cleaned := re_sub true (store_reference "tienda") [] cleaned in
  let cleaned := re_sub true (store_reference "store") [] cleaned in
  let cleaned := re_sub true (store_reference "sucursal") [] cleaned in
  let cleaned := re_sub false (Seqs [Chr 35; Plus Digit]) [] cleaned in
  let cleaned :=
    foldl (fun cleaned patron => re_sub true patron [] cleaned)
          cleaned frases_remover in
  let cleaned := strip (re_sub false Sp1 (py " ") cleaned) in
  let cleaned :=
    re_sub true
      (Seqs [Bol;
             Group 1 (Alts [Str "el"; Str "la"; Str "los"; Str "las";
                            Str "de"; Str "del"]);
             Sp1])
      [] cleaned in
  strip cleaned.

Definition _extract_search_term (text : pystr) : option pystr :=
  match text with
  | [] => None
  | _ =>
    let cleaned := search_term_residue text in
    if (2 <? length cleaned)%nat then Some cleaned else None
  end.

Definition greetings : list pystr :=
  [ py "hola"; py "hello"; py "hi"; py "hey"; py "buenos días";
    py "buenas tardes"; py "buenas noches"; py "ayuda"; py "help";
    py "qué puedes"; py "que puedes"; py "para qué sirves";
    py "para que sirves"; py "qué haces"; py "que haces";
    py "cómo funciona"; py "como funciona" ].

(** The truth value of an [Optional[int]]: [None] and 0 are false. *)
Definition truthy_int (o : option Z) : bool :=
  match o with
  | Some z => negb (z =? 0)%Z
  | None => false
  end.

Definition _is_greeting_or_help (text : pystr) : bool :=
  let text_lower := lower text in
  if truthy_int (_extract_tienda_id text) then false
  else
    let is_greeting := existsb (fun g => contains g text_lower) greetings in
    if str_eqb (strip text) (py "?") then true
    else is_greeting.

(** ** First occurrences: what deduplication is specified to compute *)

Section FirstOccurrences.

Context {A : Type}.

(** The key a record is deduplicated by; [None] for a record that is
    dropped whatever came before it. *)
Variable key : A -> option pystr.

(** The loop of both deduplications, over an arbitrary key. *)
Definition dedup_step (st : gset pystr * list A) (x : A)
    : gset pystr * list A :=
  match key x with
  | None => st
  | Some k =>
    if bool_decide (k ∈ st.1) then st else ({[k]} ∪ st.1, st.2 ++ [x])
  end.

(** The records of [l] with a key that is neither in [seen] nor carried
    by an earlier record of [l]. *)
Fixpoint keep_new (seen : gset pystr) (l : list A) : list A :=
  match l with
  | [] => []
  | x :: r =>
    match key x with
    | None => keep_new seen r
    | Some k =>
      if bool_decide (k ∈ seen) then keep_new seen r
      else x :: keep_new ({[k]} ∪ seen) r
    end
  end.

(** [x], met after the records [pre], is the first record with its key. *)
Definition is_first_occurrence (pre : list A) (x : A) : bool :=
  match key x with
  | None => false
  | Some k => forallb (fun y => negb (bool_decide (key y = Some k))) pre
  end.

Fixpoint first_occurrences_after (pre l : list A) : list A :=
  match l with
  | [] => []
  | x :: r =>
    (if is_first_occurrence pre x then [x] else [])
      ++ first_occurrences_after (pre ++ [x]) r
  end.

Definition first_occurrences (l : list A) : list A :=
  first_occurrences_after [] l.

End FirstOccurrences.

(** The key of a product as [_deduplicate_products] uses it: none when the
    upper-cased, trimmed name is empty or a sentinel. *)
Definition product_dedup_key (p : Producto.t) : option pystr :=
  let nombre := product_name p in
  if bool_decide (nombre = []) || existsb (str_eqb nombre) invalid_names
  then None else Some (product_key p).

Definition result_dedup_key (v : ValidationResult) : option pystr :=
  let key := result_key v in
  if bool_decide (key = []) || str_eqb key (py "NULL") || str_eqb key (py "NONE")
  then None else Some key.

(** ** Specification predicates and sample data *)

(** The verdict symbol of a result agrees with its status, and a result
    without a catalog match carries no catalog data. *)
Definition coupled (r : ValidationResult) : Prop :=
  (validacion r = CHECK_MARK <-> status r = MATCH)
  /\ (validacion r = CROSS_MARK <-> status r = PRICE_DIFF)
  /\ (validacion r = WARNING_SIGN <-> (status r = NOT_FOUND \/ status r = NO_PRICE))
  /\ (status r = NOT_FOUND ->
        producto_sistema r = None /\ precio_sistema r = None
        /\ diferencia r = None /\ match_score r = None).

(** The verdict on a product of name [nombre] and price [precio] given the
    candidate it is compared with, if any. *)
Definition classify (tolerance : float) (nombre : pystr) (precio : option float)
    (candidate : option ProductMatch.t) : ValidationResult :=
  match candidate with
  | None =>
    mkValidationResult nombre precio None None WARNING_SIGN None NOT_FOUND None
  | Some c =>
    let cmp := _compare_prices tolerance precio (Some (ProductMatch.precio c)) in
    mkValidationResult nombre precio
      (Some (ProductMatch.nombre c)) (Some (ProductMatch.precio c))
      (Comparison.validacion cmp) (Comparison.diferencia cmp)
      (Comparison.status cmp) (Some (ProductMatch.score c))
  end.

(** The candidates are in descending order of similarity: each one scores at
    least as much as every candidate after it. *)
Definition descending (hits : list Hit.t) : Prop :=
  StronglySorted (fun a b => (Hit.score b <=? Hit.score a)%float = true) hits.

Definition sample_product (nombre : string) (precio : float) : Producto.t :=
  Producto.mk (Some (py nombre)) (Some precio) (JStr []) (JStr (py "General")) JNull.

Definition sample_hit (id nombre : string) (precio score : float) : Hit.t :=
  Hit.mk (py id)
    (Some (Payload.mk (Some (py nombre)) (Some precio) (Some (py "100"))
             None None None))
    score.

(** Sample capabilities. The embedding of a text is the text itself. *)
Definition sample_encode (text : pystr) : pystr := text.

(** A catalog with one entry for HARINA and nothing else. *)
Definition catalog_search (e : pystr) (store : option pystr) (limit : Z)
    (threshold : float) : res (list Hit.t) :=
  if str_eqb e (py "HARINA")
  then Ok [sample_hit "7" "HARINA" 20 0.9]
  else Ok [].

(** A search whose candidates for HARINA are not in descending order. *)
Definition unsorted_search (e : pystr) (store : option pystr) (limit : Z)
    (threshold : float) : res (list Hit.t) :=
  if str_eqb e (py "HARINA")
  then Ok [sample_hit "3" "HARINA ECONOMICA" 10 0.75;
           sample_hit "7" "HARINA" 20 0.9]
  else Ok [].

(** A search that answers for HARINA and fails for every other query. *)
Definition failing_search (e : pystr) (store : option pystr) (limit : Z)
    (threshold : float) : res (list Hit.t) :=
  if str_eqb e (py "HARINA")
  then Ok [sample_hit "7" "HARINA" 20 0.9]
  else Raise (CapabilityError (py "timed out")).

(** A record whose name collapses to a sentinel only once its white space
    runs are collapsed: two spaces between NO and VISIBLE. *)
Definition double_space_sentinel : Producto.t :=
  Producto.mk (Some (py "NO  VISIBLE")) None (JStr []) (JStr (py "General")) JNull.

(** The batch of the end-to-end example: HARINA at 20.0, ACEITE at 50.0. *)
Definition sample_batch : list Producto.t :=
  [sample_product "HARINA" 20; sample_product "ACEITE" 50].

(** A response cut in the middle of the key of its second product. *)
Definition truncated_response : pystr :=
  pyq "[{'categoria':'A','productos':[{'nombre':'X','precio':1.0},{'nombre':'Y','preci".

Definition harina_question : pystr :=
  py "¿Cuál es el precio de la Harina en la tienda 100?".


From Stdlib Require DecimalZ DecimalPos DecimalFacts Zpow_facts.

(** ** Further functions of the services *)

(** [s.split(sep)] for a separator of one character. *)
Fixpoint split_char (sep : N) (s : pystr) : list pystr :=
  match s with
  | [] => [[]]
  | c :: r =>
    if c =? sep then [] :: split_char sep r
    else match split_char sep r with
         | l :: ls => (c :: l) :: ls
         | [] => [[c]]
         end
  end.

(** *** slack_handler.py: [_split_message] and [_find_image_file] *)

(** The body of the loop of [_split_message]: the state is [parts] and
    [current]. *)
Definition split_message_step (max_length : Z) (st : list pystr * pystr)
    (line : pystr) : list pystr * pystr :=
  let '(parts, current) := st in
  if (max_length <? Z.of_nat (length current) + Z.of_nat (length line) + 1)%Z
  then (parts ++ [current], line)
  else (parts, match current with
               | [] => line
               | _ => current ++ [10] ++ line
               end).

Definition _split_message (message : pystr) (max_length : Z) : list pystr :=
  if (Z.of_nat (length message) <=? max_length)%Z then [message]
  else
    let '(parts, current) :=
      foldl (split_message_step max_length) ([], []) (split_char 10 message) in
    match current with
    | [] => parts
    | _ => parts ++ [current]
    end.

(** A file of a Slack message; a field is [None] when its key is missing. *)
Module SlackFile.
Record t : Type := mk {
  mimetype : option pystr;
  name : option pystr;
  url_private : option pystr
}.
End SlackFile.

Fixpoint _find_image_file (files : list SlackFile.t) : option SlackFile.t :=
  match files with
  | [] => None
  | f :: rest =>
    let mimetype := default [] (SlackFile.mimetype f) in
    if starts_with (py "image/") mimetype then Some f
    else _find_image_file rest
  end.

(** *** config.py: [get_allowed_users] *)

Definition get_allowed_users (ALLOWED_USER_IDS : pystr) : list pystr :=
  match ALLOWED_USER_IDS with
  | [] => []
  | _ =>
    map strip
      (List.filter (fun uid => negb (bool_decide (strip uid = [])))
                   (split_char 44 ALLOWED_USER_IDS))
  end.

(** *** embedding_service.py and qdrant_service.py: the search of one query *)

Section QdrantSingle.

Context {Embedding : Type}.
Variable encode : pystr -> Embedding.
(** The vector of zeros of the dimension of the model. *)
Variable zero_vector : Embedding.
Variable client_search :
  Embedding -> option pystr -> Z -> float -> res (list Hit.t).

Definition generate_embedding (text : pystr) : Embedding :=
  if bool_decide (text = []) || bool_decide (strip text = [])
  then zero_vector
  else encode (_normalize_text text).

Definition search_products (query : pystr) (tienda_id : option pystr)
    (limit : Z) (score_threshold : float) : res (list ProductMatch.t) :=
  let query_embedding := generate_embedding query in
  results ← client_search query_embedding (search_filter tienda_id)
              limit score_threshold;
  Ok (foldl (fun matches hit => matches ++ [match_of_hit hit]) [] results).

End QdrantSingle.

(** *** price_validator.py: [_log_summary] *)

(** [sum(1 for v in validaciones if v.status == s)] *)
Definition count_status (s : pystr) (validaciones : list ValidationResult) : nat :=
  length (List.filter (fun v => str_eqb (status v) s) validaciones).

(** The line that [_log_summary] logs. *)
Definition _log_summary (validaciones : list ValidationResult) : pystr :=
  let matches := count_status MATCH validaciones in
  let diffs := count_status PRICE_DIFF validaciones in
  let not_found := count_status NOT_FOUND validaciones in
  let no_price := count_status NO_PRICE validaciones in
  py "📊 Validation complete: "
  ++ py "✅ " ++ str_of_int (Z.of_nat matches) ++ py " correct | "
  ++ py "❌ " ++ str_of_int (Z.of_nat diffs) ++ py " price diff | "
  ++ py "⚠️ " ++ str_of_int (Z.of_nat not_found) ++ py " not found | "
  ++ py "❔ " ++ str_of_int (Z.of_nat no_price) ++ py " no price".

(** The non-empty lines of a text. *)
Definition nonempty_lines (s : pystr) : list pystr :=
  List.filter (fun l => negb (bool_decide (l = []))) (split_char 10 s).

(** The test that [_find_image_file] makes on a file. *)
Definition is_image (f : SlackFile.t) : bool :=
  starts_with (py "image/") (default [] (SlackFile.mimetype f)).

(** A search that returns the same candidate for every query, the blank
    one included. *)
Definition generous_search (e : pystr) (store : option pystr) (limit : Z)
    (threshold : float) : res (list Hit.t) :=
  Ok [sample_hit "7" "HARINA" 20 0.9].

(** A product dictionary without the key nombre. *)
Definition unnamed_product : Producto.t :=
  Producto.mk None (Some 20%float) (JStr []) (JStr (py "General")) JNull.


(** The text that [_parse_gemini_response] parses: the response without its
    code fence, trimmed. *)
Definition strip_fences (text : pystr) : pystr :=
  strip (re_sub false (Seqs [Star true Space; Str "```"; Eol]) []
           (re_sub false (Seqs [Bol; Str "```json"; Star true Space]) [] text)).

(** A record with a usable name: present, not empty, not NULL, trimmed. *)
Definition named (p : Producto.t) : Prop :=
  exists n, Producto.nombre p = Some n
            /\ n <> [] /\ n <> py "NULL" /\ strip n = n.

(** *** vision.py: the analysis of an image *)

(** [EXTRACTION_PROMPT], an apostrophe written for each double quote. *)
Definition EXTRACTION_PROMPT : pystr :=
  pyq "Analiza la imagen de un estante de un supermercado.
Tu tarea es:

1. Identificar los productos visibles en el estante (nombre del producto o marca cuando sea legible).
2. Clasificarlos por categorías (ej. analgésicos, antiácidos, electrolitos, lácteos, etc.).
3. Extraer los precios asociados a cada producto y relacionarlos correctamente.
4. Recorrer estante por estante producto por producto y no omitir ninguno.
5. Señalar si hay productos repetidos o en diferentes presentaciones.
6. Detectar espacios vacíos en el estante que indiquen productos agotados.

IMPORTANTE:
- Extrae el nombre del producto lo más completo posible incluyendo marca, variedad y tamaño.
- Los precios deben ser números decimales (ej: 25.50, no '$25.50').
- Si no puedes leer el precio, usa null.
- NO omitas ningún producto visible.

Retorna ÚNICAMENTE un JSON válido con la siguiente estructura (sin markdown, sin ```):
[
  {
    'categoria': 'Nombre de la categoría',
    'productos': [
      {
        'nombre': 'NOMBRE COMPLETO DEL PRODUCTO EN MAYÚSCULAS',
        'precio': 25.50,
        'presentacion': '500g o tamaño si aplica',
        'observaciones': 'espacio vacío, varias versiones, etc. o null'
      }
    ]
  }
]

Solo retorna el JSON puro, nada más.".

(** [_detect_mime_type] on the bytes of the image. *)
Definition _detect_mime_type (image_bytes : list N) : pystr :=
  if bool_decide (take 8 image_bytes = [137; 80; 78; 71; 13; 10; 26; 10])
  then py "image/png"
  else if bool_decide (take 2 image_bytes = [255; 216])
  then py "image/jpeg"
  else if bool_decide (take 6 image_bytes = py "GIF87a")
          || bool_decide (take 6 image_bytes = py "GIF89a")
  then py "image/gif"
  else if bool_decide (take 4 image_bytes = py "RIFF")
          && bool_decide (take 4 (drop 8 image_bytes) = py "WEBP")
  then py "image/webp"
  else py "image/jpeg".

(** The response of the generative model: its text, whose reading may
    raise, and its usage metadata when it has some, with the total token
    count when that is given. *)
Module GeminiResponse.
Record t : Type := mk {
  text : res pystr;
  usage_metadata : option (option Z)
}.
End GeminiResponse.

Section Analyze.

Variable py_repr : json -> pystr.
(** [model.generate_content] on the prompt and the image part (mime type
    and data), with the fixed safety settings and generation config. *)
Variable generate_content : pystr -> pystr -> list N -> res GeminiResponse.t.

Definition analyze_shelf_image (image_bytes : list N) : res (list Producto.t) :=
  let mime_type := _detect_mime_type image_bytes in
  response ← generate_content EXTRACTION_PROMPT mime_type image_bytes;
  text ← GeminiResponse.text response;
  let text := strip text in
  products ← _parse_gemini_response py_repr text;
  let products := _deduplicate_products products in
  Ok products.

Definition analyze_shelf_image_with_tokens (image_bytes : list N)
    : res (list Producto.t * Z) :=
  let mime_type := _detect_mime_type image_bytes in
  response ← generate_content EXTRACTION_PROMPT mime_type image_bytes;
  let tokens_used :=
    match GeminiResponse.usage_metadata response with
    | Some usage => default 0%Z usage
    | None => 0%Z
    end in
  text ← GeminiResponse.text response;
  let text := strip text in
  products ← _parse_gemini_response py_repr text;
  let products := _deduplicate_products products in
  Ok (products, tokens_used).

End Analyze.

(** A model that answers every image with two products outside of any JSON
    structure, the second with a blank name. *)
Definition sample_model (prompt mime_type : pystr) (data : list N)
    : res GeminiResponse.t :=
  Ok (GeminiResponse.mk
        (Ok (pyq " 'nombre': 'pan', 'precio': 12.5, 'nombre': ' ', 'precio': 1 "))
        (Some (Some 321%Z))).



(** The repetition loop of [rmatch], by itself. *)
Definition star_loop (ic greedy : bool) (r1 : regex)
    (k : mstate -> option mstate) : nat -> mstate -> option mstate :=
  fix loop (n : nat) (s0 : mstate) {struct n} : option mstate :=
    match n with
    | O => k s0
    | S n' =>
      let again :=
        rmatch ic r1 s0 (fun s1 =>
          if (length (after s1) <? length (after s0))%nat
          then loop n' s1 else None) in
      if greedy then or_else again (k s0) else or_else (k s0) again
    end.

(** A text with each run of white space replaced by one space; [in_run]
    tells that the character before was white space. *)
Fixpoint collapse_from (in_run : bool) (s : pystr) : pystr :=
  match s with
  | [] => []
  | c :: r =>
    if isspace c
    then (if in_run then collapse_from true r else 32 :: collapse_from true r)
    else c :: collapse_from false r
  end.

(** ** qdrant_service.py, continued: [add_products] *)

(** [range(start, stop, step)] for a step of at least one. *)
Fixpoint range_from (fuel i stop step : nat) : list nat :=
  match fuel with
  | O => []
  | S fuel' =>
    if (i <? stop)%nat then i :: range_from fuel' (i + step)%nat stop step
    else []
  end.

Definition py_range (start stop step : nat) : list nat :=
  range_from stop start stop step.

(** [l[i:j]] for [0 <= i <= j]. *)
Definition slice {A} (l : list A) (i j : nat) : list A :=
  take (j - i)%nat (drop i l).

(** A point of the collection. The payload has the six product keys and
    ["file_id"]. *)
Module PointStruct.
Record t (V : Type) : Type := mk {
  id : pystr;
  vector : V;
  payload : Payload.t;
  file_id : pystr
}.
Arguments mk {V}.
Arguments id {V}.
Arguments vector {V}.
Arguments payload {V}.
Arguments file_id {V}.
End PointStruct.

Definition batch_size : nat := 100%nat.

(** [f'{file_id}_{i}'] *)
Definition point_id (file_id : pystr) (i : nat) : pystr :=
  file_id ++ py "_" ++ str_of_int (Z.of_nat i).

Section AddProducts.

(** The embedding model and the upsert of a batch of points, which may
    fail. A product dictionary is a [Payload.t]: the name and the store are
    strings and the price is a float where they are present, so that
    [float] and [str] leave them as they are. *)
Context {Embedding : Type}.
Variable encode : pystr -> Embedding.
Variable client_upsert : list (PointStruct.t Embedding) -> res unit.

(** The body of the loop that creates the points. *)
Definition make_point (file_id : pystr) (i : nat)
    (pe : Payload.t * Embedding) : PointStruct.t Embedding :=
  let product := pe.1 in
  let payload :=
    Payload.mk (Some (default [] (Payload.nombre product)))
               (Some (default 0%float (Payload.precio product)))
               (Some (default [] (Payload.tienda_id product)))
               (Payload.codigo product) (Payload.categoria product)
               (Payload.presentacion product) in
  PointStruct.mk (point_id file_id i) pe.2 payload file_id.

(** The upsert loop: the batches upserted so far, and whether the loop came
    to its end. *)
Fixpoint upsert_batches (points : list (PointStruct.t Embedding))
    (starts : list nat) (upserted : list (list (PointStruct.t Embedding)))
    : list (list (PointStruct.t Embedding)) * res unit :=
  match starts with
  | [] => (upserted, Ok tt)
  | i :: later =>
    let batch := slice points i (i + batch_size)%nat in
    match client_upsert batch with
    | Ok _ => upsert_batches points later (upserted ++ [batch])
    | Raise e => (upserted, Raise e)
    end
  end.

(** [add_products]: the batches that were upserted, in order, and the
    returned count or the exception. *)
Definition add_products (products : list Payload.t) (file_id : pystr)
    : list (list (PointStruct.t Embedding)) * res Z :=
  match products with
  | [] => ([], Ok 0%Z)
  | _ =>
    let names := map (fun p => default [] (Payload.nombre p)) products in
    let embeddings := generate_embeddings_batch encode names in
    let points := imap (make_point file_id) (zip products embeddings) in
    let out :=
      upsert_batches points (py_range 0 (length points) batch_size) [] in
    (out.1, _ ← out.2; Ok (Z.of_nat (length points)))
  end.

End AddProducts.

(** ** Formatting *)

(** [f'{s:<w}'] and [f'{s:>w}']: padding with spaces up to the width [w];
    a longer text is left whole. *)
Definition ljust (w : nat) (s : pystr) : pystr :=
  s ++ replicate (w - length s)%nat 32.

Definition rjust (w : nat) (s : pystr) : pystr :=
  replicate (w - length s)%nat 32 ++ s.

(** The quotient [num / den] rounded to the nearest integer, a tie to the
    even one. *)
Definition round_half_even (num den : Z) : Z :=
  let q := (num / den)%Z in
  let r := (num mod den)%Z in
  if (2 * r <? den)%Z then q
  else if (den <? 2 * r)%Z then (q + 1)%Z
  else if Z.even q then q else (q + 1)%Z.

(** [m * 2^e * 10^prec], rounded. *)
Definition scaled (m : positive) (e : Z) (prec : nat) : Z :=
  let num := (Z.pos m * 10 ^ Z.of_nat prec)%Z in
  if (0 <=? e)%Z then (num * 2 ^ e)%Z
  else round_half_even num (2 ^ (- e))%Z.

(** The digits of [q / 10^prec] with [prec] decimals. *)
Definition fixed_digits (q : Z) (prec : nat) : pystr :=
  let p10 := (10 ^ Z.of_nat prec)%Z in
  str_of_int (q / p10)
  ++ match prec with
     | O => []
     | _ =>
       let frac := str_of_int (q mod p10) in
       46 :: replicate (prec - length frac)%nat 48 ++ frac
     end.

Definition sign_text (negative : bool) : pystr :=
  if negative then [45] else [].

(** [f'{x:.{prec}f}'] for a float: the exact value of [x], rounded to
    [prec] decimals. *)
Definition format_f (prec : nat) (x : float) : pystr :=
  match Prim2SF x with
  | S754_nan => py "nan"
  | S754_infinity s => sign_text s ++ py "inf"
  | S754_zero s => sign_text s ++ fixed_digits 0 prec
  | S754_finite s m e => sign_text s ++ fixed_digits (scaled m e prec) prec
  end.


(** ** price_validator.py: [format_results_for_slack] *)

(** [v.producto_sistema if v.producto_sistema else v.producto_imagen] *)
Definition display_name (v : ValidationResult) : pystr :=
  match producto_sistema v with
  | Some (c :: s) => c :: s
  | _ => producto_imagen v
  end.

(** [nombre[:44] if len(nombre) > 44 else nombre] *)
Definition cut_name (nombre : pystr) : pystr :=
  if (44 <? length nombre)%nat then take 44 nombre else nombre.

Definition price_text (precio : option float) : pystr :=
  match precio with
  | Some x => py "$" ++ format_f 2 x
  | None => py "N/A"
  end.

Definition result_row (i : nat) (v : ValidationResult) : pystr :=
  ljust 4 (str_of_int (Z.of_nat i)) ++ py " "
  ++ ljust 45 (cut_name (display_name v)) ++ py " "
  ++ rjust 12 (price_text (precio_imagen v)) ++ py " "
  ++ rjust 15 (price_text (precio_sistema v)) ++ py " "
  ++ rjust 11 (validacion v).

Definition results_header : pystr :=
  ljust 4 (py "#") ++ py " " ++ ljust 45 (py "PRODUCTO") ++ py " "
  ++ rjust 12 (py "PRECIO FOTO") ++ py " "
  ++ rjust 15 (py "PRECIO SISTEMA") ++ py " "
  ++ rjust 11 (py "VALIDACION").

Definition results_summary (validaciones : list ValidationResult) : pystr :=
  let matches := count_status MATCH validaciones in
  let diffs := count_status PRICE_DIFF validaciones in
  let not_found :=
    length (List.filter
              (fun v => str_eqb (status v) NOT_FOUND
                        || str_eqb (status v) NO_PRICE) validaciones) in
  let total := length validaciones in
  (py "*Resumen:* ✅ ") ++ str_of_int (Z.of_nat matches)
  ++ (py " correctos | ❌ ") ++ str_of_int (Z.of_nat diffs)
  ++ (py " con diferencia | ⚠️ ") ++ str_of_int (Z.of_nat not_found)
  ++ (py " no encontrados | Total: ") ++ str_of_int (Z.of_nat total)
  ++ (py " productos").

Definition format_results_for_slack (validaciones : list ValidationResult)
    (tienda_id : Z) : pystr :=
  match validaciones with
  | [] => (py "⚠️ No se encontraron productos en la imagen.")
  | _ =>
    let validaciones := _deduplicate_results validaciones in
    match validaciones with
    | [] => (py "⚠️ No se encontraron productos válidos en la imagen.")
    | _ =>
      let lines :=
        [ (py "*Resultados de validación - Tienda ") ++ str_of_int tienda_id ++ (py "*");
          [];
          py "```";
          results_header;
          str_repeat (py "-") 92 ] in
      let lines := lines ++ imap (fun i v => result_row (S i) v) validaciones in
      let lines := lines ++ [py "```"] in
      let lines := lines ++ [[]] in
      let lines := lines ++ [results_summary validaciones] in
      join [10] lines
    end
  end.

(** ** slack_handler.py: the two handlers *)




(** The messages of the handlers. *)
Definition analyzing_message (tienda_id : Z) : pystr :=
  (py "🔍 Analizando imagen para *Tienda ") ++ str_of_int tienda_id ++ (py "*... Por favor espera.").

Definition identified_message (productos : nat) : pystr :=
  (py "📦 Se identificaron *") ++ str_of_int (Z.of_nat productos) ++ (py "* productos. Validando precios...").

(** [str(e)[:200]] after the fixed words *)
Definition image_error_message (error : pystr) : pystr :=
  (py "❌ Error al analizar la imagen: ") ++ take 200 error.




(** The two fixed answers of [_handle_image_analysis]. *)
Definition store_missing_message : pystr :=
  py "⚠️ *Por favor incluye el número de tienda en tu mensaje.*

Ejemplos:
• `Tienda 810`
• `tienda: 810`
• `#810`
• O simplemente el número `810` junto con la imagen".

Definition no_products_message : pystr :=
  py "⚠️ No se pudieron identificar productos en la imagen.
Asegúrate de que la imagen muestre claramente los productos y precios.".

(** What a handler does to the outside, in order: the messages it says, the
    reactions it adds and removes on the message it handles, and the calls
    of the services. *)
Inductive action : Type :=
| Say (text : pystr)
| AddReaction (name : pystr)
| RemoveReaction (name : pystr)
| Download (url : pystr)
| Analyze (image_bytes : list N)
| Validate (productos : list Producto.t) (tienda_id : Z)
| SearchProducts (query tienda_id : pystr) (limit : Z) (score_threshold : float).

(** The exceptions of a handler: those of the services, and the
    [ValueError] it raises itself. *)
Inductive handler_exn : Type :=
| Raised (e : exn)
| ValueError (msg : pystr).

Inductive outcome (A : Type) : Type :=
| Done (a : A)
| Failed (e : handler_exn).
Arguments Done {A}.
Arguments Failed {A}.

(** A handler goes from the actions done so far to the actions done when it
    ends, with its result or the exception that leaves it. *)
Definition handler (A : Type) : Type := list action -> list action * outcome A.

Definition h_ret {A} (a : A) : handler A := fun t => (t, Done a).

Definition h_bind {A B} (m : handler A) (f : A -> handler B) : handler B :=
  fun t =>
    match m t with
    | (t1, Done a) => f a t1
    | (t1, Failed e) => (t1, Failed e)
    end.

Definition h_raise {A} (e : handler_exn) : handler A := fun t => (t, Failed e).

(** [try: body except Exception as e: handle(e)] *)
Definition try_except {A} (body : handler A) (handle : handler_exn -> handler A)
    : handler A :=
  fun t =>
    match body t with
    | (t1, Done a) => (t1, Done a)
    | (t1, Failed e) => handle e t1
    end.

(** A call of a service: the call is recorded, the answer is the
    service's. *)
Definition h_call {A} (a : action) (answer : res A) : handler A :=
  fun t =>
    (t ++ [a], match answer with
               | Ok x => Done x
               | Raise e => Failed (Raised e)
               end).

#[global] Instance handler_ret : MRet handler := @h_ret.
#[global] Instance handler_bind : MBind handler :=
  fun A B f m => h_bind m f.



Definition said (t : list action) : list pystr :=
  omap (fun a => match a with Say text => Some text | _ => None end) t.




(** Sample capabilities: a Slack that takes every message, a download that
    gives an empty file, and the message of an image. *)
Definition sample_say (t : list action) (text : pystr) : res unit := Ok tt.
Definition sample_exn_text (e : exn) : pystr := py "error".
Definition sample_download (url : pystr) : res (list N) := Ok [].
Definition sample_image : SlackFile.t :=
  SlackFile.mk (Some (py "image/png")) (Some (py "estante.png"))
    (Some (py "https://files.slack.com/estante.png")).

Section SlackHandler.

(** Slack: [say] may fail, and whether it does may depend on what was done
    before. The text of an exception, [str(e)]. *)
Variable slack_say : list action -> pystr -> res unit.
Variable exn_text : exn -> pystr.

(** The services: the download of a private file with the bot token, the
    vision model, the embedding model and the index. *)
Variable download_image_from_slack : pystr -> res (list N).
Variable py_repr : json -> pystr.
Variable generate_content : pystr -> pystr -> list N -> res GeminiResponse.t.
Context {Embedding : Type}.
Variable encode : pystr -> Embedding.
Variable zero_vector : Embedding.
Variable client_search :
  Embedding -> option pystr -> Z -> float -> res (list Hit.t).

(** The settings of the validator. *)
Variable tolerance : float.
Variable search_limit : Z.
Variable similarity_threshold : float.

Definition say (text : pystr) : handler unit :=
  fun t => h_call (Say text) (slack_say t text) t.

(** [_add_reaction] and [_remove_reaction] swallow the exceptions of the
    client. *)
Definition _add_reaction (reaction : pystr) : handler unit :=
  fun t => (t ++ [AddReaction reaction], Done tt).

Definition _remove_reaction (reaction : pystr) : handler unit :=
  fun t => (t ++ [RemoveReaction reaction], Done tt).

(** [str(e)] *)
Definition str_exn (e : handler_exn) : pystr :=
  match e with
  | Raised e => exn_text e
  | ValueError msg => msg
  end.

(** [for part in parts: await say(part)] *)
Fixpoint say_all (parts : list pystr) : handler unit :=
  match parts with
  | [] => h_ret tt
  | part :: later => say part ;; say_all later
  end.

Definition _handle_image_analysis (image_file : SlackFile.t) (text : pystr)
    : handler unit :=
  let tienda_id := _extract_tienda_id text in
  if negb (truthy_int tienda_id) then say store_missing_message
  else
    let tienda_id := default 0%Z tienda_id in
    _add_reaction (py "eyes") ;;
    try_except
      (say (analyzing_message tienda_id) ;;
       image_url ←
         match SlackFile.url_private image_file with
         | Some (c :: url) => h_ret (c :: url)
         | _ => h_raise (ValueError (py "No se pudo obtener URL de la imagen"))
         end;
       image_bytes ←
         h_call (Download image_url) (download_image_from_slack image_url);
       analysis ←
         h_call (Analyze image_bytes)
           (analyze_shelf_image_with_tokens py_repr generate_content
              image_bytes);
       let productos := analysis.1 in
       match productos with
       | [] =>
         _remove_reaction (py "eyes") ;;
         _add_reaction (py "warning") ;;
         say no_products_message
       | _ =>
         say (identified_message (length productos)) ;;
         validaciones ←
           h_call (Validate productos tienda_id)
             (validate_products tolerance search_limit similarity_threshold
                encode client_search productos tienda_id);
         _remove_reaction (py "eyes") ;;
         _add_reaction (py "white_check_mark") ;;
         let resultado := format_results_for_slack validaciones tienda_id in
         if (3900 <? length resultado)%nat
         then say_all (_split_message resultado 3900)
         else say resultado
       end)
      (fun e =>
         _remove_reaction (py "eyes") ;;
         _add_reaction (py "x") ;;
         say (image_error_message (str_exn e))).


End SlackHandler.

(** * Properties *)

Local Close Scope N_scope.

(** ** Loops *)

Lemma foldl_snoc_map {A B} (f : A -> B) (l : list A) (acc : list B) :
  foldl (fun ys x => ys ++ [f x]) acc l = acc ++ map f l.
Proof.
  revert acc. induction l as [|x l IH]; intros acc; simpl.
  - by rewrite app_nil_r.
  - rewrite IH. by rewrite <- app_assoc.
Qed.

Lemma lookup_map {A B} (f : A -> B) (l : list A) (i : nat) :
  map f l !! i = f <$> (l !! i).
Proof. revert i. induction l as [|x l IH]; intros [|i]; simpl; auto. Qed.

(** ** Deduplication *)

Section FirstOccurrencesFacts.

Context {A : Type} (key : A -> option pystr).

Lemma dedup_fold_keep_new (l : list A) (seen : gset pystr) (acc : list A) :
  (foldl (dedup_step key) (seen, acc) l).2 = acc ++ keep_new key seen l.
Proof.
  revert seen acc. induction l as [|x l IH]; intros seen acc; simpl.
  - by rewrite app_nil_r.
  - unfold dedup_step at 2. simpl. destruct (key x) as [k|]; [|apply IH].
    case_bool_decide; [apply IH|].
    rewrite IH. by rewrite <- app_assoc.
Qed.

Lemma keep_new_sublist (l : list A) (seen : gset pystr) :
  sublist (keep_new key seen l) l.
Proof.
  revert seen. induction l as [|x l IH]; intros seen; simpl.
  - constructor.
  - destruct (key x) as [k|]; [|by apply sublist_cons].
    case_bool_decide; [by apply sublist_cons | by apply sublist_skip].
Qed.

Lemma keep_new_fresh (l : list A) (seen : gset pystr) (x : A) :
  x ∈ keep_new key seen l -> exists k, key x = Some k /\ k ∉ seen.
Proof.
  revert seen. induction l as [|y l IH]; intros seen; simpl.
  - by intros ?%elem_of_nil.
  - destruct (key y) as [k|] eqn:Hk; [|apply IH].
    case_bool_decide as Hin; [apply IH|].
    intros [->|Hx]%elem_of_cons; [eauto|].
    destruct (IH _ Hx) as (k' & Hk' & Hfresh).
    exists k'. split; [done|set_solver].
Qed.

(** Deduplicating what is already deduplicated changes nothing. *)
Lemma keep_new_idempotent (l : list A) (seen : gset pystr) :
  keep_new key seen (keep_new key seen l) = keep_new key seen l.
Proof.
  revert seen. induction l as [|x l IH]; intros seen; simpl; [done|].
  destruct (key x) as [k|] eqn:Hk; [|apply IH].
  case_bool_decide as Hin; [apply IH|].
  simpl. rewrite Hk. rewrite bool_decide_eq_false_2 by done.
  by rewrite IH.
Qed.

(** [seen] holds exactly the keys of the records of [pre]. *)
Definition keys_of (pre : list A) (seen : gset pystr) : Prop :=
  forall k, k ∈ seen <-> exists y, y ∈ pre /\ key y = Some k.

Lemma is_first_occurrence_keys (pre : list A) (seen : gset pystr) (x : A) (k : pystr) :
  keys_of pre seen -> key x = Some k ->
  is_first_occurrence key pre x = negb (bool_decide (k ∈ seen)).
Proof.
  intros Hkeys Hk. unfold is_first_occurrence. rewrite Hk.
  case_bool_decide as Hin; simpl.
  - apply Hkeys in Hin as (y & Hy & Hyk).
    apply not_true_is_false. intros Hall.
    rewrite forallb_forall in Hall.
    apply list_elem_of_In, Hall in Hy.
    by rewrite bool_decide_eq_true_2 in Hy.
  - apply forallb_forall. intros y Hy%list_elem_of_In.
    apply negb_true_iff, bool_decide_eq_false_2.
    intros Hyk. apply Hin, Hkeys. eauto.
Qed.

Lemma keys_of_snoc_none pre seen x :
  keys_of pre seen -> key x = None -> keys_of (pre ++ [x]) seen.
Proof.
  unfold keys_of. intros Hkeys Hx k. rewrite Hkeys. split.
  - intros (y & Hy & Hyk). exists y. split; [|done]. apply elem_of_app. by left.
  - intros (y & [Hy|Hy%list_elem_of_singleton]%elem_of_app & Hyk); [eauto|].
    congruence.
Qed.

Lemma keys_of_snoc_seen pre seen x k :
  keys_of pre seen -> key x = Some k -> k ∈ seen -> keys_of (pre ++ [x]) seen.
Proof.
  unfold keys_of. intros Hkeys Hx Hin k'. rewrite Hkeys. split.
  - intros (y & Hy & Hyk). exists y. split; [|done]. apply elem_of_app. by left.
  - intros (y & [Hy|Hy%list_elem_of_singleton]%elem_of_app & Hyk); [eauto|].
    subst y. apply Hkeys. congruence.
Qed.

Lemma keys_of_snoc_new pre seen x k :
  keys_of pre seen -> key x = Some k -> keys_of (pre ++ [x]) ({[k]} ∪ seen).
Proof.
  unfold keys_of. intros Hkeys Hx k'.
  rewrite elem_of_union, elem_of_singleton, Hkeys. split.
  - intros [->|(y & Hy & Hyk)].
    + exists x. split; [|done]. apply elem_of_app. right. by apply list_elem_of_singleton.
    + exists y. split; [|done]. apply elem_of_app. by left.
  - intros (y & [Hy|Hy%list_elem_of_singleton]%elem_of_app & Hyk); [eauto|].
    left. congruence.
Qed.

Lemma keep_new_first_occurrences (l pre : list A) (seen : gset pystr) :
  keys_of pre seen -> keep_new key seen l = first_occurrences_after key pre l.
Proof.
  revert pre seen. induction l as [|x l IH]; intros pre seen Hkeys; simpl; [done|].
  destruct (key x) as [k|] eqn:Hk.
  - rewrite (is_first_occurrence_keys pre seen x k) by done.
    case_bool_decide as Hin; simpl.
    + by apply IH, (keys_of_snoc_seen _ _ _ k).
    + f_equal. by apply IH, keys_of_snoc_new.
  - unfold is_first_occurrence at 1. rewrite Hk. simpl.
    by apply IH, keys_of_snoc_none.
Qed.

Lemma keys_of_nil : keys_of [] ∅.
Proof. intros k. split; [set_solver|]. by intros (y & ?%elem_of_nil & _). Qed.

End FirstOccurrencesFacts.

Lemma foldl_pointwise {A B} (f g : B -> A -> B) (l : list A) (b : B) :
  (forall b x, f b x = g b x) -> foldl f b l = foldl g b l.
Proof.
  intros Hfg. revert b. induction l as [|x l IH]; intros b; simpl; [done|].
  by rewrite Hfg, IH.
Qed.

Lemma dedup_products_step_spec st p :
  dedup_products_step st p = dedup_step product_dedup_key st p.
Proof.
  unfold dedup_products_step, dedup_step, product_dedup_key, product_key.
  by destruct (bool_decide (product_name p = []) || _).
Qed.

Lemma dedup_results_step_spec st v :
  dedup_results_step st v = dedup_step result_dedup_key st v.
Proof.
  unfold dedup_results_step, dedup_step, result_dedup_key.
  by destruct (bool_decide (result_key v = []) || _ || _).
Qed.

Lemma deduplicate_products_keep_new products :
  _deduplicate_products products = keep_new product_dedup_key ∅ products.
Proof.
  unfold _deduplicate_products.
  rewrite (foldl_pointwise _ _ _ _ dedup_products_step_spec).
  by rewrite dedup_fold_keep_new.
Qed.

Lemma deduplicate_results_keep_new validaciones :
  _deduplicate_results validaciones = keep_new result_dedup_key ∅ validaciones.
Proof.
  unfold _deduplicate_results.
  rewrite (foldl_pointwise _ _ _ _ dedup_results_step_spec).
  by rewrite dedup_fold_keep_new.
Qed.

(** C5. Deduplication is idempotent: applying [_deduplicate_products] to its
    own result gives that result again, for every list of records, and so
    does [_deduplicate_results] on every list of validation results. *)
Theorem deduplication_idempotent :
  (forall X : list Producto.t,
     _deduplicate_products (_deduplicate_products X) = _deduplicate_products X)
  /\ (forall V : list ValidationResult,
        _deduplicate_results (_deduplicate_results V) = _deduplicate_results V).
Proof.
  split.
  - intros X. rewrite !deduplicate_products_keep_new. apply keep_new_idempotent.
  - intros V. rewrite !deduplicate_results_keep_new. apply keep_new_idempotent.
Qed.

(** C6, as stated, fails: the canonical name of this record (upper case,
    trimmed, white space runs collapsed) is the sentinel NO VISIBLE, and
    deduplication keeps the record. *)
Lemma deduplicate_keeps_collapsed_sentinel :
  product_key double_space_sentinel = py "NO VISIBLE"
  /\ existsb (str_eqb (product_key double_space_sentinel)) invalid_names = true
  /\ _deduplicate_products [double_space_sentinel] = [double_space_sentinel].
Proof. vm_compute. done. Qed.

(** C6, amended. For every list of records, [_deduplicate_products] drops
    the records whose upper-cased, trimmed name (white space runs not yet
    collapsed) is empty or one of NULL, NONE, NO VISIBLE, NO LEGIBLE; among
    the others it keeps exactly the first record of each canonical name
    (upper case, trimmed, white space runs collapsed to one space); the
    result is a subsequence of the input, so it is no longer than the input
    and keeps the order of the first occurrences. *)
Theorem deduplicate_products_first_occurrences (products : list Producto.t) :
  _deduplicate_products products = first_occurrences product_dedup_key products
  /\ sublist (_deduplicate_products products) products
  /\ length (_deduplicate_products products) <= length products.
Proof.
  rewrite deduplicate_products_keep_new. split; [|split].
  - apply keep_new_first_occurrences, keys_of_nil.
  - apply keep_new_sublist.
  - apply sublist_length, keep_new_sublist.
Qed.

(** ** Price comparison *)

Lemma statuses_distinct :
  MATCH <> PRICE_DIFF /\ MATCH <> NOT_FOUND /\ MATCH <> NO_PRICE
  /\ PRICE_DIFF <> NOT_FOUND /\ PRICE_DIFF <> NO_PRICE /\ NOT_FOUND <> NO_PRICE.
Proof. by vm_compute. Qed.

Lemma symbols_distinct :
  CHECK_MARK <> CROSS_MARK /\ CHECK_MARK <> WARNING_SIGN
  /\ CROSS_MARK <> WARNING_SIGN.
Proof. by vm_compute. Qed.

(** C1. The classification of a pair of prices is determined: NO_PRICE when
    either price is missing; else the difference is the catalog price minus
    the price read, and the status is MATCH or PRICE_DIFF: for a catalog
    price equal to 0, MATCH exactly when the price read equals 0; otherwise
    MATCH exactly when |read - catalog| / catalog <= tolerance. At the
    default tolerance of 5 percent, 105 against 100 is MATCH and 105.01
    against 100 is PRICE_DIFF. *)
Theorem compare_prices_determined (tolerance : float) :
  (forall precio_sistema,
     Comparison.status (_compare_prices tolerance None precio_sistema) = NO_PRICE)
  /\ (forall precio_imagen,
        Comparison.status (_compare_prices tolerance precio_imagen None) = NO_PRICE)
  /\ (forall a b : float,
        let r := _compare_prices tolerance (Some a) (Some b) in
        Comparison.diferencia r = Some (b - a)%float
        /\ (Comparison.status r = MATCH \/ Comparison.status r = PRICE_DIFF)
        /\ (Comparison.status r = MATCH <->
              if (b =? 0)%float then (a =? 0)%float = true
              else (PrimFloat.abs (a - b) / b <=? tolerance)%float = true))
  /\ Comparison.status
       (_compare_prices (PRICE_TOLERANCE_PERCENT / 100) (Some 105%float) (Some 100%float))
     = MATCH
  /\ Comparison.status
       (_compare_prices (PRICE_TOLERANCE_PERCENT / 100) (Some 105.01%float) (Some 100%float))
     = PRICE_DIFF.
Proof.
  destruct statuses_distinct as (Hmd & _).
  split; [done|]. split; [by intros [?|]|]. split; [|by vm_compute].
  intros a b. unfold _compare_prices, _prices_match. simpl.
  destruct (b =? 0)%float.
  - destruct (a =? 0)%float; simpl; repeat split; auto; try done;
      intros ?; by destruct Hmd.
  - destruct (PrimFloat.abs (a - b) / b <=? tolerance)%float; simpl;
      repeat split; auto; try done; intros ?; by destruct Hmd.
Qed.

(** ** Validation of a batch *)

Section ValidateProducts.

Context {Embedding : Type}.
Variable tolerance : float.
Variable search_limit : Z.
Variable similarity_threshold : float.
Variable encode : pystr -> Embedding.
Variable client_search :
  Embedding -> option pystr -> Z -> float -> res (list Hit.t).
Variable tienda_id : Z.

(** The search that [search_products_batch] runs for the query [q]. *)
Let search (q : pystr) : res (list Hit.t) :=
  client_search (encode (_normalize_text q))
    (search_filter (Some (str_of_int tienda_id)))
    search_limit similarity_threshold.

Let step := search_one client_search (Some (str_of_int tienda_id))
              search_limit similarity_threshold.

Lemma generate_embeddings_batch_map (qs : list pystr) :
  generate_embeddings_batch encode qs = map encode (map _normalize_text qs).
Proof. by destruct qs. Qed.

Lemma zip_embeddings (qs : list pystr) :
  zip qs (map encode (map _normalize_text qs))
  = map (fun q => (q, encode (_normalize_text q))) qs.
Proof. induction qs as [|q qs IH]; simpl; [done|]. by rewrite IH. Qed.

Lemma step_ok (q : pystr) (m : gmap pystr (list ProductMatch.t)) hits :
  search q = Ok hits ->
  step m (q, encode (_normalize_text q)) = Ok (<[q := map match_of_hit hits]> m).
Proof.
  unfold step, search_one, search. cbn [fst snd]. intros ->.
  cbn [mbind res_bind]. by rewrite foldl_snoc_map.
Qed.

Lemma step_raise (q : pystr) (m : gmap pystr (list ProductMatch.t)) e :
  search q = Raise e -> step m (q, encode (_normalize_text q)) = Raise e.
Proof. unfold step, search_one, search. cbn [fst snd]. by intros ->. Qed.

Lemma search_batch_ok (qs : list pystr) (m0 : gmap pystr (list ProductMatch.t)) :
  (forall q, q ∈ qs -> exists hits, search q = Ok hits) ->
  exists m,
    foldlM step m0 (map (fun q => (q, encode (_normalize_text q))) qs) = Ok m
    /\ (forall q, q ∈ qs ->
          exists hits, search q = Ok hits /\ m !! q = Some (map match_of_hit hits))
    /\ (forall q, q ∉ qs -> m !! q = m0 !! q).
Proof.
  revert m0. induction qs as [|q qs IH]; intros m0 Hall.
  - exists m0. split; [done|]. split; [|done]. by intros q ?%elem_of_nil.
  - destruct (Hall q) as [hits Hq]; [by left|].
    cbn [map foldlM]. rewrite (step_ok _ _ _ Hq). cbn [mbind res_bind].
    destruct (IH (<[q := map match_of_hit hits]> m0)) as (m & Hm & Hin & Hout).
    { intros q' Hq'. apply Hall. by right. }
    exists m. split; [exact Hm|]. split.
    + intros q' Hq'. destruct (decide (q' ∈ qs)) as [Hr|Hr]; [by apply Hin|].
      apply elem_of_cons in Hq' as [->|?]; [|done].
      exists hits. split; [done|]. rewrite Hout by done.
      apply lookup_insert_eq.
    + intros q' Hq'. apply not_elem_of_cons in Hq' as [Hne Hr].
      rewrite Hout by done. by apply lookup_insert_ne.
Qed.

Lemma search_batch_raises (qs : list pystr) (m0 : gmap pystr (list ProductMatch.t))
    (q : pystr) (e : exn) :
  q ∈ qs -> search q = Raise e ->
  exists e', foldlM step m0 (map (fun q => (q, encode (_normalize_text q))) qs)
             = Raise e'.
Proof.
  revert m0. induction qs as [|q0 qs IH]; intros m0 Hin Hq.
  - by apply elem_of_nil in Hin.
  - cbn [map foldlM].
    destruct (search q0) as [hits|e0] eqn:Hq0.
    + rewrite (step_ok _ _ _ Hq0). cbn [mbind res_bind].
      apply elem_of_cons in Hin as [->|Hin]; [congruence|].
      by apply IH.
    + rewrite (step_raise _ _ _ Hq0). cbn [mbind res_bind]. by eauto.
Qed.

Lemma elem_of_queries (productos : list Producto.t) (q : pystr) :
  q ∈ map (fun p => default [] (Producto.nombre p)) productos <->
  exists p, p ∈ productos /\ q = default [] (Producto.nombre p).
Proof.
  rewrite list_elem_of_In, in_map_iff. split.
  - intros (p & <- & Hp%list_elem_of_In). eauto.
  - intros (p & Hp%list_elem_of_In & ->). eauto.
Qed.

(** C2, amended. When the search succeeds for the name of every product,
    [validate_products] returns one result per product, in the order of the
    products; the result of a product with a name is NOT_FOUND when the
    search returned no candidate for that name, and otherwise the verdict
    against the first candidate of the returned list, whatever the
    similarity scores of the candidates after it. The first candidate has
    the highest score when the list comes in descending order. *)
Theorem validate_products_first_candidate (productos : list Producto.t) :
  (forall p, p ∈ productos ->
     exists hits, search (default [] (Producto.nombre p)) = Ok hits) ->
  exists results,
    validate_products tolerance search_limit similarity_threshold
      encode client_search productos tienda_id = Ok results
    /\ length results = length productos
    /\ (forall i p nombre,
          productos !! i = Some p -> Producto.nombre p = Some nombre ->
          exists hits,
            search nombre = Ok hits
            /\ results !! i =
                 Some (classify tolerance nombre (Producto.precio p)
                         (head (map match_of_hit hits)))
            /\ (forall best rest,
                  hits = best :: rest -> descending hits ->
                  Forall (fun h => (Hit.score h <=? Hit.score best)%float = true)
                         rest)).
Proof.
  intros Hall. unfold validate_products, search_products_batch.
  rewrite generate_embeddings_batch_map, zip_embeddings.
  destruct (search_batch_ok (map (fun p => default [] (Producto.nombre p)) productos) ∅)
    as (m & Hm & Hin & _).
  { intros q (p & Hp & ->)%elem_of_queries. by apply Hall. }
  fold step. rewrite Hm. cbn [mbind res_bind]. rewrite foldl_snoc_map.
  rewrite app_nil_l.
  eexists. split; [done|]. split; [by rewrite length_map|].
  intros i p nombre Hi Hn.
  destruct (Hin nombre) as (hits & Hs & Hl).
  { apply elem_of_queries. exists p. rewrite Hn. split; [|done].
    by eapply list_elem_of_lookup_2. }
  exists hits. split; [done|]. split.
  - rewrite lookup_map, Hi. simpl. f_equal.
    unfold validate_product. rewrite Hn. simpl. rewrite Hl. simpl.
    by destruct hits.
  - intros best rest -> Hsorted. by apply StronglySorted_inv in Hsorted as [_ ?].
Qed.

(** C8, amended. When the search fails for the query of one product of the
    batch, [validate_products] returns no result at all: it raises. *)
Theorem validate_products_aborts_on_failure (productos : list Producto.t)
    (p : Producto.t) (e : exn) :
  p ∈ productos ->
  search (default [] (Producto.nombre p)) = Raise e ->
  exists e',
    validate_products tolerance search_limit similarity_threshold
      encode client_search productos tienda_id = Raise e'.
Proof.
  intros Hp He. unfold validate_products, search_products_batch.
  rewrite generate_embeddings_batch_map, zip_embeddings.
  destruct (search_batch_raises
              (map (fun p => default [] (Producto.nombre p)) productos) ∅
              (default [] (Producto.nombre p)) e)
    as [e' He']; [|exact He|].
  { apply elem_of_queries. by exists p. }
  fold step. rewrite He'. by exists e'.
Qed.

Lemma validate_product_coupled (search_results : gmap pystr (list ProductMatch.t))
    (producto : Producto.t) :
  coupled (validate_product tolerance search_results producto).
Proof.
  destruct statuses_distinct as (H1 & H2 & H3 & H4 & H5 & H6).
  destruct symbols_distinct as (S1 & S2 & S3).
  unfold validate_product, coupled.
  destruct (default [] _) as [|best rest]; simpl.
  { repeat split; auto; intros; try done; try by intuition. }
  unfold _compare_prices.
  destruct (Producto.precio producto) as [precio|]; simpl.
  - destruct (_prices_match tolerance precio (ProductMatch.precio best)); simpl;
      repeat split; auto; intros; try done; try by intuition.
  - repeat split; auto; intros; try done; try by intuition.
Qed.

(** C10. Every result that [validate_products] returns couples its verdict
    symbol to its status: the check mark exactly for MATCH, the cross mark
    exactly for PRICE_DIFF, the warning sign exactly for NOT_FOUND and
    NO_PRICE; and a NOT_FOUND result has no catalog name, no catalog price,
    no difference and no score. *)
Theorem validate_products_coupled (productos : list Producto.t) :
  match validate_products tolerance search_limit similarity_threshold
          encode client_search productos tienda_id with
  | Ok results => Forall coupled results
  | Raise _ => True
  end.
Proof.
  unfold validate_products.
  destruct (search_products_batch _ _ _ _ _ _) as [m|e]; simpl; [|done].
  rewrite foldl_snoc_map, app_nil_l. apply List.Forall_map, Forall_forall.
  intros p _. apply validate_product_coupled.
Qed.

End ValidateProducts.

(** The end-to-end example of the specification: HARINA matches the catalog
    entry at the same price, ACEITE has no candidate. *)
Example validate_sample_batch :
  validate_products (PRICE_TOLERANCE_PERCENT / 100) SEARCH_LIMIT
    SIMILARITY_THRESHOLD sample_encode catalog_search sample_batch 100
  = Ok [ mkValidationResult (py "HARINA") (Some 20%float) (Some (py "HARINA"))
           (Some 20%float) CHECK_MARK (Some 0%float) MATCH (Some 0.9%float);
         mkValidationResult (py "ACEITE") (Some 50%float) None None
           WARNING_SIGN None NOT_FOUND None ].
Proof. vm_compute. reflexivity. Qed.

(** C2, as stated, fails: the search returns for HARINA a candidate of score
    0.75 followed by one of score 0.9, and the product is compared with the
    first one (PRICE_DIFF at score 0.75), although the candidate of the
    highest score would give MATCH. *)
Lemma validate_products_takes_first_not_best :
  unsorted_search (sample_encode (_normalize_text (py "HARINA")))
    (search_filter (Some (str_of_int 100))) SEARCH_LIMIT SIMILARITY_THRESHOLD
  = Ok [sample_hit "3" "HARINA ECONOMICA" 10 0.75; sample_hit "7" "HARINA" 20 0.9]
  /\ (0.75 <? 0.9)%float = true
  /\ validate_products (PRICE_TOLERANCE_PERCENT / 100) SEARCH_LIMIT
       SIMILARITY_THRESHOLD sample_encode unsorted_search
       [sample_product "HARINA" 20] 100
     = Ok [ mkValidationResult (py "HARINA") (Some 20%float)
              (Some (py "HARINA ECONOMICA")) (Some 10%float)
              CROSS_MARK (Some (-10)%float) PRICE_DIFF (Some 0.75%float) ]
  /\ status (classify (PRICE_TOLERANCE_PERCENT / 100) (py "HARINA") (Some 20%float)
               (Some (match_of_hit (sample_hit "7" "HARINA" 20 0.9))))
     = MATCH.
Proof. vm_compute. done. Qed.

(** The amended C2 at the sample batch and catalog. *)
Lemma validate_products_first_candidate_witness :
  exists results,
    validate_products (PRICE_TOLERANCE_PERCENT / 100) SEARCH_LIMIT
      SIMILARITY_THRESHOLD sample_encode catalog_search sample_batch 100
    = Ok results
    /\ length results = length sample_batch
    /\ (forall i p nombre,
          sample_batch !! i = Some p -> Producto.nombre p = Some nombre ->
          exists hits,
            catalog_search (sample_encode (_normalize_text nombre))
              (search_filter (Some (str_of_int 100)))
              SEARCH_LIMIT SIMILARITY_THRESHOLD = Ok hits
            /\ results !! i =
                 Some (classify (PRICE_TOLERANCE_PERCENT / 100) nombre
                         (Producto.precio p) (head (map match_of_hit hits)))
            /\ (forall best rest,
                  hits = best :: rest -> descending hits ->
                  Forall (fun h => (Hit.score h <=? Hit.score best)%float = true)
                         rest)).
Proof.
  apply (validate_products_first_candidate (PRICE_TOLERANCE_PERCENT / 100)
           SEARCH_LIMIT SIMILARITY_THRESHOLD sample_encode catalog_search
           100 sample_batch).
  intros p _. unfold catalog_search.
  destruct (str_eqb _ _); eauto.
Defined.

(** C8, as stated, fails: the search answers for HARINA and fails for
    ACEITE, and the batch of both yields no result, only the error. *)
Lemma validate_products_failure_aborts_batch :
  failing_search (sample_encode (_normalize_text (py "HARINA")))
    (search_filter (Some (str_of_int 100))) SEARCH_LIMIT SIMILARITY_THRESHOLD
  = Ok [sample_hit "7" "HARINA" 20 0.9]
  /\ validate_products (PRICE_TOLERANCE_PERCENT / 100) SEARCH_LIMIT
       SIMILARITY_THRESHOLD sample_encode failing_search sample_batch 100
     = Raise (CapabilityError (py "timed out")).
Proof. vm_compute. done. Qed.

(** The amended C8 at the sample batch, whose second query fails. *)
Lemma validate_products_aborts_on_failure_witness :
  exists e',
    validate_products (PRICE_TOLERANCE_PERCENT / 100) SEARCH_LIMIT
      SIMILARITY_THRESHOLD sample_encode failing_search sample_batch 100
    = Raise e'.
Proof.
  apply (validate_products_aborts_on_failure (PRICE_TOLERANCE_PERCENT / 100)
           SEARCH_LIMIT SIMILARITY_THRESHOLD sample_encode failing_search
           100 sample_batch (sample_product "ACEITE" 50)
           (CapabilityError (py "timed out"))).
  - right. left.
  - vm_compute. reflexivity.
Defined.

(** ** Recovery of the products of a response *)

(** What does hold of [_parse_gemini_response]: the records that come out of
    parsed JSON have a non-empty name. *)
Lemma flatten_productos_named py_repr categoria productos flat :
  flatten_productos py_repr categoria productos = Ok flat ->
  Forall (fun p => exists n, Producto.nombre p = Some n /\ n <> []) flat.
Proof.
  revert flat. induction productos as [|producto rest IH]; intros flat; simpl.
  - intros [= <-]. constructor.
  - destruct producto as [| | | | |l|d]; try exact (IH flat).
    case_bool_decide as Hname; simpl; [exact (IH flat)|].
    destruct (str_eqb _ _); simpl; [exact (IH flat)|].
    destruct (_parse_price _) as [precio|e]; simpl; [|done].
    destruct (flatten_productos _ _ rest) as [more|e]; simpl; [|done].
    intros [= <-]. constructor; [eauto|]. by apply IH.
Qed.

(** When the text cannot be parsed, cannot be repaired and holds no match of
    the product pattern, the result is the empty list. *)
Lemma parse_gemini_response_total_failure py_repr text :
  let cleaned :=
    strip (re_sub false (Seqs [Star true Space; Str "```"; Eol]) []
             (re_sub false (Seqs [Bol; Str "```json"; Star true Space]) [] text)) in
  json_loads cleaned = None ->
  _repair_truncated_json cleaned = JNull ->
  re_findall2 true product_pattern cleaned = [] ->
  _parse_gemini_response py_repr text = Ok [].
Proof.
  intros cleaned Hparse Hrepair Hregex. unfold _parse_gemini_response.
  fold cleaned. rewrite Hparse, Hrepair.
  unfold _extract_products_regex. by rewrite Hregex.
Qed.

(** C3 does not hold of the code. A response that is valid JSON with null
    under the key productos of a category makes [_parse_gemini_response]
    raise TypeError (the loop iterates over None); and the regex fallback
    returns a record with an empty name when the quoted name is blank. *)
Theorem parse_gemini_response_defects (py_repr : json -> pystr) :
  _parse_gemini_response py_repr (pyq "[{'categoria': 'A', 'productos': null}]")
  = Raise TypeError
  /\ _parse_gemini_response py_repr (pyq "'nombre': ' ', 'precio': 1")
     = Ok [Producto.mk (Some []) (Some 1%float) (JStr []) (JStr (py "General")) JNull].
Proof. split; vm_compute; reflexivity. Qed.

(** C4. On the response cut in the middle of its second product, no parse
    succeeds (neither directly nor after either repair), and
    [_parse_gemini_response] returns, without raising, the complete record
    of name X and price 1.0, which deduplication keeps; the record Y is
    absent. *)
Theorem truncated_response_recovers_complete_record (py_repr : json -> pystr) :
  json_loads truncated_response = None
  /\ _repair_truncated_json truncated_response = JNull
  /\ _parse_gemini_response py_repr truncated_response
     = Ok [Producto.mk (Some (py "X")) (Some 1.0%float) (JStr [])
             (JStr (py "General")) JNull]
  /\ _deduplicate_products
       [Producto.mk (Some (py "X")) (Some 1.0%float) (JStr [])
          (JStr (py "General")) JNull]
     = [Producto.mk (Some (py "X")) (Some 1.0%float) (JStr [])
          (JStr (py "General")) JNull].
Proof. repeat split; vm_compute; reflexivity. Qed.

(** ** The intent parser *)

Lemma first_tienda_in_range (patterns : list regex) (text : pystr) (n : Z) :
  first_tienda patterns text = Some n -> (1 <= n <= 9999)%Z.
Proof.
  induction patterns as [|pattern rest IH]; simpl; [done|].
  destruct (re_search false pattern text) as [m|]; [|exact IH].
  destruct (_ && _) eqn:Hrange; [|exact IH].
  intros [= <-]. apply andb_true_iff in Hrange as [H1 H2]. lia.
Qed.

Lemma extract_tienda_id_in_range (text : pystr) (n : Z) :
  _extract_tienda_id text = Some n -> (1 <= n <= 9999)%Z.
Proof.
  unfold _extract_tienda_id. destruct text; [done|]. apply first_tienda_in_range.
Qed.

(** C7. Whenever a store identifier can be extracted from a text,
    [_is_greeting_or_help] answers False, whatever greeting or help words the
    text holds; so for the text tienda 810 ayuda, which holds the help word
    ayuda and from which the store 810 is extracted. *)
Theorem store_id_overrides_greeting :
  (forall (text : pystr) (n : Z),
     _extract_tienda_id text = Some n -> _is_greeting_or_help text = false)
  /\ (In (py "ayuda") greetings
      /\ contains (py "ayuda") (lower (py "tienda 810 ayuda")) = true
      /\ _extract_tienda_id (py "tienda 810 ayuda") = Some 810%Z
      /\ _is_greeting_or_help (py "tienda 810 ayuda") = false).
Proof.
  split.
  - intros text n Hn. unfold _is_greeting_or_help. rewrite Hn.
    apply extract_tienda_id_in_range in Hn. simpl.
    destruct (n =? 0)%Z eqn:Hz; [lia|done].
  - vm_compute. intuition.
Qed.

(** C7 at the text tienda 810 ayuda. *)
Lemma store_id_overrides_greeting_witness :
  _extract_tienda_id (py "tienda 810 ayuda") = Some 810%Z
  /\ _is_greeting_or_help (py "tienda 810 ayuda") = false.
Proof.
  assert (_extract_tienda_id (py "tienda 810 ayuda") = Some 810%Z) as H
    by (vm_compute; reflexivity).
  split; [exact H|].
  exact (proj1 store_id_overrides_greeting (py "tienda 810 ayuda") 810%Z H).
Defined.

(** C9, as stated, fails: on the question about Harina in store 100 the
    search phrase extracted is not HARINA: the case is kept, and so are the
    opening question mark, the words en la and the closing question mark. *)
Lemma extract_search_term_keeps_residue :
  _extract_tienda_id harina_question = Some 100%Z
  /\ _extract_search_term harina_question = Some (py "¿Harina en la ?")
  /\ _extract_search_term harina_question <> Some (py "HARINA").
Proof. vm_compute. split; [done|]. split; [done|]. discriminate. Qed.

(** C9, amended. On the question about Harina in store 100 the store 100 is
    extracted, and the search phrase is the text left once the store
    reference (tienda 100) and the request phrase (Cuál es el precio de la)
    are removed, with its case and its other words and signs kept; and for
    every text the search phrase is absent when the text is empty or its
    cleaned, trimmed residue has 2 characters or fewer, and is that residue
    otherwise. *)
Theorem extract_search_term_residue :
  _extract_tienda_id harina_question = Some 100%Z
  /\ _extract_search_term harina_question = Some (py "¿Harina en la ?")
  /\ (forall text : pystr,
        _extract_search_term text =
          if bool_decide (text = []) || (length (search_term_residue text) <=? 2)
          then None else Some (search_term_residue text)).
Proof.
  split; [by vm_compute|]. split; [by vm_compute|].
  intros text. unfold _extract_search_term. destruct text as [|c text]; [done|].
  simpl bool_decide. cbn [orb].
  destruct (length (search_term_residue (c :: text))) as [|[|[|n]]]; done.
Qed.

(** * Further properties *)

(** ** Trimming *)

Lemma lstrip_head (s : pystr) (c : N) :
  head (lstrip s) = Some c -> isspace c = false.
Proof.
  induction s as [|x s IH]; simpl; [done|].
  destruct (isspace x) eqn:Hx; [exact IH|]. simpl. by intros [= <-].
Qed.

Lemma lstrip_nonspace (c : N) (s : pystr) :
  isspace c = false -> lstrip (c :: s) = c :: s.
Proof. intros Hc. simpl. by rewrite Hc. Qed.

Lemma lstrip_idempotent (s : pystr) : lstrip (lstrip s) = lstrip s.
Proof.
  induction s as [|x s IH]; simpl; [done|].
  destruct (isspace x) eqn:Hx; [exact IH|]. by apply lstrip_nonspace.
Qed.

Lemma lstrip_snoc (s : pystr) (c : N) :
  isspace c = false -> lstrip (s ++ [c]) = lstrip s ++ [c].
Proof.
  intros Hc. induction s as [|x s IH]; simpl; [by rewrite Hc|].
  by destruct (isspace x).
Qed.

Lemma rstrip_cons (c : N) (s : pystr) :
  isspace c = false -> rstrip (c :: s) = c :: rstrip s.
Proof.
  intros Hc. unfold rstrip. simpl.
  rewrite lstrip_snoc by done. by rewrite rev_app_distr.
Qed.

Lemma rstrip_idempotent (s : pystr) : rstrip (rstrip s) = rstrip s.
Proof. unfold rstrip. by rewrite rev_involutive, lstrip_idempotent. Qed.

Lemma strip_idempotent (s : pystr) : strip (strip s) = strip s.
Proof.
  unfold strip. destruct (lstrip s) as [|c t] eqn:Hs; [done|].
  assert (isspace c = false) as Hc by (apply (lstrip_head s); by rewrite Hs).
  rewrite rstrip_cons by done. rewrite lstrip_nonspace by done.
  rewrite <- rstrip_cons by done. apply rstrip_idempotent.
Qed.

Lemma strip_head (s : pystr) (c : N) :
  head (strip s) = Some c -> isspace c = false.
Proof.
  unfold strip. destruct (lstrip s) as [|x t] eqn:Hs; [done|].
  assert (isspace x = false) as Hx by (apply (lstrip_head s); by rewrite Hs).
  rewrite rstrip_cons by done. simpl. by intros [= <-].
Qed.

Lemma last_rev_head (s : pystr) : last (rev s) = head s.
Proof. destruct s as [|x s]; [done|]. simpl. apply last_snoc. Qed.

Lemma strip_last (s : pystr) (c : N) :
  last (strip s) = Some c -> isspace c = false.
Proof. unfold strip, rstrip. rewrite last_rev_head. apply lstrip_head. Qed.

Lemma lstrip_elem (s : pystr) (c : N) : c ∈ lstrip s -> c ∈ s.
Proof.
  induction s as [|x s IH]; simpl; [done|].
  destruct (isspace x); [|done]. intros ?. right. by apply IH.
Qed.

Lemma strip_elem (s : pystr) (c : N) : c ∈ strip s -> c ∈ s.
Proof.
  unfold strip, rstrip. rewrite list_elem_of_In, <- in_rev, <- list_elem_of_In.
  intros Hc%lstrip_elem. apply lstrip_elem.
  by rewrite list_elem_of_In, in_rev, <- list_elem_of_In.
Qed.

Lemma lstrip_all_space (s : pystr) :
  Forall (fun c => isspace c = true) s -> lstrip s = [].
Proof. induction 1 as [|x s Hx _ IH]; simpl; [done|]. by rewrite Hx. Qed.

Lemma strip_all_space (s : pystr) :
  Forall (fun c => isspace c = true) s -> strip s = [].
Proof. intros Hs. unfold strip. by rewrite lstrip_all_space. Qed.

(** ** The intent parser, continued *)

Ltac bool_to_prop :=
  repeat match goal with
         | H : _ |- _ =>
           progress rewrite ?andb_true_iff, ?andb_false_iff, ?orb_true_iff,
             ?orb_false_iff, ?negb_true_iff, ?negb_false_iff, ?N.leb_le,
             ?N.leb_gt, ?N.eqb_eq, ?N.eqb_neq in H
         end.

Lemma lower_cp_idempotent (c : N) : lower_cp (lower_cp c) = lower_cp c.
Proof.
  unfold lower_cp, in_range.
  repeat (case_match; try done); bool_to_prop; lia.
Qed.

Lemma lower_idempotent (s : pystr) : lower (lower s) = lower s.
Proof.
  unfold lower. rewrite map_map. apply map_ext. intros c. apply lower_cp_idempotent.
Qed.



(** X2. The extraction of the store identifier ignores the case of the
    letters: two texts with the same lower-case form give the same result. *)
Theorem extract_tienda_id_case_insensitive (a b : pystr) :
  lower a = lower b -> _extract_tienda_id a = _extract_tienda_id b.
Proof.
  intros Hab. unfold _extract_tienda_id.
  destruct a as [|x a], b as [|y b]; try done. by rewrite Hab.
Qed.

Lemma extract_tienda_id_case_insensitive_witness :
  _extract_tienda_id (py "Precio en TIENDA 810") =
  _extract_tienda_id (py "precio en tienda 810").
Proof.
  apply (extract_tienda_id_case_insensitive (py "Precio en TIENDA 810")
           (py "precio en tienda 810")).
  vm_compute. reflexivity.
Defined.

(** X3. A search phrase returned by [_extract_search_term] is trimmed: it
    neither starts nor ends with white space, and trimming it again changes
    nothing. *)
Theorem extract_search_term_trimmed (text s : pystr) :
  _extract_search_term text = Some s ->
  strip s = s
  /\ (forall c, head s = Some c -> isspace c = false)
  /\ (forall c, last s = Some c -> isspace c = false).
Proof.
  unfold _extract_search_term. destruct text as [|x text]; [done|].
  destruct (_ <? _)%nat; [|done]. intros [= <-].
  unfold search_term_residue.
  split; [apply strip_idempotent|]. split; [apply strip_head|apply strip_last].
Qed.

Lemma extract_search_term_trimmed_witness :
  strip (py "Queso Panela en") = py "Queso Panela en"
  /\ (forall c, head (py "Queso Panela en") = Some c -> isspace c = false)
  /\ (forall c, last (py "Queso Panela en") = Some c -> isspace c = false).
Proof.
  apply (extract_search_term_trimmed
           (py "busca el precio del Queso Panela en tienda 205")).
  vm_compute. reflexivity.
Defined.

(** ** Splitting at a character *)

Lemma split_char_nonempty (sep : N) (s : pystr) : split_char sep s <> [].
Proof.
  induction s as [|c s IH]; simpl; [done|].
  destruct (c =? sep)%N; [done|]. by destruct (split_char sep s).
Qed.

Lemma split_char_elem (P : N -> Prop) (sep : N) (s : pystr) :
  Forall P s -> Forall (Forall P) (split_char sep s).
Proof.
  induction 1 as [|c s Hc _ IH]; simpl; [by repeat constructor|].
  destruct (c =? sep)%N; [by constructor|].
  destruct (split_char sep s) as [|l ls]; [by repeat constructor|].
  apply Forall_cons in IH as [Hl Hls]. by repeat constructor.
Qed.

Lemma split_char_no_sep (sep : N) (s : pystr) :
  Forall (fun l => sep ∉ l) (split_char sep s).
Proof.
  induction s as [|c s IH]; simpl; [repeat constructor; by intros ?%elem_of_nil|].
  destruct (c =? sep)%N eqn:Hc; [constructor; [by intros ?%elem_of_nil|done]|].
  destruct (split_char sep s) as [|l ls];
    [repeat constructor; intros ?%list_elem_of_singleton; subst;
     by rewrite N.eqb_refl in Hc|].
  apply Forall_cons in IH as [Hl Hls]. constructor; [|done].
  intros [->|?]%elem_of_cons; [by rewrite N.eqb_refl in Hc|done].
Qed.

Lemma split_char_id (sep : N) (l : pystr) :
  sep ∉ l -> split_char sep l = [l].
Proof.
  induction l as [|c l IH]; intros Hl; simpl; [done|].
  apply not_elem_of_cons in Hl as [Hc Hl].
  destruct (c =? sep)%N eqn:Heq; [apply N.eqb_eq in Heq; congruence|].
  by rewrite IH.
Qed.

Lemma split_char_app (sep : N) (a b : pystr) :
  split_char sep (a ++ sep :: b) = split_char sep a ++ split_char sep b.
Proof.
  induction a as [|c a IH]; simpl; [by rewrite N.eqb_refl|].
  destruct (c =? sep)%N; [by rewrite IH|].
  rewrite IH. destruct (split_char sep a) as [|l ls] eqn:Ha; [|done].
  by destruct (split_char_nonempty sep a).
Qed.

Lemma split_char_length (sep : N) (s : pystr) :
  Forall (fun l => length l <= length s) (split_char sep s).
Proof.
  induction s as [|c s IH]; simpl; [by repeat constructor|].
  destruct (c =? sep)%N.
  - constructor; [simpl; lia|].
    eapply Forall_impl; [exact IH|]. intros l Hl. simpl in *. lia.
  - destruct (split_char sep s) as [|l ls].
    + constructor; [simpl; lia|constructor].
    + apply Forall_cons in IH as [Hl Hls]. constructor; [simpl in *; lia|].
      eapply Forall_impl; [exact Hls|]. intros l' Hl'. simpl in *. lia.
Qed.

(** Joining the pieces with the separator gives the text back. *)
Lemma join_split_char (sep : N) (s : pystr) :
  join [sep] (split_char sep s) = s.
Proof.
  induction s as [|c s IH]; simpl; [done|].
  destruct (c =? sep)%N eqn:Hc.
  - apply N.eqb_eq in Hc as ->.
    destruct (split_char sep s) as [|l ls] eqn:Hs;
      [by destruct (split_char_nonempty sep s)|].
    simpl in *. by rewrite IH.
  - destruct (split_char sep s) as [|l ls] eqn:Hs;
      [by destruct (split_char_nonempty sep s)|].
    destruct ls; simpl in *; by rewrite <- IH.
Qed.

(** ** The allowed users *)

Lemma filter_none {A} (f : A -> bool) (l : list A) :
  Forall (fun x => f x = false) l -> List.filter f l = [].
Proof. induction 1 as [|x l Hx _ IH]; simpl; [done|]. by rewrite Hx. Qed.

(** X4. Every entry of [get_allowed_users] is a non-empty, trimmed user id
    without a comma, whatever the setting holds. *)
Theorem allowed_users_clean (setting : pystr) :
  Forall (fun uid => uid <> [] /\ strip uid = uid /\ 44%N ∉ uid)
         (get_allowed_users setting).
Proof.
  unfold get_allowed_users. destruct setting as [|c s]; [constructor|].
  apply List.Forall_map, Forall_forall. intros uid Huid.
  apply list_elem_of_In, filter_In in Huid as [Hin Hne].
  apply negb_true_iff, bool_decide_eq_false in Hne.
  split; [done|]. split; [apply strip_idempotent|].
  intros Hcomma%strip_elem.
  pose proof (split_char_no_sep 44 (c :: s)) as Hsep.
  rewrite Forall_forall in Hsep. apply (Hsep uid); [|done].
  by apply list_elem_of_In.
Qed.

(** X5. A setting made of commas and white space only allows no user in
    particular: [get_allowed_users] returns the empty list, which
    [_process_message] reads as every user being allowed. *)
Theorem allowed_users_blank (setting : pystr) :
  Forall (fun c => isspace c = true \/ c = 44%N) setting ->
  get_allowed_users setting = [].
Proof.
  intros Hs. unfold get_allowed_users. destruct setting as [|c s]; [done|].
  rewrite filter_none; [done|].
  pose proof (split_char_elem _ 44 (c :: s) Hs) as Hpieces.
  pose proof (split_char_no_sep 44 (c :: s)) as Hsep.
  rewrite Forall_forall in Hpieces, Hsep. apply Forall_forall. intros uid Hin.
  apply negb_false_iff, bool_decide_eq_true, strip_all_space.
  specialize (Hpieces uid Hin). specialize (Hsep uid Hin).
  rewrite Forall_forall in Hpieces. apply Forall_forall. intros x Hx.
  destruct (Hpieces x Hx) as [?| ->]; done.
Qed.

Lemma allowed_users_blank_witness : get_allowed_users (py " , ,, ") = [].
Proof.
  apply (allowed_users_blank (py " , ,, ")).
  vm_compute. repeat (constructor; [(by left) || (by right)|]). constructor.
Defined.

(** ** The image of a message *)

(** X6. [_find_image_file] returns the first file whose mimetype starts with
    image/ (a file without mimetype counts as not an image), and None
    exactly when no file of the list is an image. *)
Theorem find_image_file_first (files : list SlackFile.t) :
  match _find_image_file files with
  | Some f =>
    exists before after,
      files = before ++ f :: after
      /\ is_image f = true
      /\ Forall (fun g => is_image g = false) before
  | None => Forall (fun g => is_image g = false) files
  end.
Proof.
  induction files as [|g files IH]; [constructor|].
  cbn [_find_image_file].
  change (starts_with (py "image/") (default [] (SlackFile.mimetype g)))
    with (is_image g).
  destruct (is_image g) eqn:Hg.
  - exists [], files. split; [done|]. split; [done|constructor].
  - destruct (_find_image_file files) as [f|].
    + destruct IH as (before & after & -> & Hf & Hbefore).
      exists (g :: before), after. split; [done|]. split; [done|by constructor].
    + by constructor.
Qed.

(** ** Splitting a long message *)

Lemma nonempty_lines_nil : nonempty_lines [] = [].
Proof. done. Qed.

Lemma nonempty_lines_line (line : pystr) :
  10%N ∉ line ->
  nonempty_lines line = List.filter (fun l => negb (bool_decide (l = []))) [line].
Proof. intros Hl. unfold nonempty_lines. by rewrite split_char_id. Qed.

Lemma nonempty_lines_app (a b : pystr) :
  nonempty_lines (a ++ [10%N] ++ b) = nonempty_lines a ++ nonempty_lines b.
Proof.
  unfold nonempty_lines. cbn [app]. by rewrite split_char_app, List.filter_app.
Qed.

(** What the loop of [_split_message] keeps: the non-empty lines held by
    [parts] and [current] are those of the lines read so far. *)
Lemma split_message_step_lines (max_length : Z) (st : list pystr * pystr)
    (line : pystr) :
  10%N ∉ line ->
  concat (map nonempty_lines (split_message_step max_length st line).1)
    ++ nonempty_lines (split_message_step max_length st line).2
  = concat (map nonempty_lines st.1) ++ nonempty_lines st.2
    ++ List.filter (fun l => negb (bool_decide (l = []))) [line].
Proof.
  intros Hline. destruct st as [parts current]. unfold split_message_step.
  destruct (_ <? _)%Z; cbn [fst snd].
  - rewrite map_app, concat_app. cbn [map concat].
    by rewrite app_nil_r, <- app_assoc, (nonempty_lines_line line).
  - f_equal. destruct current as [|c current]; lazy beta iota.
    + rewrite nonempty_lines_nil. cbn [app]. by apply nonempty_lines_line.
    + by rewrite nonempty_lines_app, (nonempty_lines_line line).
Qed.

Lemma split_message_loop_lines (max_length : Z) (lines : list pystr)
    (st : list pystr * pystr) :
  Forall (fun l => 10%N ∉ l) lines ->
  concat (map nonempty_lines (foldl (split_message_step max_length) st lines).1)
    ++ nonempty_lines (foldl (split_message_step max_length) st lines).2
  = concat (map nonempty_lines st.1) ++ nonempty_lines st.2
    ++ List.filter (fun l => negb (bool_decide (l = []))) lines.
Proof.
  revert st. induction lines as [|line lines IH]; intros st Hlines.
  - cbn [foldl List.filter]. by rewrite app_nil_r.
  - apply Forall_cons in Hlines as [Hline Hlines].
    cbn [foldl]. rewrite (IH _ Hlines), app_assoc.
    rewrite (split_message_step_lines _ _ _ Hline), <- !app_assoc.
    do 2 f_equal. by rewrite <- List.filter_app.
Qed.

(** X7. [_split_message] loses no text and invents none: the non-empty lines
    of the parts, read in order, are exactly the non-empty lines of the
    message (only empty lines can disappear, at the start of a part). *)
Theorem split_message_keeps_lines (message : pystr) (max_length : Z) :
  concat (map nonempty_lines (_split_message message max_length))
  = nonempty_lines message.
Proof.
  unfold _split_message.
  destruct (_ <=? _)%Z; [cbn [map concat]; by rewrite app_nil_r|].
  pose proof (split_message_loop_lines max_length (split_char 10 message) ([], [])
                (split_char_no_sep 10 message)) as Hloop.
  cbn [fst snd map concat] in Hloop. rewrite nonempty_lines_nil in Hloop.
  cbn [app] in Hloop. fold (nonempty_lines message) in Hloop. rewrite <- Hloop.
  destruct (foldl _ _ _) as [parts current]. cbn [fst snd].
  destruct current as [|c current].
  - by rewrite nonempty_lines_nil, app_nil_r.
  - rewrite map_app, concat_app. cbn [map concat]. by rewrite app_nil_r.
Qed.

Lemma foldl_invariant {A B} (P : B -> Prop) (f : B -> A -> B) (l : list A) (b : B) :
  P b -> (forall b x, x ∈ l -> P b -> P (f b x)) -> P (foldl f b l).
Proof.
  revert b. induction l as [|x l IH]; intros b Hb Hstep; simpl; [done|].
  apply IH.
  - apply Hstep; [by left|done].
  - intros b' y Hy. apply Hstep. by right.
Qed.

Lemma split_message_parts_bounded (message : pystr) (max_length : Z) :
  Forall (fun line => (Z.of_nat (length line) <= max_length)%Z)
         (split_char 10 message) ->
  Forall (fun part => (Z.of_nat (length part) <= max_length)%Z)
         (_split_message message max_length).
Proof.
  intros Hlines. unfold _split_message.
  destruct (_ <=? _)%Z eqn:Hshort; [by repeat constructor; apply Z.leb_le|].
  assert (0 <= max_length)%Z as Hmax.
  { destruct (split_char 10 message) as [|l ls] eqn:Hs;
      [by destruct (split_char_nonempty 10 message)|].
    apply Forall_cons in Hlines as [Hl _]. lia. }
  pose (Inv := fun st : list pystr * pystr =>
    Forall (fun part => (Z.of_nat (length part) <= max_length)%Z) st.1
    /\ (Z.of_nat (length st.2) <= max_length)%Z).
  assert (Inv (foldl (split_message_step max_length) ([], [])
                 (split_char 10 message))) as Hinv.
  { apply foldl_invariant.
    - split; [constructor|simpl; lia].
    - intros [parts current] line Hline [Hparts Hcurrent]. simpl in *.
      rewrite Forall_forall in Hlines. specialize (Hlines line Hline).
      unfold split_message_step.
      destruct (_ <? _)%Z eqn:Hfull; split; simpl.
      + apply Forall_app. split; [done|by repeat constructor].
      + done.
      + done.
      + apply Z.ltb_ge in Hfull.
        destruct current; [done|]. rewrite !length_app. simpl in *. lia. }
  destruct (foldl _ _ _) as [parts current]. destruct Hinv as [Hparts Hcurrent].
  simpl in *. destruct current; [done|].
  apply Forall_app. split; [done|by repeat constructor].
Qed.

(** X8. When no line of the message is longer than [max_length], no part
    returned by [_split_message] is longer than [max_length]. *)
Theorem split_message_bounded (message : pystr) (max_length : Z) :
  Forall (fun line => (Z.of_nat (length line) <= max_length)%Z)
         (split_char 10 message) ->
  Forall (fun part => (Z.of_nat (length part) <= max_length)%Z)
         (_split_message message max_length).
Proof. apply split_message_parts_bounded. Qed.

Lemma split_message_bounded_witness :
  Forall (fun part => (Z.of_nat (length part) <= 5)%Z)
         (_split_message (py "ab
cd
efg
h") 5).
Proof.
  apply (split_message_bounded (py "ab
cd
efg
h") 5).
  vm_compute. repeat (constructor; [discriminate|]). constructor.
Defined.

(** A part or the current text is longer than the limit. *)
Definition oversize (max_length : Z) (st : list pystr * pystr) : Prop :=
  Exists (fun part => (max_length < Z.of_nat (length part))%Z) st.1
  \/ (max_length < Z.of_nat (length st.2))%Z.

Lemma split_message_step_oversize (max_length : Z) st line :
  (0 <= max_length)%Z ->
  oversize max_length st -> oversize max_length (split_message_step max_length st line).
Proof.
  intros Hmax. destruct st as [parts current]. unfold oversize, split_message_step.
  simpl. intros [Hparts|Hcurrent].
  - destruct (_ <? _)%Z; simpl; [|by left].
    left. apply Exists_app. by left.
  - destruct (_ <? _)%Z; simpl.
    + left. apply Exists_app. right. by constructor.
    + right. destruct current; [simpl in *; lia|].
      rewrite !length_app. simpl in *. lia.
Qed.

(** X9. [_split_message] never cuts inside a line: when the limit is not
    negative and a line of the message is longer than the limit, one of the
    parts returned is longer than the limit. *)
Theorem split_message_long_line (message : pystr) (max_length : Z) (line : pystr) :
  (0 <= max_length)%Z ->
  line ∈ split_char 10 message ->
  (max_length < Z.of_nat (length line))%Z ->
  Exists (fun part => (max_length < Z.of_nat (length part))%Z)
         (_split_message message max_length).
Proof.
  intros Hmax Hline Hlong. unfold _split_message.
  destruct (_ <=? _)%Z eqn:Hshort.
  { apply Z.leb_le in Hshort. pose proof (split_char_length 10 message) as Hlen.
    rewrite Forall_forall in Hlen. specialize (Hlen line Hline). lia. }
  apply list_elem_of_split in Hline as (l1 & l2 & ->).
  rewrite foldl_app. simpl.
  assert (oversize max_length
            (foldl (split_message_step max_length)
               (split_message_step max_length
                  (foldl (split_message_step max_length) ([], []) l1) line) l2))
    as Hover.
  { apply foldl_invariant.
    - destruct (foldl _ _ l1) as [parts current].
      unfold split_message_step, oversize.
      destruct (_ <? _)%Z eqn:Hfull; simpl; [by right|].
      apply Z.ltb_ge in Hfull. lia.
    - intros st x _. by apply split_message_step_oversize. }
  destruct (foldl _ _ l2) as [parts current].
  destruct Hover as [Hparts|Hcurrent]; simpl in *.
  - destruct current; [done|]. apply Exists_app. by left.
  - destruct current; [simpl in *; lia|].
    apply Exists_app. right. by constructor.
Qed.

Lemma split_message_long_line_witness :
  Exists (fun part => (5 < Z.of_nat (length part))%Z)
         (_split_message (py "ab
cdefghij
k") 5).
Proof.
  apply (split_message_long_line (py "ab
cdefghij
k") 5 (py "cdefghij")).
  - lia.
  - vm_compute. right. left.
  - vm_compute. reflexivity.
Defined.

(** ** The search of one query and of a batch *)

Section BatchSearch.

Context {Embedding : Type}.
Variable encode : pystr -> Embedding.
Variable client_search :
  Embedding -> option pystr -> Z -> float -> res (list Hit.t).
Variable tienda_id : option pystr.
Variable limit : Z.
Variable score_threshold : float.

(** The search that the batch runs for the query [q]. *)
Let batch_search (q : pystr) : res (list Hit.t) :=
  client_search (encode (_normalize_text q)) (search_filter tienda_id)
    limit score_threshold.

Let batch_step := search_one client_search tienda_id limit score_threshold.

Lemma batch_step_ok (q : pystr) (m : gmap pystr (list ProductMatch.t)) hits :
  batch_search q = Ok hits ->
  batch_step m (q, encode (_normalize_text q))
  = Ok (<[q := map match_of_hit hits]> m).
Proof.
  unfold batch_step, search_one, batch_search. cbn [fst snd]. intros ->.
  cbn [mbind res_bind]. by rewrite foldl_snoc_map.
Qed.

Lemma batch_loop_ok (qs : list pystr) (m0 : gmap pystr (list ProductMatch.t)) :
  (forall q, q ∈ qs -> exists hits, batch_search q = Ok hits) ->
  exists m,
    foldlM batch_step m0 (map (fun q => (q, encode (_normalize_text q))) qs) = Ok m
    /\ dom m = list_to_set qs ∪ dom m0
    /\ (forall q hits, q ∈ qs -> batch_search q = Ok hits ->
          m !! q = Some (map match_of_hit hits))
    /\ (forall q, q ∉ qs -> m !! q = m0 !! q).
Proof.
  revert m0. induction qs as [|q qs IH]; intros m0 Hall.
  - exists m0. split; [done|]. split; [|split; [|done]].
    + apply set_eq. intros x. rewrite elem_of_union, list_to_set_nil.
      rewrite elem_of_empty. tauto.
    + by intros q hits ?%elem_of_nil.
  - destruct (Hall q) as [hits Hq]; [by left|].
    cbn [map foldlM]. rewrite (batch_step_ok _ _ _ Hq). cbn [mbind res_bind].
    destruct (IH (<[q := map match_of_hit hits]> m0)) as (m & Hm & Hdom & Hin & Hout).
    { intros q' Hq'. apply Hall. by right. }
    exists m. split; [exact Hm|]. split; [|split].
    + rewrite Hdom, dom_insert_L, list_to_set_cons. apply set_eq. intros x.
      rewrite !elem_of_union. tauto.
    + intros q' hits' Hq' Hs. destruct (decide (q' ∈ qs)) as [Hr|Hr]; [by apply Hin|].
      apply elem_of_cons in Hq' as [->|?]; [|done].
      rewrite Hout by done. rewrite lookup_insert_eq. congruence.
    + intros q' Hq'. apply not_elem_of_cons in Hq' as [Hne Hr].
      rewrite Hout by done. by apply lookup_insert_ne.
Qed.

(** X10. When the search succeeds for every query, [search_products_batch]
    returns a dictionary whose keys are exactly the queries (a repeated
    query gives one key), each mapped to the matches built from the hits of
    its own search, in the order of the hits. *)
Theorem search_products_batch_keys (queries : list pystr) :
  (forall q, q ∈ queries -> exists hits, batch_search q = Ok hits) ->
  exists m,
    search_products_batch encode client_search queries tienda_id limit
      score_threshold = Ok m
    /\ dom m = list_to_set queries
    /\ (forall q hits, q ∈ queries -> batch_search q = Ok hits ->
          m !! q = Some (map match_of_hit hits)).
Proof.
  intros Hall. unfold search_products_batch.
  rewrite generate_embeddings_batch_map, zip_embeddings.
  destruct (batch_loop_ok queries ∅ Hall) as (m & Hm & Hdom & Hin & _).
  exists m. split; [exact Hm|]. split; [|exact Hin].
  rewrite Hdom, dom_empty_L. apply set_eq. intros x.
  rewrite elem_of_union, elem_of_empty. tauto.
Qed.

Variable zero_vector : Embedding.

(** X11. For a query that is not blank, the batch search of that query alone
    and [search_products] agree: both fail with the same error, or the batch
    maps the query to the list that [search_products] returns. *)
Theorem search_products_batch_single (query : pystr) :
  strip query <> [] ->
  search_products_batch encode client_search [query] tienda_id limit
    score_threshold
  = match search_products encode zero_vector client_search query tienda_id
            limit score_threshold with
    | Ok matches => Ok {[ query := matches ]}
    | Raise e => Raise e
    end.
Proof.
  intros Hq. unfold search_products_batch, search_products, generate_embedding.
  assert (query <> []) as Hne by (by intros ->).
  rewrite !bool_decide_eq_false_2 by done. cbn [orb].
  cbn [generate_embeddings_batch map zip zip_with foldlM].
  unfold search_one at 1. cbn [fst snd].
  destruct (client_search _ _ _ _) as [hits|e]; cbn [mbind res_bind]; [|done].
  by rewrite insert_empty.
Qed.

End BatchSearch.

Lemma search_products_batch_keys_witness :
  exists m,
    search_products_batch sample_encode catalog_search
      [py "HARINA"; py "ACEITE"; py "HARINA"] (Some (py "100"))
      SEARCH_LIMIT SIMILARITY_THRESHOLD = Ok m
    /\ dom m = list_to_set [py "HARINA"; py "ACEITE"; py "HARINA"]
    /\ (forall q hits, q ∈ [py "HARINA"; py "ACEITE"; py "HARINA"] ->
          catalog_search (sample_encode (_normalize_text q))
            (search_filter (Some (py "100"))) SEARCH_LIMIT SIMILARITY_THRESHOLD
          = Ok hits ->
          m !! q = Some (map match_of_hit hits)).
Proof.
  apply (search_products_batch_keys sample_encode catalog_search
           (Some (py "100")) SEARCH_LIMIT SIMILARITY_THRESHOLD
           [py "HARINA"; py "ACEITE"; py "HARINA"]).
  intros q _. unfold catalog_search. destruct (str_eqb _ _); eauto.
Defined.

Lemma search_products_batch_single_witness :
  search_products_batch sample_encode catalog_search [py "HARINA"]
    (Some (py "100")) SEARCH_LIMIT SIMILARITY_THRESHOLD
  = match search_products sample_encode [] catalog_search (py "HARINA")
            (Some (py "100")) SEARCH_LIMIT SIMILARITY_THRESHOLD with
    | Ok matches => Ok {[ py "HARINA" := matches ]}
    | Raise e => Raise e
    end.
Proof.
  apply (search_products_batch_single sample_encode catalog_search
           (Some (py "100")) SEARCH_LIMIT SIMILARITY_THRESHOLD [] (py "HARINA")).
  vm_compute. discriminate.
Defined.

(** ** Validation of a batch, continued *)

Section ValidateProductsMore.

Context {Embedding : Type}.
Variable tolerance : float.
Variable search_limit : Z.
Variable similarity_threshold : float.
Variable encode : pystr -> Embedding.
Variable client_search :
  Embedding -> option pystr -> Z -> float -> res (list Hit.t).
Variable tienda_id : Z.

Lemma validate_product_fields (m : gmap pystr (list ProductMatch.t))
    (p : Producto.t) :
  producto_imagen (validate_product tolerance m p)
  = default (py "DESCONOCIDO") (Producto.nombre p)
  /\ precio_imagen (validate_product tolerance m p) = Producto.precio p.
Proof. unfold validate_product. by destruct (default [] _). Qed.

(** X12. Whatever the search returns, the results of [validate_products]
    follow the products one for one: the result at the place of a product
    carries the name of that product (DESCONOCIDO for a product without the
    key nombre) and the price read for it, unchanged. *)
Theorem validate_products_keeps_input (productos : list Producto.t) :
  match validate_products tolerance search_limit similarity_threshold
          encode client_search productos tienda_id with
  | Ok results =>
    length results = length productos
    /\ (forall i p, productos !! i = Some p ->
          exists r, results !! i = Some r
            /\ producto_imagen r = default (py "DESCONOCIDO") (Producto.nombre p)
            /\ precio_imagen r = Producto.precio p)
  | Raise _ => True
  end.
Proof.
  unfold validate_products.
  destruct (search_products_batch _ _ _ _ _ _) as [m|e]; cbn [mbind res_bind]; [|done].
  rewrite foldl_snoc_map, app_nil_l. split; [by rewrite length_map|].
  intros i p Hi. exists (validate_product tolerance m p).
  split; [by rewrite lookup_map, Hi|]. apply validate_product_fields.
Qed.

(** X13. A product without the key nombre is searched under the empty
    query but looked up under DESCONOCIDO: when the searches succeed and no
    product of the batch is named DESCONOCIDO, its result is NOT_FOUND,
    whatever the search returned for the empty query. *)
Theorem validate_products_missing_name (productos : list Producto.t)
    (i : nat) (p : Producto.t) :
  (forall q, q ∈ productos ->
     exists hits,
       client_search (encode (_normalize_text (default [] (Producto.nombre q))))
         (search_filter (Some (str_of_int tienda_id)))
         search_limit similarity_threshold = Ok hits) ->
  productos !! i = Some p ->
  Producto.nombre p = None ->
  (forall q, q ∈ productos -> Producto.nombre q <> Some (py "DESCONOCIDO")) ->
  exists results,
    validate_products tolerance search_limit similarity_threshold
      encode client_search productos tienda_id = Ok results
    /\ results !! i =
         Some (mkValidationResult (py "DESCONOCIDO") (Producto.precio p)
                 None None WARNING_SIGN None NOT_FOUND None).
Proof.
  intros Hall Hi Hname Hfree. unfold validate_products, search_products_batch.
  rewrite generate_embeddings_batch_map, zip_embeddings.
  destruct (search_batch_ok search_limit similarity_threshold encode client_search
              tienda_id (map (fun p => default [] (Producto.nombre p)) productos) ∅)
    as (m & Hm & _ & Hout).
  { intros q (q' & Hq' & ->)%elem_of_queries. by apply Hall. }
  rewrite Hm. cbn [mbind res_bind]. rewrite foldl_snoc_map, app_nil_l.
  eexists. split; [done|]. rewrite lookup_map, Hi. simpl. f_equal.
  unfold validate_product. rewrite Hname. simpl.
  rewrite Hout; [done|].
  intros (q & Hq & Heq)%elem_of_queries.
  destruct (Producto.nombre q) as [n|] eqn:Hn; simpl in Heq.
  - apply (Hfree q Hq). by rewrite Hn, Heq.
  - by vm_compute in Heq.
Qed.

Lemma validate_product_status (m : gmap pystr (list ProductMatch.t))
    (p : Producto.t) :
  let s := status (validate_product tolerance m p) in
  s = MATCH \/ s = PRICE_DIFF \/ s = NOT_FOUND \/ s = NO_PRICE.
Proof.
  unfold validate_product. destruct (default [] _) as [|best rest]; simpl; [auto|].
  unfold _compare_prices. destruct (Producto.precio p); simpl; [|auto].
  destruct (_prices_match _ _ _); simpl; auto.
Qed.

Lemma count_status_cons (s : pystr) (r : ValidationResult)
    (l : list ValidationResult) :
  count_status s (r :: l)
  = (if str_eqb (status r) s then 1 else 0) + count_status s l.
Proof. unfold count_status. cbn [List.filter]. by destruct (str_eqb _ _). Qed.

Lemma count_status_partition (l : list ValidationResult) :
  Forall (fun r => status r = MATCH \/ status r = PRICE_DIFF
                   \/ status r = NOT_FOUND \/ status r = NO_PRICE) l ->
  count_status MATCH l + count_status PRICE_DIFF l
  + count_status NOT_FOUND l + count_status NO_PRICE l = length l.
Proof.
  induction 1 as [|r l Hr _ IH]; [done|].
  rewrite !count_status_cons. cbn [length].
  destruct Hr as [Hr|[Hr|[Hr|Hr]]]; rewrite Hr;
    repeat match goal with
           | |- context [str_eqb ?a ?b] =>
             let v := eval vm_compute in (str_eqb a b) in
             change (str_eqb a b) with v
           end; lazy beta iota; lia.
Qed.

(** X14. The four counts that [_log_summary] reports for the results of
    [validate_products] (correct, price difference, not found, no price)
    add up to the number of results: every result is counted once. *)
Theorem log_summary_counts_every_result (productos : list Producto.t) :
  match validate_products tolerance search_limit similarity_threshold
          encode client_search productos tienda_id with
  | Ok results =>
    count_status MATCH results + count_status PRICE_DIFF results
    + count_status NOT_FOUND results + count_status NO_PRICE results
    = length results
  | Raise _ => True
  end.
Proof.
  unfold validate_products.
  destruct (search_products_batch _ _ _ _ _ _) as [m|e]; cbn [mbind res_bind]; [|done].
  rewrite foldl_snoc_map, app_nil_l. apply count_status_partition.
  apply List.Forall_map, Forall_forall. intros p _. apply validate_product_status.
Qed.

End ValidateProductsMore.

Lemma validate_products_missing_name_witness :
  exists results,
    validate_products (PRICE_TOLERANCE_PERCENT / 100) SEARCH_LIMIT
      SIMILARITY_THRESHOLD sample_encode generous_search
      [sample_product "HARINA" 20; unnamed_product] 100 = Ok results
    /\ results !! 1%nat =
         Some (mkValidationResult (py "DESCONOCIDO") (Producto.precio unnamed_product)
                 None None WARNING_SIGN None NOT_FOUND None).
Proof.
  apply (validate_products_missing_name (PRICE_TOLERANCE_PERCENT / 100)
           SEARCH_LIMIT SIMILARITY_THRESHOLD sample_encode generous_search 100
           [sample_product "HARINA" 20; unnamed_product] 1 unnamed_product).
  - intros q _. unfold generous_search. eauto.
  - reflexivity.
  - reflexivity.
  - intros q [->|[->|?%elem_of_nil]%elem_of_cons]%elem_of_cons; [| |done];
      vm_compute; discriminate.
Defined.

(** ** Deduplication of the results *)

Lemma keep_new_keys_distinct {A} (key : A -> option pystr) (l : list A)
    (seen : gset pystr) :
  NoDup (omap key (keep_new key seen l)).
Proof.
  revert seen. induction l as [|x l IH]; intros seen; simpl; [constructor|].
  destruct (key x) as [k|] eqn:Hk; [|apply IH].
  case_bool_decide as Hin; [apply IH|].
  simpl. rewrite Hk. constructor; [|apply IH].
  intros (y & Hy & Hyk)%list_elem_of_omap.
  apply keep_new_fresh in Hy as (k' & Hk' & Hfresh).
  apply Hfresh. rewrite Hk' in Hyk. injection Hyk as ->.
  apply elem_of_union. left. by apply elem_of_singleton.
Qed.

Lemma omap_all_some {A B} (f : A -> option B) (g : A -> B) (l : list A) :
  Forall (fun x => f x = Some (g x)) l -> omap f l = map g l.
Proof.
  induction 1 as [|x l Hx _ IH]; [done|].
  cbn [omap list_omap map]. rewrite Hx. f_equal. exact IH.
Qed.

(** X15. [_deduplicate_results] returns a subsequence of the results: the
    first result of each key (the catalog name when there is one, else the
    name read, upper case and trimmed); the keys of the results kept are
    pairwise distinct, and none is empty, NULL or NONE. *)
Theorem deduplicate_results_distinct (validaciones : list ValidationResult) :
  _deduplicate_results validaciones
  = first_occurrences result_dedup_key validaciones
  /\ sublist (_deduplicate_results validaciones) validaciones
  /\ NoDup (map result_key (_deduplicate_results validaciones))
  /\ Forall (fun v => result_key v <> [] /\ result_key v <> py "NULL"
                      /\ result_key v <> py "NONE")
            (_deduplicate_results validaciones).
Proof.
  rewrite deduplicate_results_keep_new.
  split; [apply keep_new_first_occurrences, keys_of_nil|].
  split; [apply keep_new_sublist|].
  assert (Forall (fun v => result_dedup_key v = Some (result_key v))
            (keep_new result_dedup_key ∅ validaciones)) as Hkeys.
  { apply Forall_forall. intros v (k & Hk & _)%keep_new_fresh.
    rewrite Hk. unfold result_dedup_key in Hk.
    destruct (_ || _); [done|]. by injection Hk as <-. }
  split.
  - assert (omap result_dedup_key (keep_new result_dedup_key ∅ validaciones)
            = map result_key (keep_new result_dedup_key ∅ validaciones)) as Hmap.
    { by apply omap_all_some. }
    rewrite <- Hmap. apply keep_new_keys_distinct.
  - eapply Forall_impl; [exact Hkeys|]. intros v Hv. simpl in Hv.
    unfold result_dedup_key in Hv.
    destruct (bool_decide (result_key v = [])) eqn:H1; [done|].
    destruct (str_eqb (result_key v) (py "NULL")) eqn:H2; [done|].
    destruct (str_eqb (result_key v) (py "NONE")) eqn:H3; [done|].
    apply bool_decide_eq_false in H1, H2, H3. done.
Qed.

(** ** Substitution of a character class *)

Section ClassSubstitution.

Variable neg : bool.
Variable items : list cls_item.

Let hit (c : N) : bool := cls_match false neg items c.





End ClassSubstitution.

(** ** Prices *)




(** X17. The only exception that [_parse_price] raises is OverflowError, and
    only for an integer too large for a float; every other value gives a
    price or no price. *)
Theorem parse_price_raises_only_overflow (price : json) (e : exn) :
  _parse_price price = Raise e ->
  e = OverflowError
  /\ exists z, price = JInt z /\ float_of_int z = Raise OverflowError.
Proof.
  destruct price as [|b|z|f|s|l|d]; simpl; try done.
  - unfold float_of_int. destruct (is_infinity _) eqn:Hinf; simpl; [|done].
    intros [= <-]. split; [done|]. exists z. split; [done|].
    unfold float_of_int. by rewrite Hinf.
  - destruct (_ || _); [done|].
    by destruct (re_sub false (Cls true [CDigit; CChar 46]) [] s).
Qed.

Lemma parse_price_raises_only_overflow_witness :
  OverflowError = OverflowError
  /\ exists z, JInt (10 ^ 309) = JInt z /\ float_of_int z = Raise OverflowError.
Proof.
  apply (parse_price_raises_only_overflow (JInt (10 ^ 309)) OverflowError).
  vm_compute. reflexivity.
Defined.

(** ** The records of a response *)

Section ResponseRecords.

Variable py_repr : json -> pystr.

Lemma flatten_productos_usable categoria productos flat :
  flatten_productos py_repr categoria productos = Ok flat -> Forall named flat.
Proof.
  revert flat. induction productos as [|producto rest IH]; intros flat;
    cbn [flatten_productos].
  - intros [= <-]. constructor.
  - destruct producto as [| | | | |l|d]; try exact (IH flat).
    case_bool_decide as Hname; cbn [negb andb]; [exact (IH flat)|].
    destruct (str_eqb _ _) eqn:Hnull; cbn [negb]; [exact (IH flat)|].
    destruct (_parse_price _) as [precio|e]; cbn [mbind res_bind]; [|done].
    destruct (flatten_productos _ _ rest) as [more|e]; cbn [mbind res_bind]; [|done].
    intros [= <-]. constructor; [|by apply IH].
    eexists. split; [reflexivity|]. split; [done|].
    split; [by apply bool_decide_eq_false in Hnull|apply strip_idempotent].
Qed.

Lemma flatten_secciones_usable data flat :
  flatten_secciones py_repr data = Ok flat -> Forall named flat.
Proof.
  revert flat. induction data as [|seccion rest IH]; intros flat;
    cbn [flatten_secciones].
  - intros [= <-]. constructor.
  - destruct seccion as [| | | | |l|d]; try exact (IH flat).
    destruct (py_iter _) as [items|e]; cbn [mbind res_bind]; [|done].
    destruct (flatten_productos _ _ items) as [flat1|e] eqn:H1;
      cbn [mbind res_bind]; [|done].
    destruct (flatten_secciones _ rest) as [more|e]; cbn [mbind res_bind]; [|done].
    intros [= <-]. apply Forall_app. split; [|by apply IH].
    by eapply flatten_productos_usable.
Qed.

(** X18. When the response, without its code fence, parses as JSON, directly
    or after the repair, every record that [_parse_gemini_response] returns
    has a usable name: present, not empty, not NULL, and trimmed. *)
Theorem parse_gemini_response_names (text : pystr) (flat : list Producto.t) :
  json_loads (strip_fences text) <> None
  \/ _repair_truncated_json (strip_fences text) <> JNull ->
  _parse_gemini_response py_repr text = Ok flat ->
  Forall named flat.
Proof.
  intros Hparsed. unfold _parse_gemini_response. fold (strip_fences text).
  destruct (json_loads (strip_fences text)) as [data|].
  - destruct data; try apply flatten_secciones_usable.
    intros [= <-]. constructor.
  - destruct Hparsed as [?|Hrepair]; [done|].
    destruct (_repair_truncated_json (strip_fences text));
      try apply flatten_secciones_usable. done.
Qed.

End ResponseRecords.

Lemma parse_gemini_response_names_witness :
  Forall named
    [Producto.mk (Some (py "PAN  BIMBO")) (Some 12.5%float) (JStr (py "500g"))
       (JStr (py "Panes")) JNull].
Proof.
  apply (parse_gemini_response_names (fun _ => [])
           (pyq "```json
[{'categoria': 'Panes', 'productos': [{'nombre': ' pan  Bimbo ', 'precio': '$12.50', 'presentacion': '500g'}, {'nombre': 'null', 'precio': 3}]}]
```")).
  - left. vm_compute. discriminate.
  - vm_compute. reflexivity.
Defined.

(** ** When a result has no price or no match *)

Section ValidateProductsStatus.

Context {Embedding : Type}.
Variable tolerance : float.
Variable search_limit : Z.
Variable similarity_threshold : float.
Variable encode : pystr -> Embedding.
Variable client_search :
  Embedding -> option pystr -> Z -> float -> res (list Hit.t).
Variable tienda_id : Z.

Lemma validate_product_no_price (m : gmap pystr (list ProductMatch.t))
    (p : Producto.t) :
  let r := validate_product tolerance m p in
  (status r = NOT_FOUND <-> producto_sistema r = None)
  /\ (status r = NO_PRICE <->
        Producto.precio p = None /\ producto_sistema r <> None).
Proof.
  destruct statuses_distinct as (D1 & D2 & D3 & D4 & D5 & D6).
  cbv zeta. unfold validate_product, _compare_prices.
  destruct (default [] _) as [|best rest];
    [|destruct (Producto.precio p) as [precio|];
      [destruct (_prices_match _ _ _)|]];
    cbn [status producto_sistema Comparison.status];
    (split; split; intros H; try congruence; try done);
    try (destruct H as [H1 H2]; congruence).
Qed.

(** X19. In the results of [validate_products], a result is NOT_FOUND
    exactly when it carries no catalog name, and NO_PRICE exactly when a
    catalog match was found for a product that has no price: the catalog
    side never lacks a price. *)
Theorem validate_products_no_price (productos : list Producto.t) :
  match validate_products tolerance search_limit similarity_threshold
          encode client_search productos tienda_id with
  | Ok results =>
    forall i p r, productos !! i = Some p -> results !! i = Some r ->
      (status r = NOT_FOUND <-> producto_sistema r = None)
      /\ (status r = NO_PRICE <->
            Producto.precio p = None /\ producto_sistema r <> None)
  | Raise _ => True
  end.
Proof.
  unfold validate_products.
  destruct (search_products_batch _ _ _ _ _ _) as [m|e]; cbn [mbind res_bind]; [|done].
  rewrite foldl_snoc_map, app_nil_l. intros i p r Hi.
  rewrite lookup_map, Hi. simpl. intros [= <-]. apply validate_product_no_price.
Qed.

Lemma extract_products_regex_priced (text : pystr) :
  Forall (fun p => exists n f,
            Producto.nombre p = Some n /\ strip n = n
            /\ Producto.precio p = Some f
            /\ Producto.presentacion p = JStr []
            /\ Producto.categoria p = JStr (py "General")
            /\ Producto.observaciones p = JNull)
         (_extract_products_regex text).
Proof.
  unfold _extract_products_regex. apply foldl_invariant; [constructor|].
  intros productos [nombre precio] _ Hps.
  destruct (float_of_str precio) as [f|]; [|done].
  apply Forall_app. split; [done|]. repeat constructor.
  exists (strip (upper nombre)), f. repeat split. apply strip_idempotent.
Qed.

(** X20. Every record that the regex fallback [_extract_products_regex]
    recovers carries a price, so [validate_products] never reports NO_PRICE
    for the products recovered that way. *)
Theorem regex_products_never_no_price (text : pystr) :
  Forall (fun p => exists f, Producto.precio p = Some f)
         (_extract_products_regex text)
  /\ match validate_products tolerance search_limit similarity_threshold
             encode client_search (_extract_products_regex text) tienda_id with
     | Ok results => Forall (fun r => status r <> NO_PRICE) results
     | Raise _ => True
     end.
Proof.
  assert (Forall (fun p => exists f, Producto.precio p = Some f)
            (_extract_products_regex text)) as Hpriced.
  { eapply Forall_impl; [apply extract_products_regex_priced|].
    intros p (n & f & _ & _ & Hf & _). eauto. }
  split; [exact Hpriced|].
  unfold validate_products.
  destruct (search_products_batch _ _ _ _ _ _) as [m|e]; cbn [mbind res_bind];
    [|done].
  rewrite foldl_snoc_map, app_nil_l.
  apply Forall_forall. intros r [p [<- Hp]]%list_elem_of_In%in_map_iff.
  destruct (validate_product_no_price m p) as [_ Hno]. intros [Hnone _]%Hno.
  rewrite Forall_forall in Hpriced.
  destruct (Hpriced p) as [f Hf]; [by apply list_elem_of_In|]. congruence.
Qed.

End ValidateProductsStatus.

(** ** The analysis of an image *)

Lemma deduplicate_products_valid (products : list Producto.t) :
  Forall (fun p => product_name p <> [] /\ ~ In (product_name p) invalid_names)
         (_deduplicate_products products)
  /\ NoDup (map product_key (_deduplicate_products products)).
Proof.
  rewrite deduplicate_products_keep_new.
  assert (Forall (fun p => product_dedup_key p = Some (product_key p)
                           /\ product_name p <> []
                           /\ ~ In (product_name p) invalid_names)
            (keep_new product_dedup_key ∅ products)) as Hkeys.
  { apply Forall_forall. intros p (k & Hk & _)%keep_new_fresh.
    unfold product_dedup_key in *.
    destruct (bool_decide (product_name p = [])) eqn:H1; [done|].
    destruct (existsb _ _) eqn:H2; [done|]. cbn [orb] in *.
    split; [done|]. split; [by apply bool_decide_eq_false in H1|].
    intros Hin. apply not_true_iff_false in H2. apply H2.
    apply existsb_exists. exists (product_name p). split; [done|].
    by apply bool_decide_eq_true. }
  split.
  - eapply Forall_impl; [exact Hkeys|]. by intros p (_ & ? & ?).
  - rewrite <- (omap_all_some product_dedup_key).
    + apply keep_new_keys_distinct.
    + eapply Forall_impl; [exact Hkeys|]. by intros p (? & _).
Qed.

Section AnalyzeFacts.

Variable py_repr : json -> pystr.
Variable generate_content : pystr -> pystr -> list N -> res GeminiResponse.t.

(** X21. The products that [analyze_shelf_image] returns all have a usable
    name (not empty and none of NULL, NONE, NO VISIBLE, NO LEGIBLE once
    upper-cased and trimmed) and pairwise distinct keys, also when the
    response was recovered by the regex fallback. *)
Theorem analyze_shelf_image_valid (image_bytes : list N)
    (products : list Producto.t) :
  analyze_shelf_image py_repr generate_content image_bytes = Ok products ->
  Forall (fun p => product_name p <> [] /\ ~ In (product_name p) invalid_names)
         products
  /\ NoDup (map product_key products).
Proof.
  unfold analyze_shelf_image.
  destruct (generate_content _ _ _) as [response|e]; cbn [mbind res_bind]; [|done].
  destruct (GeminiResponse.text response) as [text|e]; cbn [mbind res_bind]; [|done].
  destruct (_parse_gemini_response _ _) as [ps|e]; cbn [mbind res_bind]; [|done].
  intros [= <-]. apply deduplicate_products_valid.
Qed.

(** X22. The two entry points of the analysis agree: on every image,
    [analyze_shelf_image_with_tokens] raises exactly the error that
    [analyze_shelf_image] raises, or returns the same products, with the
    token count of the response (0 when the response gives none). *)
Theorem analyze_with_tokens_agrees (image_bytes : list N) :
  match analyze_shelf_image_with_tokens py_repr generate_content image_bytes with
  | Ok (products, tokens) =>
    analyze_shelf_image py_repr generate_content image_bytes = Ok products
    /\ exists response,
         generate_content EXTRACTION_PROMPT (_detect_mime_type image_bytes)
           image_bytes = Ok response
         /\ tokens = match GeminiResponse.usage_metadata response with
                     | Some (Some n) => n
                     | _ => 0%Z
                     end
  | Raise e =>
    analyze_shelf_image py_repr generate_content image_bytes = Raise e
  end.
Proof.
  unfold analyze_shelf_image_with_tokens, analyze_shelf_image.
  destruct (generate_content _ _ _) as [response|e]; cbn [mbind res_bind]; [|done].
  destruct (GeminiResponse.text response) as [text|e]; cbn [mbind res_bind]; [|done].
  destruct (_parse_gemini_response _ _) as [ps|e]; cbn [mbind res_bind]; [|done].
  split; [done|]. exists response. split; [done|].
  by destruct (GeminiResponse.usage_metadata response) as [[n|]|].
Qed.

End AnalyzeFacts.

Lemma analyze_shelf_image_valid_witness :
  Forall (fun p => product_name p <> [] /\ ~ In (product_name p) invalid_names)
         [Producto.mk (Some (py "PAN")) (Some 12.5%float) (JStr [])
            (JStr (py "General")) JNull]
  /\ NoDup (map product_key
              [Producto.mk (Some (py "PAN")) (Some 12.5%float) (JStr [])
                 (JStr (py "General")) JNull]).
Proof.
  apply (analyze_shelf_image_valid (fun _ => []) sample_model [255%N; 216%N; 0%N]).
  vm_compute. reflexivity.
Defined.

(** ** Texts without digits *)













(** ** Runs of white space *)

Lemma collapse_from_run (s : pystr) :
  collapse_from true s = collapse_from false (lstrip s).
Proof.
  induction s as [|c s IH]; [done|]. cbn [collapse_from lstrip].
  destruct (isspace c) eqn:Hc; [exact IH|].
  cbn [collapse_from]. by rewrite Hc.
Qed.

Lemma lstrip_length (s : pystr) : length (lstrip s) <= length s.
Proof.
  induction s as [|c s IH]; [done|]. cbn [lstrip].
  destruct (isspace c); simpl; lia.
Qed.

Lemma star_loop_S (ic greedy : bool) (r1 : regex)
    (k : mstate -> option mstate) (n : nat) (s0 : mstate) :
  star_loop ic greedy r1 k (S n) s0
  = (let again :=
       rmatch ic r1 s0 (fun s1 =>
         if (length (after s1) <? length (after s0))%nat
         then star_loop ic greedy r1 k n s1 else None) in
     if greedy then or_else again (k s0) else or_else (k s0) again).
Proof. reflexivity. Qed.

(** The greedy repetition of the white space class stops after the run. *)
Lemma star_loop_space (n : nat) (s : mstate) :
  length (after s) < n ->
  exists bef,
    star_loop false true Space Some n s
    = Some (MState bef (lstrip (after s)) (groups s)).
Proof.
  revert s. induction n as [|n IH]; intros s Hn; [lia|].
  rewrite star_loop_S. cbv zeta. unfold Space at 1. cbn [rmatch].
  destruct (after s) as [|c r] eqn:Ha.
  - cbn [or_else lstrip]. exists (before s). destruct s. simpl in *. by subst.
  - unfold cls_match. cbn [existsb item_match andb orb lstrip].
    rewrite !orb_false_r. destruct (isspace c) eqn:Hc.
    + cbn [step after]. simpl in Hn.
      assert ((length r <? length (after s))%nat = true) as Hlt
        by (apply Nat.ltb_lt; rewrite Ha; simpl; lia).
      rewrite Ha in Hlt. rewrite Hlt.
      destruct (IH (MState (c :: before s) r (groups s))) as [bef Hloop];
        [simpl; lia|].
      unfold step. rewrite Hloop. cbn [or_else after groups]. by exists bef.
    + cbn [or_else]. exists (before s). destruct s. simpl in *. by subst.
Qed.

Lemma rmatch_spaces (s : mstate) :
  rmatch false Sp1 s Some
  = match after s with
    | [] => None
    | c :: r =>
      if isspace c
      then star_loop false true Space Some (S (length r)) (step c r s)
      else None
    end.
Proof.
  unfold Sp1, Plus, Space. cbn [rmatch]. destruct (after s) as [|c r]; [done|].
  unfold cls_match. cbn [existsb item_match andb orb]. rewrite !orb_false_r.
  by destruct (isspace c).
Qed.

Lemma search_from_spaces (aft bef : pystr) :
  match search_from false Sp1 bef aft with
  | None => Forall (fun c => isspace c = false) aft
  | Some m =>
    exists pre y post,
      aft = pre ++ y :: post
      /\ Forall (fun c => isspace c = false) pre
      /\ isspace y = true
      /\ m_from m = y :: post
      /\ after (m_final m) = lstrip post
  end.
Proof.
  revert bef. induction aft as [|x rest IH]; intros bef.
  - cbn. constructor.
  - cbn [search_from]. rewrite rmatch_spaces. cbn [after].
    destruct (isspace x) eqn:Hx.
    + unfold step. cbn [before groups].
      destruct (star_loop_space (S (length rest)) (MState (x :: bef) rest []))
        as [b Hloop]; [simpl; lia|].
      cbn [after groups] in Hloop. rewrite Hloop.
      exists [], x, rest. by repeat split.
    + specialize (IH (x :: bef)).
      destruct (search_from false Sp1 (x :: bef) rest) as [m|].
      * destruct IH as (pre & y & post & -> & Hpre & Hy & Hfrom & Hafter).
        exists (x :: pre), y, post. repeat split; try done. by constructor.
      * by constructor.
Qed.

Lemma collapse_from_prefix (pre s : pystr) :
  Forall (fun c => isspace c = false) pre ->
  collapse_from false (pre ++ s) = pre ++ collapse_from false s.
Proof.
  induction 1 as [|c pre Hc _ IH]; [done|].
  cbn [app collapse_from]. by rewrite Hc, IH.
Qed.

(** Replacing the runs of white space by one space, as the matcher does it. *)
Lemma sub_loop_spaces (n : nat) (bef aft : pystr) :
  length aft < n ->
  sub_loop n false Sp1 (py " ") bef aft = collapse_from false aft.
Proof.
  revert bef aft. induction n as [|n IH]; intros bef aft Hn; [lia|].
  cbn [sub_loop]. pose proof (search_from_spaces aft bef) as Hs.
  destruct (search_from false Sp1 bef aft) as [m|].
  - destruct Hs as (pre & y & post & -> & Hpre & Hy & Hfrom & Hafter).
    rewrite Hfrom, Hafter. rewrite length_app. cbn [length].
    replace (length pre + S (length post) - S (length post)) with (length pre) by lia.
    rewrite take_app_length.
    assert ((length (lstrip post) <? S (length post))%nat = true) as ->.
    { apply Nat.ltb_lt. pose proof (lstrip_length post). lia. }
    rewrite IH.
    + rewrite collapse_from_prefix by done. cbn [collapse_from]. rewrite Hy.
      by rewrite collapse_from_run.
    + rewrite length_app in Hn. simpl in Hn. pose proof (lstrip_length post). lia.
  - clear Hn. induction Hs as [|c aft Hc _ IHs]; [done|].
    cbn [collapse_from]. by rewrite Hc, <- IHs.
Qed.

Lemma re_sub_spaces (s : pystr) :
  re_sub false Sp1 (py " ") s = collapse_from false s.
Proof. unfold re_sub. apply sub_loop_spaces. lia. Qed.

Lemma split_ws_loop_nil (s cur : pystr) :
  split_ws_loop cur s = [] ->
  cur = [] /\ Forall (fun c => isspace c = true) s.
Proof.
  revert cur. induction s as [|c r IH]; intros cur; cbn [split_ws_loop].
  - by destruct cur.
  - destruct (isspace c) eqn:Hc.
    + destruct cur; [|done]. intros [_ Hr]%IH. split; [done|by constructor].
    + by intros [? _]%IH.
Qed.

Lemma all_space_last (s : pystr) :
  Forall (fun c => isspace c = true) s -> s <> [] ->
  exists c, last s = Some c /\ isspace c = true.
Proof.
  induction 1 as [|x s Hx Hs IH]; intros Hne; [done|].
  destruct s as [|y s]; [by exists x|].
  destruct IH as (c & Hlast & Hc); [done|]. by exists c.
Qed.

Lemma join_cons (sep p : pystr) (rest : list pystr) :
  rest <> [] -> join sep (p :: rest) = p ++ sep ++ join sep rest.
Proof. by destruct rest. Qed.

(** Splitting at white space and joining with one space, on a text that
    does not end in white space. *)
Lemma join_split_ws_loop (s cur : pystr) :
  (forall c, last s = Some c -> isspace c = false) ->
  join [32%N] (split_ws_loop cur s)
  = match cur with
    | [] => collapse_from false (lstrip s)
    | _ => rev cur ++ collapse_from false s
    end.
Proof.
  revert cur. induction s as [|c r IH]; intros cur Hlast.
  - cbn [split_ws_loop lstrip collapse_from].
    destruct cur; [done|]. cbn [join]. by rewrite app_nil_r.
  - assert (forall x, last r = Some x -> isspace x = false) as Hr.
    { intros x Hx. apply Hlast. by destruct r. }
    cbn [split_ws_loop lstrip collapse_from].
    destruct (isspace c) eqn:Hc.
    + destruct cur as [|x cur]; [by rewrite IH|].
      rewrite join_cons.
      * rewrite IH by done. by rewrite collapse_from_run.
      * intros [_ Hall]%split_ws_loop_nil.
        destruct r as [|y r].
        -- specialize (Hlast c eq_refl). congruence.
        -- destruct (all_space_last _ Hall) as (z & Hz & Hzs); [done|].
           specialize (Hr z Hz). congruence.
    + rewrite IH by done.
      destruct cur as [|x cur]; [cbn [collapse_from]; by rewrite Hc|].
      change (rev (c :: x :: cur)) with (rev (x :: cur) ++ [c]).
      by rewrite <- app_assoc.
Qed.

Lemma normalize_text_collapse (text : pystr) :
  _normalize_text text = collapse_from false (strip (upper text)).
Proof.
  destruct text as [|c text]; [done|]. unfold _normalize_text, split_ws.
  change (py " ") with [32%N].
  rewrite join_split_ws_loop by apply strip_last.
  destruct (strip (upper (c :: text))) as [|x t] eqn:Ht; [done|].
  rewrite lstrip_nonspace; [done|]. apply (strip_head (upper (c :: text))).
  by rewrite Ht.
Qed.

(** X24. The key under which [_deduplicate_products] recognises a repeated
    product is the text that [generate_embeddings_batch] hands to the
    embedding model for that product's name: the regular-expression
    replacement of one and the split-and-join of the other agree on every
    name, so two products are duplicates exactly when their names give the
    same normalised query. *)
Theorem product_key_is_normalized_query (p : Producto.t) :
  product_key p = _normalize_text (default [] (Producto.nombre p)).
Proof.
  unfold product_key, product_name.
  change (Plus Space) with Sp1.
  by rewrite re_sub_spaces, normalize_text_collapse.
Qed.

(** ** Storing products *)

Section AddProductsFacts.

Context {Embedding : Type}.
Variable encode : pystr -> Embedding.
Variable client_upsert : list (PointStruct.t Embedding) -> res unit.

(** The upsert loop over the batch starts from [i] on: the new batches are
    consecutive slices of the points from [i]. *)
Lemma upsert_batches_from (points : list (PointStruct.t Embedding))
    (fuel i : nat) (upserted : list (list (PointStruct.t Embedding))) :
  length points - i <= fuel ->
  exists new,
    (upsert_batches client_upsert points
       (range_from fuel i (length points) batch_size) upserted).1
    = upserted ++ new
    /\ Forall (fun b => 0 < length b <= batch_size) new
    /\ concat new `prefix_of` drop i points
    /\ match (upsert_batches client_upsert points
                (range_from fuel i (length points) batch_size) upserted).2 with
       | Ok _ => concat new = drop i points
       | Raise _ =>
         length (concat new) < length points - i
         /\ length (concat new) mod batch_size = 0
       end.
Proof.
  revert i upserted. induction fuel as [|fuel IH]; intros i upserted Hfuel.
  - exists []. cbn [range_from upsert_batches fst snd concat].
    rewrite app_nil_r. repeat split; [constructor|apply prefix_nil|].
    symmetry. apply drop_ge. lia.
  - cbn [range_from]. destruct (i <? length points) eqn:Hi.
    + apply Nat.ltb_lt in Hi. cbn [upsert_batches].
      unfold slice. replace (i + batch_size - i) with batch_size by lia.
      set (batch := take batch_size (drop i points)).
      assert (length batch = Nat.min batch_size (length points - i)) as Hlen
        by (unfold batch; by rewrite length_take, length_drop).
      assert (drop i points = batch ++ drop (i + batch_size) points) as Hsplit.
      { unfold batch. rewrite <- drop_drop. by rewrite take_drop. }
      destruct (client_upsert batch) as [[]|e].
      * destruct (IH (i + batch_size) (upserted ++ [batch]))
          as (new & Hout & Hall & Hpre & Hres); [unfold batch_size; lia|].
        exists (batch :: new). rewrite Hout, <- app_assoc. cbn [app concat].
        split; [done|]. split.
        { constructor; [|done]. unfold batch_size in *. lia. }
        split; [rewrite Hsplit; by apply prefix_app|].
        destruct (upsert_batches _ _ _ _).2 as [[]|e].
        -- by rewrite Hres, Hsplit.
        -- destruct Hres as [Hlt Hmod]. rewrite length_app.
           assert (length batch = batch_size) as Hfull
             by (unfold batch_size in *; lia).
           rewrite Hfull. split; [unfold batch_size in *; lia|].
           rewrite <- Nat.Div0.add_mod_idemp_l, Nat.Div0.mod_same. exact Hmod.
      * exists []. cbn [fst snd concat length]. rewrite app_nil_r.
        repeat split; [constructor|apply prefix_nil|lia].
    + apply Nat.ltb_ge in Hi. exists [].
      cbn [upsert_batches fst snd concat]. rewrite app_nil_r.
      repeat split; [constructor|apply prefix_nil|].
      symmetry. by apply drop_ge.
Qed.

Lemma make_point_lookup (products : list Payload.t) (file_id : pystr)
    (i : nat) (pt : PointStruct.t Embedding) :
  imap (make_point file_id)
       (zip products
            (generate_embeddings_batch encode
               (map (fun p => default [] (Payload.nombre p)) products))) !! i
  = Some pt ->
  exists p,
    products !! i = Some p
    /\ pt = make_point file_id i
              (p, encode (_normalize_text (default [] (Payload.nombre p)))).
Proof.
  rewrite generate_embeddings_batch_map, list_lookup_imap.
  rewrite lookup_zip_with, !lookup_map.
  destruct (products !! i) as [p|]; [|done]. cbn. intros [= <-]. by exists p.
Qed.

Lemma points_length (products : list Payload.t) (file_id : pystr) :
  length (imap (make_point file_id)
            (zip products
               (generate_embeddings_batch encode
                  (map (fun p => default [] (Payload.nombre p)) products))))
  = length products.
Proof.
  rewrite generate_embeddings_batch_map, length_imap, length_zip_with.
  rewrite !length_map. lia.
Qed.

(** X25. [add_products] upserts the points in batches of one to a hundred.
    The points that were upserted are, in order, the points of the first
    products: the point at position [i] has the id made of the file id and
    [i], the embedding of the normalised name of product [i], and its name,
    price and store with the defaults for missing ones. When the call
    returns, every product has been upserted exactly once and the count
    returned is the number of products; when an upsert raises, the batches
    before it stay upserted: a whole number of full batches, fewer points
    than there are products. *)
Theorem add_products_batches (products : list Payload.t) (file_id : pystr) :
  match add_products encode client_upsert products file_id with
  | (upserted, r) =>
    Forall (fun b => 0 < length b <= 100) upserted
    /\ (forall i pt,
          concat upserted !! i = Some pt ->
          exists p,
            products !! i = Some p
            /\ PointStruct.id pt = point_id file_id i
            /\ PointStruct.vector pt
               = encode (_normalize_text (default [] (Payload.nombre p)))
            /\ PointStruct.file_id pt = file_id
            /\ Payload.nombre (PointStruct.payload pt)
               = Some (default [] (Payload.nombre p))
            /\ Payload.precio (PointStruct.payload pt)
               = Some (default 0%float (Payload.precio p))
            /\ Payload.tienda_id (PointStruct.payload pt)
               = Some (default [] (Payload.tienda_id p))
            /\ Payload.codigo (PointStruct.payload pt) = Payload.codigo p
            /\ Payload.categoria (PointStruct.payload pt) = Payload.categoria p
            /\ Payload.presentacion (PointStruct.payload pt)
               = Payload.presentacion p)
    /\ match r with
       | Ok n =>
         n = Z.of_nat (length products)
         /\ length (concat upserted) = length products
       | Raise _ =>
         length (concat upserted) < length products
         /\ length (concat upserted) mod 100 = 0
       end
  end.
Proof.
  unfold add_products.
  destruct products as [|p0 products'] eqn:Hproducts.
  { cbn. split; [constructor|]. split; [by intros [|i] pt|done]. }
  rewrite <- Hproducts. clear Hproducts p0 products'.
  set (points := imap (make_point file_id) _).
  destruct (upsert_batches_from points (length points) 0 [])
    as (new & Hout & Hall & Hpre & Hres); [lia|].
  unfold py_range. cbn [app] in Hout. rewrite drop_0 in Hpre, Hres.
  rewrite Hout. split; [exact Hall|]. split.
  - intros i pt Hi.
    assert (points !! i = Some pt) as Hpt by (by eapply prefix_lookup_Some).
    apply make_point_lookup in Hpt as (p & Hp & ->). by exists p.
  - pose proof (points_length products file_id) as Hlen. fold points in Hlen.
    destruct (upsert_batches _ _ _ _).2 as [[]|e]; cbn.
    + by rewrite Hres, Hlen.
    + rewrite <- Hlen. unfold batch_size in Hres. split; [lia|tauto].
Qed.

End AddProductsFacts.

(** ** Point identifiers *)

Lemma utf8_decode_ascii (bs : list N) :
  Forall (fun b => (b < 128)%N) bs -> utf8_decode bs = bs.
Proof.
  induction 1 as [|b bs Hb _ IH]; [done|]. cbn [utf8_decode].
  apply N.ltb_lt in Hb. by rewrite Hb, IH.
Qed.

Lemma string_of_uint_digits (d : Decimal.uint) :
  Forall (fun c => isdigit c = true)
    (map N_of_ascii (list_ascii_of_string (NilEmpty.string_of_uint d))).
Proof. induction d; cbn [NilEmpty.string_of_uint]; by constructor. Qed.

Lemma isdigit_ascii (c : N) : isdigit c = true -> (c < 128)%N /\ c <> 95%N.
Proof. unfold isdigit, in_range. intros H. bool_to_prop. lia. Qed.

(** The decimal text of a natural number: digits only, and one text for one
    number. *)
Lemma str_of_nat_digits (i : nat) :
  str_of_int (Z.of_nat i)
  = map N_of_ascii
      (list_ascii_of_string (NilZero.string_of_int (Z.to_int (Z.of_nat i))))
  /\ Forall (fun c => isdigit c = true) (str_of_int (Z.of_nat i)).
Proof.
  assert (Forall (fun c => isdigit c = true)
            (map N_of_ascii
               (list_ascii_of_string
                  (NilZero.string_of_int (Z.to_int (Z.of_nat i)))))) as Hd.
  { destruct (Z.of_nat i) as [|p|p] eqn:Hi; [by repeat constructor| |lia].
    cbn [Z.to_int NilZero.string_of_int]. unfold NilZero.string_of_uint.
    pose proof (DecimalPos.Unsigned.to_uint_nonnil p) as Hp.
    destruct (Pos.to_uint p) eqn:Hu; [done|..];
      rewrite <- Hu; apply string_of_uint_digits. }
  assert (str_of_int (Z.of_nat i)
          = map N_of_ascii
              (list_ascii_of_string
                 (NilZero.string_of_int (Z.to_int (Z.of_nat i))))) as Heq.
  { unfold str_of_int, py. apply utf8_decode_ascii.
    eapply Forall_impl; [exact Hd|]. intros c Hc. by apply isdigit_ascii. }
  split; [exact Heq|]. by rewrite Heq.
Qed.

Lemma map_N_of_ascii_inj (a b : list ascii) :
  map N_of_ascii a = map N_of_ascii b -> a = b.
Proof.
  revert b. induction a as [|x a IH]; intros [|y b]; try done.
  cbn [map]. intros [= Hxy Hab]. f_equal; [|by apply IH].
  by rewrite <- (ascii_N_embedding x), <- (ascii_N_embedding y), Hxy.
Qed.

Lemma str_of_nat_inj (i j : nat) :
  str_of_int (Z.of_nat i) = str_of_int (Z.of_nat j) -> i = j.
Proof.
  rewrite (proj1 (str_of_nat_digits i)), (proj1 (str_of_nat_digits j)).
  intros H%map_N_of_ascii_inj.
  apply (f_equal string_of_list_ascii) in H.
  rewrite !string_of_list_ascii_of_string in H.
  assert (forall z, (0 <= z)%Z ->
            NilZero.int_of_string (NilZero.string_of_int (Z.to_int z))
            = Some (Z.to_int z)) as Hround.
  { intros z Hz. apply NilZero.isi.
    - destruct z as [|p|p]; cbn [Z.to_int]; [done| |done].
      intros [= Hp]. by apply (DecimalPos.Unsigned.to_uint_nonnil p).
    - destruct z as [|p|p]; cbn [Z.to_int]; [done|done|lia]. }
  assert (Some (Z.to_int (Z.of_nat i)) = Some (Z.to_int (Z.of_nat j))) as Hz.
  { rewrite <- !Hround by lia. by rewrite H. }
  injection Hz as Hz. apply DecimalZ.to_int_inj in Hz. lia.
Qed.

Lemma split_at_last_mark (x : N) (f1 f2 d1 d2 : pystr) :
  x ∉ d1 -> x ∉ d2 ->
  f1 ++ x :: d1 = f2 ++ x :: d2 -> f1 = f2 /\ d1 = d2.
Proof.
  intros H1 H2. revert f2.
  induction f1 as [|a f1 IH]; intros [|b f2]; cbn [app].
  - by intros [= ->].
  - intros [= _ Hd]. exfalso. apply H1. rewrite Hd.
    apply elem_of_app. right. apply list_elem_of_here.
  - intros [= _ Hd]. exfalso. apply H2. rewrite <- Hd.
    apply elem_of_app. right. apply list_elem_of_here.
  - intros [= -> H]. destruct (IH _ H) as [Hf Hd]. by rewrite Hf, Hd.
Qed.

(** X26. The identifier of a point tells the file and the position it was
    made from: two points have the same identifier only when they come from
    the same file id and the same position, so the points of one call, and
    of calls for different files, never replace one another. *)
Theorem point_id_unique (f1 f2 : pystr) (i1 i2 : nat) :
  point_id f1 i1 = point_id f2 i2 <-> f1 = f2 /\ i1 = i2.
Proof.
  split; [|by intros [-> ->]].
  unfold point_id. change (py "_") with [95%N]. cbn [app]. intros H.
  assert (forall i, 95%N ∉ str_of_int (Z.of_nat i)) as Hmark.
  { intros i Hin. destruct (str_of_nat_digits i) as [_ Hd].
    rewrite Forall_forall in Hd. apply Hd, isdigit_ascii in Hin. by destruct Hin. }
  apply split_at_last_mark in H as [-> Hd]; [|apply Hmark..].
  split; [done|]. by apply str_of_nat_inj.
Qed.

(** ** The width of numbers *)

Lemma little_double_digits (d : Decimal.uint) :
  Decimal.nb_digits (Decimal.Little.double d) <= S (Decimal.nb_digits d)
  /\ Decimal.nb_digits (Decimal.Little.succ_double d) <= S (Decimal.nb_digits d).
Proof.
  induction d as [|d [IH1 IH2]|d [IH1 IH2]|d [IH1 IH2]|d [IH1 IH2]|d [IH1 IH2]
                  |d [IH1 IH2]|d [IH1 IH2]|d [IH1 IH2]|d [IH1 IH2]|d [IH1 IH2]];
    cbn [Decimal.Little.double Decimal.Little.succ_double Decimal.nb_digits];
    lia.
Qed.

Lemma to_little_uint_digits (p : positive) :
  Decimal.nb_digits (Pos.to_little_uint p) <= Pos.size_nat p.
Proof.
  induction p as [p IH|p IH|]; cbn [Pos.to_little_uint Pos.size_nat].
  - pose proof (little_double_digits (Pos.to_little_uint p)). lia.
  - pose proof (little_double_digits (Pos.to_little_uint p)). lia.
  - simpl. lia.
Qed.

Lemma string_of_uint_length (d : Decimal.uint) :
  length (list_ascii_of_string (NilEmpty.string_of_uint d))
  = Decimal.nb_digits d.
Proof.
  induction d; cbn [NilEmpty.string_of_uint list_ascii_of_string length
                    Decimal.nb_digits]; congruence.
Qed.

Lemma str_of_int_ascii (z : Z) :
  (0 <= z)%Z ->
  str_of_int z
  = map N_of_ascii (list_ascii_of_string (NilZero.string_of_int (Z.to_int z))).
Proof.
  intros Hz. rewrite <- (Z2Nat.id z Hz). apply str_of_nat_digits.
Qed.

(** A number below [2^b] is written with [b] digits at most. *)
Lemma str_of_int_length (z : Z) (b : nat) :
  (0 <= z < 2 ^ Z.of_nat b)%Z -> 1 <= b -> length (str_of_int z) <= b.
Proof.
  intros [Hz Hb] Hb1. rewrite str_of_int_ascii by done. rewrite length_map.
  destruct z as [|p|p]; [simpl; lia| |lia].
  cbn [Z.to_int NilZero.string_of_int]. unfold NilZero.string_of_uint.
  pose proof (DecimalPos.Unsigned.to_uint_nonnil p) as Hnil.
  assert (length (list_ascii_of_string (NilEmpty.string_of_uint (Pos.to_uint p)))
          <= b) as Hlen.
  { rewrite string_of_uint_length. unfold Pos.to_uint.
    rewrite DecimalFacts.nb_digits_rev.
    pose proof (to_little_uint_digits p).
    apply Zpow_facts.Zpower2_Psize in Hb. lia. }
  by destruct (Pos.to_uint p).
Qed.

(** ** The width of a price *)

Lemma digits2_pos_bound (m : positive) :
  (Z.pos m < 2 ^ Z.pos (digits2_pos m))%Z.
Proof.
  induction m as [m IH|m IH|]; cbn [digits2_pos]; [| |done].
  - rewrite Pos2Z.inj_succ, Z.pow_succ_r by lia. lia.
  - rewrite Pos2Z.inj_succ, Z.pow_succ_r by lia. lia.
Qed.

Lemma finite_float_bounds (x : float) (s : bool) (m : positive) (e : Z) :
  Prim2SF x = S754_finite s m e ->
  (Z.pos m < 2 ^ 53)%Z /\ (e <= 971)%Z.
Proof.
  intros Hx. pose proof (Prim2SF_valid x) as Hv. rewrite Hx in Hv.
  unfold SpecFloat.valid_binary, bounded, canonical_mantissa, fexp,
    SpecFloat.emin, prec, emax in Hv.
  apply andb_true_iff in Hv as [Hc He].
  apply Z.eqb_eq in Hc. apply Z.leb_le in He. split; [|lia].
  pose proof (digits2_pos_bound m) as Hm.
  assert (Z.pos (digits2_pos m) <= 53)%Z as Hd by lia.
  eapply Z.lt_le_trans; [exact Hm|]. apply Z.pow_le_mono_r; lia.
Qed.

Lemma round_half_even_bound (num den : Z) :
  (0 <= num)%Z -> (2 <= den)%Z ->
  (0 <= round_half_even num den <= num)%Z.
Proof.
  intros Hnum Hden. unfold round_half_even.
  pose proof (Z.div_mod num den ltac:(lia)) as Hdm.
  pose proof (Z.mod_pos_bound num den ltac:(lia)) as Hr.
  pose proof (Z.div_pos num den Hnum ltac:(lia)) as Hq.
  assert (num / den <= num)%Z as Hle by (apply Z.div_le_upper_bound; nia).
  destruct (2 * (num mod den) <? den)%Z eqn:H1; [lia|].
  apply Z.ltb_ge in H1.
  assert (num / den + 1 <= num)%Z as Hle1 by nia.
  destruct (den <? 2 * (num mod den))%Z; [lia|].
  destruct (Z.even (num / den)); lia.
Qed.

Lemma scaled_bound (x : float) (s : bool) (m : positive) (e : Z) :
  Prim2SF x = S754_finite s m e ->
  (0 <= scaled m e 2 < 2 ^ 1031)%Z.
Proof.
  intros Hx. destruct (finite_float_bounds x s m e Hx) as [Hm He].
  unfold scaled. change (10 ^ Z.of_nat 2)%Z with 100%Z.
  destruct (0 <=? e)%Z eqn:Hpos.
  - apply Z.leb_le in Hpos. split; [apply Z.mul_nonneg_nonneg; lia|].
    assert (2 ^ e <= 2 ^ 971)%Z as Hpow by (apply Z.pow_le_mono_r; lia).
    assert (0 < 2 ^ e)%Z as Hpow0 by (apply Z.pow_pos_nonneg; lia).
    replace (2 ^ 1031)%Z with (2 ^ 53 * 128 * 2 ^ 971)%Z
      by (vm_compute; reflexivity).
    assert (Z.pos m * 100 < 2 ^ 53 * 128)%Z by lia.
    eapply Z.lt_le_trans; [apply Z.mul_lt_mono_pos_r; [exact Hpow0|eassumption]|].
    apply Z.mul_le_mono_nonneg_l; lia.
  - apply Z.leb_gt in Hpos.
    assert (2 <= 2 ^ (- e))%Z as Hden.
    { change 2%Z with (2 ^ 1)%Z at 1. apply Z.pow_le_mono_r; lia. }
    pose proof (round_half_even_bound (Z.pos m * 100) (2 ^ (- e)) ltac:(lia) Hden).
    assert (2 ^ 53 * 100 < 2 ^ 1031)%Z by (vm_compute; reflexivity).
    lia.
Qed.

Lemma fixed_digits_length (q : Z) :
  (0 <= q < 2 ^ 1031)%Z -> length (fixed_digits q 2) <= 1039.
Proof.
  intros Hq. unfold fixed_digits. change (10 ^ Z.of_nat 2)%Z with 100%Z.
  assert (length (str_of_int (q / 100)) <= 1031) as Hint.
  { apply str_of_int_length; [|lia]. split; [apply Z.div_pos; lia|].
    change (Z.of_nat 1031) with 1031%Z.
    apply Z.div_lt_upper_bound; [lia|]. lia. }
  assert (length (str_of_int (q mod 100)) <= 7) as Hfrac.
  { apply str_of_int_length; [|lia].
    pose proof (Z.mod_pos_bound q 100 ltac:(lia)).
    change (2 ^ Z.of_nat 7)%Z with 128%Z. lia. }
  rewrite length_app. cbn [length]. rewrite length_app, length_replicate. lia.
Qed.

Lemma format_f_length (x : float) : length (format_f 2 x) <= 1040.
Proof.
  unfold format_f. destruct (Prim2SF x) as [s|s| |s m e] eqn:Hx.
  - destruct s; vm_compute; lia.
  - destruct s; vm_compute; lia.
  - vm_compute; lia.
  - pose proof (fixed_digits_length _ (scaled_bound x s m e Hx)).
    rewrite length_app. destruct s; simpl; lia.
Qed.

Lemma price_text_length (precio : option float) :
  length (price_text precio) <= 1041.
Proof.
  destruct precio as [x|]; [|vm_compute; lia].
  unfold price_text. rewrite length_app.
  pose proof (format_f_length x). change (length (py "$")) with 1. lia.
Qed.

(** ** The width of the lines of the report *)

Lemma ljust_length (w : nat) (s : pystr) :
  length (ljust w s) = Nat.max w (length s).
Proof. unfold ljust. rewrite length_app, length_replicate. lia. Qed.

Lemma rjust_length (w : nat) (s : pystr) :
  length (rjust w s) = Nat.max w (length s).
Proof. unfold rjust. rewrite length_app, length_replicate. lia. Qed.

Lemma cut_name_length (nombre : pystr) : length (cut_name nombre) <= 44.
Proof.
  unfold cut_name. destruct (44 <? length nombre) eqn:Hlen.
  - rewrite length_take. lia.
  - apply Nat.ltb_ge in Hlen. lia.
Qed.

Lemma count_length (n : nat) :
  (Z.of_nat n < 2 ^ 32)%Z -> length (str_of_int (Z.of_nat n)) <= 32.
Proof. intros Hn. apply str_of_int_length; [|lia]. split; [lia|exact Hn]. Qed.

Lemma result_row_length (i : nat) (v : ValidationResult) :
  (Z.of_nat i < 2 ^ 32)%Z -> length (validacion v) <= 11 ->
  length (result_row i v) <= 2174.
Proof.
  intros Hi Hv. unfold result_row.
  rewrite !length_app, !ljust_length, !rjust_length.
  change (length (py " ")) with 1.
  pose proof (count_length i Hi).
  pose proof (cut_name_length (display_name v)).
  pose proof (price_text_length (precio_imagen v)).
  pose proof (price_text_length (precio_sistema v)).
  lia.
Qed.

Lemma filter_length_le {A} (f : A -> bool) (l : list A) :
  length (List.filter f l) <= length l.
Proof. induction l as [|x l IH]; simpl; [done|]. destruct (f x); simpl; lia. Qed.

Lemma filtered_count_length {A} (f : A -> bool) (l : list A) :
  (Z.of_nat (length l) < 2 ^ 32)%Z ->
  length (str_of_int (Z.of_nat (length (List.filter f l)))) <= 32.
Proof.
  intros Hn. apply count_length. pose proof (filter_length_le f l). lia.
Qed.

Lemma results_summary_length (validaciones : list ValidationResult) :
  (Z.of_nat (length validaciones) < 2 ^ 32)%Z ->
  length (results_summary validaciones) <= 300.
Proof.
  intros Hn. unfold results_summary, count_status.
  rewrite !length_app.
  repeat match goal with
         | |- context [length (py ?s)] =>
           let n := eval vm_compute in (length (py s)) in
           change (length (py s)) with n
         end.
  pose proof (filtered_count_length
                (fun v => str_eqb (status v) MATCH) validaciones Hn).
  pose proof (filtered_count_length
                (fun v => str_eqb (status v) PRICE_DIFF) validaciones Hn).
  pose proof (filtered_count_length
                (fun v => str_eqb (status v) NOT_FOUND
                          || str_eqb (status v) NO_PRICE) validaciones Hn).
  pose proof (count_length (length validaciones) Hn).
  lia.
Qed.

(** The lines of a text joined from lines are pieces of those lines. *)
Lemma split_join_bounded (B : nat) (lines : list pystr) :
  Forall (fun l => length l <= B) lines ->
  Forall (fun l => length l <= B) (split_char 10 (join [10%N] lines)).
Proof.
  induction 1 as [|l lines Hl Hlines IH].
  { cbn [join split_char]. repeat constructor. simpl. lia. }
  destruct lines as [|l' lines].
  - cbn [join]. eapply Forall_impl; [apply split_char_length|].
    simpl. intros; lia.
  - rewrite join_cons by done. cbn [app]. rewrite split_char_app.
    apply Forall_app. split; [|exact IH].
    eapply Forall_impl; [apply split_char_length|]. simpl. intros; lia.
Qed.

Lemma validate_product_symbol (tolerance : float)
    (m : gmap pystr (list ProductMatch.t)) (p : Producto.t) :
  length (validacion (validate_product tolerance m p)) <= 11.
Proof.
  unfold validate_product. destruct (default [] _) as [|best rest]; simpl;
    [vm_compute; lia|].
  unfold _compare_prices. destruct (Producto.precio p); simpl; [|vm_compute; lia].
  destruct (_prices_match _ _ _); simpl; vm_compute; lia.
Qed.

Section ReportWidth.

Context {Embedding : Type}.
Variable encode : pystr -> Embedding.
Variable client_search :
  Embedding -> option pystr -> Z -> float -> res (list Hit.t).
Variable tolerance : float.
Variable search_limit : Z.
Variable similarity_threshold : float.

Lemma validate_products_symbols (productos : list Producto.t) (tienda_id : Z)
    (validaciones : list ValidationResult) :
  validate_products tolerance search_limit similarity_threshold encode
    client_search productos tienda_id = Ok validaciones ->
  length validaciones = length productos
  /\ Forall (fun v => length (validacion v) <= 11) validaciones.
Proof.
  unfold validate_products.
  destruct (search_products_batch _ _ _ _ _ _) as [m|e]; cbn [mbind res_bind];
    [|done].
  rewrite foldl_snoc_map, app_nil_l. intros [= <-]. split; [by rewrite length_map|].
  apply Forall_forall. intros v [p [<- _]]%list_elem_of_In%in_map_iff.
  apply validate_product_symbol.
Qed.

End ReportWidth.

Lemma report_lines_bounded (validaciones : list ValidationResult) (tienda_id : Z) :
  (1 <= tienda_id <= 9999)%Z ->
  (Z.of_nat (length validaciones) < 2 ^ 32)%Z ->
  Forall (fun v => length (validacion v) <= 11) validaciones ->
  Forall (fun l => length l <= 3900)
         (split_char 10 (format_results_for_slack validaciones tienda_id)).
Proof.
  intros Hid Hn Hsym. unfold format_results_for_slack.
  destruct validaciones as [|v0 vs0] eqn:Hvs.
  { eapply Forall_impl; [apply split_char_length|]. intros l Hl.
    eapply Nat.le_trans; [exact Hl|]. vm_compute. lia. }
  rewrite <- Hvs in *. clear Hvs v0 vs0.
  pose proof (keep_new_sublist result_dedup_key validaciones ∅) as Hsub.
  rewrite <- deduplicate_results_keep_new in Hsub.
  set (unique := _deduplicate_results validaciones) in *.
  assert (Forall (fun v => length (validacion v) <= 11) unique) as Husym.
  { rewrite Forall_forall in Hsym. apply Forall_forall. intros v Hv.
    apply Hsym. by eapply elem_of_sublist. }
  assert (length unique <= length validaciones) as Hulen
    by (by apply sublist_length).
  destruct unique as [|u0 us0] eqn:Hu.
  { eapply Forall_impl; [apply split_char_length|]. intros l Hl.
    eapply Nat.le_trans; [exact Hl|]. vm_compute. lia. }
  rewrite <- Hu in *. clear Hu u0 us0.
  apply split_join_bounded.
  assert (forall l : pystr, length l <= 3900 -> Forall (fun l => length l <= 3900) [l])
    as Hone by (intros l Hl; by apply Forall_singleton).
  repeat apply Forall_app_2.
  - rewrite !Forall_cons. repeat split; [| |vm_compute; lia..|done].
    + rewrite !length_app.
      pose proof (str_of_int_length tienda_id 14
                    ltac:(change (2 ^ Z.of_nat 14)%Z with 16384%Z; lia)
                    ltac:(lia)).
      repeat match goal with
             | |- context [length (py ?s)] =>
               let n := eval vm_compute in (length (py s)) in
               change (length (py s)) with n
             end.
      lia.
    + simpl. lia.
  - apply Forall_forall. intros l Hl.
    apply list_elem_of_lookup in Hl as [i Hl].
    rewrite list_lookup_imap in Hl.
    destruct (unique !! i) as [v|] eqn:Hv; [|done]. cbn in Hl.
    injection Hl as <-.
    pose proof (lookup_lt_Some _ _ _ Hv) as Hlt.
    etransitivity; [apply result_row_length|lia].
    + lia.
    + rewrite Forall_forall in Husym. apply Husym.
      by eapply list_elem_of_lookup_2.
  - apply Hone. vm_compute. lia.
  - apply Hone. simpl. lia.
  - apply Hone.
    etransitivity; [apply results_summary_length; lia|lia].
Qed.

Ltac literal_lengths :=
  repeat match goal with
         | |- context [length (py ?s)] =>
           let n := eval vm_compute in (length (py s)) in
           change (length (py s)) with n
         end.

Lemma analyzing_message_length (tienda_id : Z) :
  (1 <= tienda_id <= 9999)%Z -> length (analyzing_message tienda_id) <= 3900.
Proof.
  intros Hid. unfold analyzing_message. rewrite !length_app.
  pose proof (str_of_int_length tienda_id 14
                ltac:(change (2 ^ Z.of_nat 14)%Z with 16384%Z; lia) ltac:(lia)).
  literal_lengths. lia.
Qed.

Lemma identified_message_length (productos : nat) :
  (Z.of_nat productos < 2 ^ 32)%Z ->
  length (identified_message productos) <= 3900.
Proof.
  intros Hn. unfold identified_message. rewrite !length_app.
  pose proof (count_length productos Hn). literal_lengths. lia.
Qed.

Lemma image_error_message_length (error : pystr) :
  length (image_error_message error) <= 3900.
Proof.
  unfold image_error_message. rewrite length_app, length_take.
  literal_lengths. lia.
Qed.

Lemma said_app (t1 t2 : list action) : said (t1 ++ t2) = said t1 ++ said t2.
Proof. unfold said. apply omap_app. Qed.

Lemma said_map_say (l : list pystr) : said (map Say l) = l.
Proof.
  induction l as [|m l IH]; [done|]. unfold said in *. simpl. by f_equal.
Qed.

(** ** The handlers *)

Section HandlerFacts.

Variable slack_say : list action -> pystr -> res unit.
Variable exn_text : exn -> pystr.
Variable download_image_from_slack : pystr -> res (list N).
Variable py_repr : json -> pystr.
Variable generate_content : pystr -> pystr -> list N -> res GeminiResponse.t.
Context {Embedding : Type}.
Variable encode : pystr -> Embedding.
Variable zero_vector : Embedding.
Variable client_search :
  Embedding -> option pystr -> Z -> float -> res (list Hit.t).
Variable tolerance : float.
Variable search_limit : Z.
Variable similarity_threshold : float.



Lemma bind_add_reaction {A} (r : pystr) (f : handler A) (t : list action) :
  (_add_reaction r ;; f) t = f (t ++ [AddReaction r]).
Proof. reflexivity. Qed.

Lemma bind_remove_reaction {A} (r : pystr) (f : handler A) (t : list action) :
  (_remove_reaction r ;; f) t = f (t ++ [RemoveReaction r]).
Proof. reflexivity. Qed.

Lemma bind_say {A} (m : pystr) (f : handler A) (t : list action) :
  (say slack_say m ;; f) t
  = match slack_say t m with
    | Ok _ => f (t ++ [Say m])
    | Raise e => (t ++ [Say m], Failed (Raised e))
    end.
Proof.
  unfold mbind, handler_bind, h_bind, say, h_call.
  by destruct (slack_say t m).
Qed.

Lemma say_eq (m : pystr) (t : list action) :
  say slack_say m t
  = (t ++ [Say m], match slack_say t m with
                   | Ok _ => Done tt
                   | Raise e => Failed (Raised e)
                   end).
Proof. unfold say, h_call. by destruct (slack_say t m) as [[]|]. Qed.

Lemma bind_call {A B} (a : action) (answer : res A) (f : A -> handler B)
    (t : list action) :
  (h_call a answer ≫= f) t
  = match answer with
    | Ok x => f x (t ++ [a])
    | Raise e => (t ++ [a], Failed (Raised e))
    end.
Proof. unfold mbind, handler_bind, h_bind, h_call. by destruct answer. Qed.

Lemma add_reaction_eq (r : pystr) (t : list action) :
  _add_reaction r t = (t ++ [AddReaction r], Done tt).
Proof. reflexivity. Qed.

Lemma remove_reaction_eq (r : pystr) (t : list action) :
  _remove_reaction r t = (t ++ [RemoveReaction r], Done tt).
Proof. reflexivity. Qed.

Lemma bind_ret {A B} (a : A) (f : A -> handler B) (t : list action) :
  (h_ret a ≫= f) t = f a t.
Proof. reflexivity. Qed.

Lemma bind_raise {A B} (e : handler_exn) (f : A -> handler B) (t : list action) :
  (h_raise e ≫= f) t = (t, Failed e).
Proof. reflexivity. Qed.

Lemma try_except_eq {A} (body : handler A) (handle : handler_exn -> handler A)
    (t : list action) :
  try_except body handle t
  = match body t with
    | (t1, Done a) => (t1, Done a)
    | (t1, Failed e) => handle e t1
    end.
Proof. reflexivity. Qed.

(** The loop over the parts says a prefix of them and does nothing else. *)
Lemma say_all_trace (parts : list pystr) (t : list action) :
  exists k,
    (say_all slack_say parts t).1 = t ++ map Say (take k parts)
    /\ ((say_all slack_say parts t).2 = Done tt
        \/ exists e, (say_all slack_say parts t).2 = Failed e)
    /\ ((forall t' m, slack_say t' m = Ok tt) ->
        (say_all slack_say parts t).2 = Done tt).
Proof.
  revert t. induction parts as [|part parts IH]; intros t.
  - exists 0. cbn [say_all h_ret fst snd take map]. rewrite app_nil_r. auto.
  - cbn [say_all]. rewrite bind_say.
    destruct (slack_say t part) as [[]|e] eqn:Hsay.
    + destruct (IH (t ++ [Say part])) as (k & Htrace & Hout & Hok).
      exists (S k). rewrite Htrace, <- app_assoc. auto.
    + exists 1. cbn [fst snd take map]. split; [by rewrite take_0|].
      split; [eauto|].
      intros Hall. rewrite Hall in Hsay. discriminate.
Qed.

Ltac hstep :=
  first
    [ rewrite bind_add_reaction
    | rewrite bind_remove_reaction
    | rewrite bind_say
    | rewrite bind_call
    | rewrite bind_ret
    | rewrite bind_raise
    | rewrite say_eq
    | rewrite add_reaction_eq
    | rewrite remove_reaction_eq
    | rewrite try_except_eq ].


Ltac hdestruct :=
  match goal with
  | |- context [match slack_say ?t ?m with _ => _ end] =>
    destruct (slack_say t m) as [[]|?] eqn:?
  | |- context [match SlackFile.url_private ?f with _ => _ end] =>
    destruct (SlackFile.url_private f) as [[|? ?]|]
  | |- context [match download_image_from_slack ?u with _ => _ end] =>
    destruct (download_image_from_slack u) as [?|?]
  | |- context [match analyze_shelf_image_with_tokens ?r ?g ?b with _ => _ end] =>
    destruct (analyze_shelf_image_with_tokens r g b) as [[[|? ?] ?]|?] eqn:?
  | |- context [match validate_products ?a ?b ?c ?d ?e ?f ?g with _ => _ end] =>
    destruct (validate_products a b c d e f g) as [?|?] eqn:?
  | |- context [match search_products ?a ?b ?c ?d ?e ?f ?g with _ => _ end] =>
    destruct (search_products a b c d e f g) as [[|? ?]|?]
  | |- context [if (?a <? ?b)%nat then _ else _] =>
    destruct (a <? b)%nat eqn:?
  | |- context [say_all slack_say ?parts ?t] =>
    let k := fresh "k" in
    let Htrace := fresh "Htrace" in
    let Hok := fresh "Hok" in
    let Hsa := fresh "Hsa" in
    let t1 := fresh "t" in
    let o := fresh "o" in
    destruct (say_all_trace parts t) as (k & Htrace & _ & Hok);
    destruct (say_all slack_say parts t) as [t1 o] eqn:Hsa;
    cbn [fst snd] in Htrace, Hok; subst t1; destruct o as [[]|?]
  end.


Ltac hrun :=
  repeat first [ progress hstep | progress cbn [fst snd] | hdestruct
               | progress cbv beta iota ].



Section AllSaid.

Hypothesis Hall : forall t m, slack_say t m = Ok tt.

Lemma say_all_done (parts : list pystr) (t : list action) :
  say_all slack_say parts t = (t ++ map Say parts, Done tt).
Proof.
  revert t. induction parts as [|part parts IH]; intros t.
  - cbn [say_all h_ret map]. by rewrite app_nil_r.
  - cbn [say_all map]. rewrite bind_say, Hall, IH, <- app_assoc. done.
Qed.

End AllSaid.








(** X30. When the analysis of an image never gives 2^32 products or more,
    every message that [_handle_image_analysis] sends has at most 3900
    characters: the fixed answers, the progress and error messages, and the
    report of [format_results_for_slack], which is sent whole when it is
    that short and in the parts of [_split_message] otherwise, no line of
    the report being longer than a part may be. *)
Theorem image_analysis_messages_fit (image_file : SlackFile.t) (text : pystr)
    (t0 : list action) :
  (forall image_bytes productos tokens,
     analyze_shelf_image_with_tokens py_repr generate_content image_bytes
     = Ok (productos, tokens) ->
     (Z.of_nat (length productos) < 2 ^ 32)%Z) ->
  exists new,
    (_handle_image_analysis slack_say exn_text download_image_from_slack
       py_repr generate_content encode client_search tolerance search_limit
       similarity_threshold image_file text t0).1 = t0 ++ new
    /\ Forall (fun message => length message <= 3900) (said new).
Proof.
  intros Hcount. unfold _handle_image_analysis.
  destruct (_extract_tienda_id text) as [n|] eqn:Hn.
  2:{ unfold truthy_int, negb. rewrite say_eq. eexists. split; [reflexivity|].
      apply Forall_singleton. vm_compute. lia. }
  apply extract_tienda_id_in_range in Hn.
  assert (truthy_int (Some n) = true) as ->
    by (cbn; apply negb_true_iff, Z.eqb_neq; lia).
  cbn [negb default]. unfold id.
  pose proof (analyzing_message_length n Hn) as Hanalyzing.
  pose proof image_error_message_length as Herror.
  assert (length no_products_message <= 3900) as Hnone by (vm_compute; lia).
  hrun.
  all: cbn [fst]; rewrite <- ?app_assoc; eexists; (split; [reflexivity|]).
  all: rewrite ?said_app, ?said_map_say.
  all: repeat match goal with
              | |- context [said [?a]] =>
                let v := eval cbv [said omap list_omap] in (said [a]) in
                change (said [a]) with v
              end.
  all: cbn [app].
  all: try match goal with
           | H : analyze_shelf_image_with_tokens _ _ _ = Ok _ |- _ =>
             apply Hcount in H
           end.
  all: try match goal with
           | H : validate_products _ _ _ _ _ _ _ = Ok _ |- _ =>
             apply validate_products_symbols in H as [Hlen Hsym]
           end.
  all: repeat first [ apply Forall_nil_2 | apply Forall_cons_2
                    | apply Forall_app_2 | apply Forall_take ].
  all: try match goal with
           | |- length (analyzing_message _) <= _ => exact Hanalyzing
           | |- length no_products_message <= _ => exact Hnone
           | |- length (image_error_message _) <= _ =>
             apply image_error_message_length
           | |- length (identified_message _) <= _ =>
             apply identified_message_length; assumption
           end.
  - eapply Forall_impl;
      [apply (split_message_parts_bounded _ 3900)|intros part Hpart; cbv beta in *; lia].
    eapply Forall_impl;
      [apply (report_lines_bounded _ n Hn); [rewrite Hlen; assumption|assumption]|].
    intros line Hline. simpl in Hline. lia.
  - eapply Forall_impl;
      [apply (split_message_parts_bounded _ 3900)|intros part Hpart; cbv beta in *; lia].
    eapply Forall_impl;
      [apply (report_lines_bounded _ n Hn); [rewrite Hlen; assumption|assumption]|].
    intros line Hline. simpl in Hline. lia.
  - by apply Nat.ltb_ge.
  - by apply Nat.ltb_ge.
Qed.

End HandlerFacts.

Lemma image_analysis_messages_fit_witness :
  exists new,
    (_handle_image_analysis sample_say sample_exn_text sample_download
       (fun _ => []) sample_model sample_encode catalog_search
       0.05%float 5%Z 0.7%float sample_image (py "tienda 100") []).1
    = [] ++ new
    /\ Forall (fun message => length message <= 3900) (said new).
Proof.
  apply (image_analysis_messages_fit sample_say sample_exn_text
           sample_download (fun _ => []) sample_model sample_encode
           catalog_search 0.05%float 5%Z 0.7%float sample_image
           (py "tienda 100") []).
  intros image_bytes productos tokens H. vm_compute in H.
  injection H as <- <-. vm_compute. reflexivity.
Defined.
